(** * ADCIRC file readers of xmstool_runner: a shallow embedding

    The development follows the Python sources

    - [xms/adcirc/fort13_reader.py]   (nodal attributes),
    - [xms/adcirc/fort14_reader.py]   (mesh geometry),
    - [xms/adcirc/fort63_reader.py]   (NetCDF elevation solution),
    - [initial_adcirc_readers/solution_importer.py] (solution files),
    - [initial_adcirc_readers/fort14_reader.py]     (boundary coverages).

    Python values are modelled as follows: [int] is [Z]; [float] is an IEEE
    754 binary64 value of [spec_float]; [str] is [string] (code points below
    256); a [list] is a [list] with Python's index rules written out; a
    [dict] is an association list in insertion order; a raised exception is
    the [Raise] branch of [result], and an object whose fields are mutated
    is a record threaded through the calls. *)

From Stdlib Require Import ZArith List String Ascii Bool Lia DecimalString.
From Stdlib Require Import Floats.SpecFloat.
Import ListNotations.

Open Scope string_scope.
Open Scope Z_scope.

(** ** Python primitives used by the readers *)
Module Py.

(** The exceptions the readers can raise; [ValueError] carries its message.
    [Diverge] is no exception: it marks a call that does not return (a loop
    that spins at the end of a file), and no handler catches it. *)
Inductive exn : Type :=
| ValueError (msg : string)
| IndexError
| KeyError
| ZeroDivisionError
| OverflowError
| FileNotFoundError
| OSError
| Diverge.

Inductive result (A : Type) : Type :=
| Ok (a : A)
| Raise (e : exn).
Arguments Ok {A} a.
Arguments Raise {A} e.

Definition bind {A B : Type} (m : result A) (f : A -> result B) : result B :=
  match m with
  | Ok a => f a
  | Raise e => Raise e
  end.

Definition is_ok {A : Type} (m : result A) : bool :=
  match m with Ok _ => true | Raise _ => false end.

(** *** Sequences *)

(** [l[i]] for a possibly negative [i]: the position it denotes, if any. *)
Definition norm_index (len : nat) (i : Z) : option nat :=
  if (0 <=? i) && (i <? Z.of_nat len) then Some (Z.to_nat i)
  else if (i <? 0) && (- Z.of_nat len <=? i) then Some (Z.to_nat (Z.of_nat len + i))
  else None.

Definition getitem {A : Type} (l : list A) (i : Z) : result A :=
  match norm_index (List.length l) i with
  | Some n => match nth_error l n with
              | Some x => Ok x
              | None => Raise IndexError
              end
  | None => Raise IndexError
  end.

Fixpoint set_nth {A : Type} (l : list A) (n : nat) (v : A) : list A :=
  match l, n with
  | [], _ => []
  | _ :: t, O => v :: t
  | h :: t, S n' => h :: set_nth t n' v
  end.

(** [l[i] = v]; out of range raises [IndexError]. *)
Definition setitem {A : Type} (l : list A) (i : Z) (v : A) : result (list A) :=
  match norm_index (List.length l) i with
  | Some n => Ok (set_nth l n v)
  | None => Raise IndexError
  end.

(** [not l] *)
Definition is_nil {A : Type} (l : list A) : bool :=
  match l with [] => true | _ => false end.

(** [[v for _ in range(n)]]; [range] of a negative number is empty. *)
Definition replicate {A : Type} (n : Z) (v : A) : list A :=
  List.repeat v (Z.to_nat n).

(** The number of iterations of [for _ in range(n)]. *)
Definition range_len (n : Z) : nat := Z.to_nat n.

(** [m[j][i] = v] *)
Definition setitem2 {A : Type} (m : list (list A)) (j i : Z) (v : A)
  : result (list (list A)) :=
  match getitem m j with
  | Ok row => match setitem row i v with
              | Ok row' => setitem m j row'
              | Raise e => Raise e
              end
  | Raise e => Raise e
  end.

(** *** Dictionaries, in insertion order *)
Section Dict.
Context {K V : Type}.
Variable eqb : K -> K -> bool.

Fixpoint dict_get (k : K) (d : list (K * V)) : option V :=
  match d with
  | [] => None
  | (k', v) :: d' => if eqb k' k then Some v else dict_get k d'
  end.

(** [d[k] = v]: a key already present keeps its place. *)
Fixpoint dict_set (k : K) (v : V) (d : list (K * V)) : list (K * V) :=
  match d with
  | [] => [(k, v)]
  | (k', v') :: d' =>
      if eqb k' k then (k', v) :: d' else (k', v') :: dict_set k v d'
  end.

(** [d[k]] *)
Definition dict_item (k : K) (d : list (K * V)) : result V :=
  match dict_get k d with
  | Some v => Ok v
  | None => Raise KeyError
  end.

(** [d.values()] *)
Definition dict_values (d : list (K * V)) : list V := map snd d.

End Dict.

(** *** Strings *)

(** [str.isspace] on the code points below 256. *)
Definition is_space (c : ascii) : bool :=
  let n := nat_of_ascii c in
  (((9 <=? n) && (n <=? 13)) || ((28 <=? n) && (n <=? 32))
   || (n =? 133) || (n =? 160))%nat.

Definition is_empty (s : string) : bool :=
  match s with EmptyString => true | _ => false end.

Fixpoint split_from (tok s : string) : list string :=
  match s with
  | EmptyString => if is_empty tok then [] else [tok]
  | String c s' =>
      if is_space c
      then (if is_empty tok then split_from EmptyString s'
            else tok :: split_from EmptyString s')
      else split_from (tok ++ String c EmptyString) s'
  end.

(** [s.split()] *)
Definition split (s : string) : list string := split_from EmptyString s.

(** [s.replace(",", " ")] *)
Fixpoint replace_comma (s : string) : string :=
  match s with
  | EmptyString => EmptyString
  | String c s' =>
      String (if Ascii.eqb c ","%char then " "%char else c) (replace_comma s')
  end.

(** [s.partition(sep)[0]] for a one-character separator. *)
Fixpoint partition_head (sep : ascii) (s : string) : string :=
  match s with
  | EmptyString => EmptyString
  | String c s' =>
      if Ascii.eqb c sep then EmptyString else String c (partition_head sep s')
  end.

Fixpoint lstrip (s : string) : string :=
  match s with
  | EmptyString => EmptyString
  | String c s' => if is_space c then lstrip s' else s
  end.

Fixpoint rstrip (s : string) : string :=
  match s with
  | EmptyString => EmptyString
  | String c s' =>
      let r := rstrip s' in
      if is_empty r && is_space c then EmptyString else String c r
  end.

(** [s.strip()] *)
Definition strip (s : string) : string := rstrip (lstrip s).

(** [not line or not line.strip()]: the test the solution readers use for
    "end of file or blank line". *)
Definition blank (line : string) : bool :=
  is_empty line || is_empty (strip line).

Definition lower_char (c : ascii) : ascii :=
  let n := nat_of_ascii c in
  if ((65 <=? n) && (n <=? 90))%nat then ascii_of_nat (n + 32) else c.

(** [s.lower()] on ASCII letters. *)
Fixpoint lower (s : string) : string :=
  match s with
  | EmptyString => EmptyString
  | String c s' => String (lower_char c) (lower s')
  end.

(** [sub in s] *)
Fixpoint contains (sub s : string) : bool :=
  String.prefix sub s
  || match s with
     | EmptyString => false
     | String _ s' => contains sub s'
     end.

(** [s.startswith(p)] *)
Definition startswith (p s : string) : bool := String.prefix p s.

(** *** Numbers *)

Definition digit_of (c : ascii) : option Z :=
  let n := nat_of_ascii c in
  if ((48 <=? n) && (n <=? 57))%nat then Some (Z.of_nat (n - 48)) else None.

(** Decimal digits, single underscores allowed between two digits. *)
Fixpoint digits_val (s : string) (acc : Z) (after_digit : bool) : option Z :=
  match s with
  | EmptyString => if after_digit then Some acc else None
  | String c s' =>
      match digit_of c with
      | Some d => digits_val s' (10 * acc + d) true
      | None =>
          if Ascii.eqb c "_"%char && after_digit
          then digits_val s' acc false
          else None
      end
  end.

(** [int(tok)] for a token without surrounding blanks. *)
Definition int (tok : string) : result Z :=
  let parsed :=
    match tok with
    | String "-"%char s' => option_map Z.opp (digits_val s' 0 false)
    | String "+"%char s' => digits_val s' 0 false
    | _ => digits_val tok 0 false
    end in
  match parsed with
  | Some z => Ok z
  | None => Raise (ValueError "invalid literal for int()")
  end.

(** *** Methods of an object: state and exceptions

    A method of an object with fields [S] is a function from the fields to
    an outcome and the fields as the method left them; when it raises, the
    mutations made so far stay. *)
Definition M (S A : Type) : Type := S -> result A * S.

Definition ret {S A : Type} (a : A) : M S A := fun s => (Ok a, s).

Definition raise {S A : Type} (e : exn) : M S A := fun s => (Raise e, s).

Definition mbind {S A B : Type} (m : M S A) (f : A -> M S B) : M S B :=
  fun s => match m s with
           | (Ok a, s') => f a s'
           | (Raise e, s') => (Raise e, s')
           end.

Definition lift {S A : Type} (r : result A) : M S A := fun s => (r, s).

Definition get {S : Type} : M S S := fun s => (Ok s, s).

Definition modify {S : Type} (f : S -> S) : M S unit := fun s => (Ok tt, f s).

(** [try: body except Exception: handler] *)
Definition try_except {S A : Type} (body : M S A) (handler : exn -> M S A)
  : M S A :=
  fun s => match body s with
           | (Ok a, s') => (Ok a, s')
           | (Raise Diverge, s') => (Raise Diverge, s')
           | (Raise e, s') => handler e s'
           end.

(** *** Text files

    A text file is the list of its lines as [readlines] gives them; an open
    handle is the list of the lines not read yet, and [readline] at the end
    of the file returns the empty string. *)
Definition handle : Type := list string.

Definition readline : M handle string :=
  fun fh => match fh with
            | [] => (Ok EmptyString, [])
            | l :: fh' => (Ok l, fh')
            end.

Definition newline : string := String (ascii_of_nat 10) EmptyString.

(** The lines [readlines] gives for a file whose lines, each ended by a
    newline, are [ls]. *)
Definition text_lines (ls : list string) : list string :=
  map (fun l => l ++ newline) ls.

(** A method that holds an open file: the object and the handle. *)
Definition on_self {S H A : Type} (m : M S A) : M (S * H) A :=
  fun '(s, h) => let '(r, s') := m s in (r, (s', h)).

Definition on_fh {S H A : Type} (m : M H A) : M (S * H) A :=
  fun '(s, h) => let '(r, h') := m h in (r, (s, h')).

(** [with open(path) as f: body] on the lines of the file. *)
Definition with_open {S A : Type} (lines : handle) (body : M (S * handle) A)
  : M S A :=
  fun s => let '(r, (s', _)) := body (s, lines) in (r, s').

(** [for _ in range(n): body] *)
Fixpoint for_range {S : Type} (n : nat) (body : M S unit) : M S unit :=
  match n with
  | O => ret tt
  | S n' => mbind body (fun _ => for_range n' body)
  end.

End Py.

Export Py.

Declare Scope py_scope.
Delimit Scope py_scope with py.
Notation "x <- m ;; k" := (Py.bind m (fun x => k))
  (at level 61, m at next level, right associativity) : py_scope.
Notation "' pat <- m ;; k" := (Py.bind m (fun x => match x with pat => k end))
  (at level 61, pat pattern, m at next level, right associativity) : py_scope.
Notation "x <~ m ;; k" := (Py.mbind m (fun x => k))
  (at level 61, m at next level, right associativity) : py_scope.
Notation "m ;;; k" := (Py.mbind m (fun _ => k))
  (at level 61, right associativity) : py_scope.
Open Scope py_scope.

(** ** Binary64 floats *)
Module Float.

Definition float : Type := spec_float.
Definition prec : Z := 53.
Definition emax : Z := 1024.

Definition of_Z (z : Z) : float := binary_normalize prec emax z 0 false.

Definition fmul (x y : float) : float := SFmul prec emax x y.
Definition fdiv (x y : float) : float := SFdiv prec emax x y.
Definition feqb (x y : float) : bool := SFeqb x y.
Definition fleb (x y : float) : bool := SFleb x y.
(** [x >= y] *)
Definition fgeb (x y : float) : bool := SFleb y x.

(** [np.isnan] / [math.isnan] *)
Definition isnan (x : float) : bool :=
  match x with S754_nan => true | _ => false end.

Definition nan : float := S754_nan.
Definition zero : float := S754_zero false.

(** [bool(x)] of a float: false exactly on the two zeros. *)
Definition truthy (x : float) : bool :=
  match x with S754_zero _ => false | _ => true end.

(** [ADCIRC_NULL_VALUE = -99999.0] *)
Definition ADCIRC_NULL_VALUE : float :=
  Eval cbv in SFopp (of_Z 99999).

(** Plain decimal literals, [[+-]digits[.digits]]: the quotient of two
    exactly representable integers, rounded once.  It agrees with Python's
    [float] on literals of at most 15 significant digits; the readers below
    are parametric in the parser and use this one only on sample files. *)
Fixpoint all_digits (s : string) (acc : Z) : option Z :=
  match s with
  | EmptyString => Some acc
  | String c s' =>
      match Py.digit_of c with
      | Some d => all_digits s' (10 * acc + d)
      | None => None
      end
  end.

Fixpoint split_dot (s : string) : string * option string :=
  match s with
  | EmptyString => (EmptyString, None)
  | String c s' =>
      if Ascii.eqb c "."%char then (EmptyString, Some s')
      else let '(a, b) := split_dot s' in (String c a, b)
  end.

Definition decimal_unsigned (s : string) : option float :=
  let '(ip, fp) := split_dot s in
  let fp' := match fp with Some f => f | None => EmptyString end in
  if Py.is_empty ip && Py.is_empty fp' then None
  else
    match all_digits (ip ++ fp') 0 with
    | Some m =>
        if (String.length (ip ++ fp') <=? 15)%nat
        then Some (fdiv (of_Z m) (of_Z (10 ^ Z.of_nat (String.length fp'))))
        else None
    | None => None
    end.

Definition decimal_float (s : string) : option float :=
  match s with
  | String "-"%char s' => option_map SFopp (decimal_unsigned s')
  | String "+"%char s' => decimal_unsigned s'
  | _ => decimal_unsigned s
  end.

(** [float(tok)], for a given reading of float literals. *)
Definition to_float (float_of_string : string -> option float) (tok : string)
  : result float :=
  match float_of_string tok with
  | Some x => Ok x
  | None => Raise (ValueError "could not convert string to float")
  end.

End Float.

Export Float.

(** ** NetCDF variables and XMDF datasets *)
Module NetCDF.

(** A numpy array of rank one, two or three. *)
Inductive ndarray : Type :=
| Arr1 (v : list float)
| Arr2 (rows : list (list float))
| Arr3 (cube : list (list (list float))).

Definition arr_map (f : float -> float) (a : ndarray) : ndarray :=
  match a with
  | Arr1 v => Arr1 (map f v)
  | Arr2 rows => Arr2 (map (map f) rows)
  | Arr3 cube => Arr3 (map (map (map f)) cube)
  end.

(** The elements in C order. *)
Definition arr_elems (a : ndarray) : list float :=
  match a with
  | Arr1 v => v
  | Arr2 rows => List.concat rows
  | Arr3 cube => List.concat (map (@List.concat float) cube)
  end.

(** [a.size] *)
Definition arr_size (a : ndarray) : Z := Z.of_nat (List.length (arr_elems a)).

(** [len(a)] *)
Definition arr_len (a : ndarray) : Z :=
  match a with
  | Arr1 v => Z.of_nat (List.length v)
  | Arr2 rows => Z.of_nat (List.length rows)
  | Arr3 cube => Z.of_nat (List.length cube)
  end.

(** [a[a == v] = w] *)
Definition assign_where_eq (v w : float) (a : ndarray) : ndarray :=
  arr_map (fun x => if feqb x v then w else x) a.

(** [a[np.isnan(a)] = w] *)
Definition assign_where_nan (w : float) (a : ndarray) : ndarray :=
  arr_map (fun x => if isnan x then w else x) a.

Fixpoint stack_row (xs ys : list float) : option (list (list float)) :=
  match xs, ys with
  | [], [] => Some []
  | x :: xs', y :: ys' => option_map (cons [x; y]) (stack_row xs' ys')
  | _, _ => None
  end.

Fixpoint stack_rows (xs ys : list (list float))
  : option (list (list (list float))) :=
  match xs, ys with
  | [], [] => Some []
  | x :: xs', y :: ys' =>
      match stack_row x y, stack_rows xs' ys' with
      | Some r, Some rs => Some (r :: rs)
      | _, _ => None
      end
  | _, _ => None
  end.

(** [np.stack([x, y], axis=2)] of two arrays of rank two; other ranks and
    unequal shapes are rejected by numpy. *)
Definition stack_axis2 (x y : ndarray) : result ndarray :=
  match x, y with
  | Arr2 xs, Arr2 ys =>
      match stack_rows xs ys with
      | Some c => Ok (Arr3 c)
      | None => Raise (ValueError "all input arrays must have the same shape")
      end
  | _, _ => Raise (ValueError "axis 2 is out of bounds")
  end.

(** An open NetCDF file: its variables by name. *)
Definition nc_file : Type := list (string * ndarray).

Fixpoint lookup (name : string) (f : nc_file) : option ndarray :=
  match f with
  | [] => None
  | (k, v) :: f' => if String.eqb k name then Some v else lookup name f'
  end.

Definition var_name (path : string) : string :=
  match path with
  | String "/"%char p => p
  | _ => path
  end.

(** A file on disk: its lines when it is opened as text, and its
    variables when it is a NetCDF file. *)
Record file : Type := mk_file {
  text : list string;
  netcdf : option nc_file
}.

(** [netCDF4.Dataset(filename, "r")]; [None] is a path that is no file. *)
Definition open_dataset (f : option file) : result nc_file :=
  match f with
  | None => Raise FileNotFoundError
  | Some f => match netcdf f with
              | Some d => Ok d
              | None => Raise OSError
              end
  end.

(** [root_grp[path][:]] *)
Definition read_var (f : nc_file) (path : string) : result ndarray :=
  match lookup (var_name path) f with
  | Some a => Ok a
  | None => Raise IndexError
  end.

(** What [DatasetWriter] is given to write: name, number of components,
    time offsets and the values, one row per time step. *)
Record xmdf_dataset : Type := mk_dataset {
  dset_name : string;
  dset_num_components : Z;
  dset_times : list float;
  dset_values : ndarray
}.

End NetCDF.

Export NetCDF.

(** ** [xms/adcirc/fort63_reader.py] *)
Module Fort63Reader.

Record t : Type := mk {
  dataset_name : string;
  geom_num_nodes : Z;
  dataset_writer : option xmdf_dataset
}.

Definition init (name : string) (n : Z) : t := mk name n None.

Definition set_writer (w : xmdf_dataset) (r : t) : t :=
  mk (dataset_name r) (geom_num_nodes r) (Some w).

(** [data.size / len(times) != self.geom_num_nodes], a true division. *)
Definition _write_xmdf_dataset (name : string) (times data : ndarray)
  : M t unit :=
  r <~ get ;;
  if arr_len times =? 0 then raise ZeroDivisionError
  else if negb (arr_size data =? geom_num_nodes r * arr_len times)
  then raise (ValueError "Incorrect number of values")
  else modify (set_writer (mk_dataset name 1 (arr_elems times) data)).

Definition _read_netcdf_scalars (file : option file)
  (scalar_path name : string) : M t unit :=
  root_grp <~ lift (open_dataset file) ;;
  scalar_data <~ lift (read_var root_grp scalar_path) ;;
  let scalar_data := assign_where_eq ADCIRC_NULL_VALUE nan scalar_data in
  let scalar_data := assign_where_nan ADCIRC_NULL_VALUE scalar_data in
  times <~ lift (read_var root_grp "/time") ;;
  _write_xmdf_dataset name times scalar_data.

Definition read (file : option file) : M t unit :=
  r <~ get ;;
  _read_netcdf_scalars file "/zeta" (dataset_name r).

End Fort63Reader.

(** ** [initial_adcirc_readers/solution_importer.py] *)
Module ADCIRCSolutionReader.

(** What the reader sends to the log, besides progress messages. *)
Inductive log_entry : Type :=
| WarnEmptyDataset (filename : string)
| ExceptionReading (filename : string)
| ErrorUnknownFormat (filename : string)
| ErrorNoSolutionFiles.

(** The fields of the reader the methods below touch; [added] holds the
    datasets handed to [add_xmdf_dataset], in order. *)
Record t : Type := mk {
  filenames : list string;
  num_ts : Z;
  num_nodes : Z;
  read_file : string;
  read_data : bool;
  added : list xmdf_dataset;
  log : list log_entry
}.

Definition init (files : list string) : t :=
  mk files 0 0 EmptyString false [] [].

Definition set_num_ts (n : Z) (r : t) : t :=
  mk (filenames r) n (num_nodes r) (read_file r) (read_data r) (added r) (log r).
Definition set_num_nodes (n : Z) (r : t) : t :=
  mk (filenames r) (num_ts r) n (read_file r) (read_data r) (added r) (log r).
Definition set_read_file (f : string) (r : t) : t :=
  mk (filenames r) (num_ts r) (num_nodes r) f (read_data r) (added r) (log r).
Definition set_read_data (b : bool) (r : t) : t :=
  mk (filenames r) (num_ts r) (num_nodes r) (read_file r) b (added r) (log r).
Definition push_dataset (d : xmdf_dataset) (r : t) : t :=
  mk (filenames r) (num_ts r) (num_nodes r) (read_file r) (read_data r)
     (added r ++ [d]) (log r).
Definition push_log (e : log_entry) (r : t) : t :=
  mk (filenames r) (num_ts r) (num_nodes r) (read_file r) (read_data r)
     (added r) (log r ++ [e]).

Definition add_xmdf_dataset (d : xmdf_dataset) : M t unit :=
  modify (push_dataset d).

(** The writer writes the file, then the dataset is added. *)
Definition _write_xmdf_dataset (name : string) (times : list float)
  (data : ndarray) (num_components : Z) : M t unit :=
  add_xmdf_dataset (mk_dataset name num_components times data).

Definition xmlog (e : log_entry) : M t unit := modify (push_log e).

(** The outcome of one pass of a time step loop: the loop was left at the
    end of the file, the step was short and is not added, or it is read. *)
Inductive step (A : Type) : Type :=
| Eof
| Dropped
| Step (time : float) (vals : A).
Arguments Eof {A}.
Arguments Dropped {A}.
Arguments Step {A} time vals.

Section Readers.

(** Python's [float] on a token. *)
Variable float_of_string : string -> option float.
Let to_float := Float.to_float float_of_string.

(** [int(toks[i])] and [float(toks[i])] *)
Definition int_at (toks : list string) (i : Z) : result Z :=
  tok <- getitem toks i ;; int tok.
Definition float_at (toks : list string) (i : Z) : result float :=
  tok <- getitem toks i ;; to_float tok.

Definition read_header : M (t * handle) unit :=
  _ <~ on_fh readline ;;
  time_line <~ on_fh readline ;;
  let time_line := split time_line in
  nts <~ lift (int_at time_line 0) ;;
  on_self (modify (set_num_ts nts)) ;;;
  nn <~ lift (int_at time_line 1) ;;
  on_self (modify (set_num_nodes nn)).

(** A value line of a sparse scalar step: [node_id value]. *)
Definition sparse_record (node_line : list string) : result (Z * float) :=
  node_id <- int_at node_line 0 ;;
  v <- float_at node_line 1 ;;
  Ok (node_id, v).

(** The loop over the value lines of a scalar time step; [None] when a
    line is missing ([add_timestep = False]). *)
Fixpoint read_scalar_values (sparse : bool) (n : nat) (j : Z)
  (ts_vals : list float) : M handle (option (list float)) :=
  match n with
  | O => ret (Some ts_vals)
  | S n' =>
      node_line <~ readline ;;
      if blank node_line then ret None
      else
        let node_line := split node_line in
        if sparse then
          rec <~ lift (sparse_record node_line) ;;
          ts_vals' <~ lift (setitem ts_vals (fst rec - 1) (snd rec)) ;;
          read_scalar_values sparse n' (j + 1) ts_vals'
        else
          v <~ lift (float_at node_line 1) ;;
          ts_vals' <~ lift (setitem ts_vals j v) ;;
          read_scalar_values sparse n' (j + 1) ts_vals'
  end.

(** The time step line: the time, the number of value lines, the default
    and whether the step is sparse. *)
Definition scalar_step_header (nodes : Z) (ts_line : list string)
  : result (float * Z * float * bool) :=
  ts_time <- float_at ts_line 0 ;;
  if (3 <? Z.of_nat (List.length ts_line)) then
    num_vals <- int_at ts_line 2 ;;
    default_val <- float_at ts_line 3 ;;
    Ok (ts_time, num_vals, default_val, true)
  else Ok (ts_time, nodes, zero, false).

Definition read_scalar_timestep (nodes : Z) : M handle (step (list float)) :=
  ts_line <~ readline ;;
  if blank ts_line then ret Eof
  else
    hdr <~ lift (scalar_step_header nodes (split ts_line)) ;;
    let '(ts_time, num_vals, default_val, sparse) := hdr in
    let ts_vals := replicate nodes default_val in
    r <~ read_scalar_values sparse (range_len num_vals) 0 ts_vals ;;
    ret (match r with
         | Some vals => Step ts_time vals
         | None => Dropped
         end).

(** [for i in range(self.num_ts)], the loop of [read_ascii_scalars] and of
    [read_ascii_vectors]: it is left at the end of the file, passes over a
    short step, and appends a complete one to the writer. *)
Fixpoint timestep_loop {A : Type} (read_timestep : M handle (step A))
  (n : nat) (appended : list (float * A)) : M handle (list (float * A)) :=
  match n with
  | O => ret appended
  | S n' =>
      o <~ read_timestep ;;
      match o with
      | Eof => ret appended
      | Dropped => timestep_loop read_timestep n' appended
      | Step ts_time ts_vals =>
          timestep_loop read_timestep n' (appended ++ [(ts_time, ts_vals)])
      end
  end.

Definition read_ascii_scalars (name : string) : M (t * handle) unit :=
  try_except
    (read_header ;;;
     self <~ on_self get ;;
     steps <~ on_fh (timestep_loop (read_scalar_timestep (num_nodes self))
                       (range_len (num_ts self)) []) ;;
     if is_nil steps then ret tt
     else on_self (add_xmdf_dataset
                     (mk_dataset name 1 (map fst steps) (Arr2 (map snd steps)))))
    (fun _ =>
       self <~ on_self get ;;
       on_self (xmlog (ExceptionReading (read_file self)))).

(** The loop over the value lines of a vector time step. *)
Fixpoint read_vector_values (sparse : bool) (n : nat) (j : Z)
  (ts_vals : list (list float)) : M handle (option (list (list float))) :=
  match n with
  | O => ret (Some ts_vals)
  | S n' =>
      node_line <~ readline ;;
      if blank node_line then ret None
      else
        let node_line := split node_line in
        if sparse then
          node_id <~ lift (int_at node_line 0) ;;
          v1 <~ lift (float_at node_line 1) ;;
          v2 <~ lift (float_at node_line 2) ;;
          ts_vals' <~ lift (setitem ts_vals (node_id - 1) [v1; v2]) ;;
          read_vector_values sparse n' (j + 1) ts_vals'
        else
          v1 <~ lift (float_at node_line 1) ;;
          v2 <~ lift (float_at node_line 2) ;;
          ts_vals' <~ lift (setitem ts_vals j [v1; v2]) ;;
          read_vector_values sparse n' (j + 1) ts_vals'
  end.

Definition vector_step_header (nodes : Z) (ts_line : list string)
  : result (float * Z * float * float * bool) :=
  ts_time <- float_at ts_line 0 ;;
  if (2 <? Z.of_nat (List.length ts_line)) then
    num_vals <- int_at ts_line 2 ;;
    default_val1 <- float_at ts_line 3 ;;
    default_val2 <- float_at ts_line 4 ;;
    Ok (ts_time, num_vals, default_val1, default_val2, true)
  else Ok (ts_time, nodes, zero, zero, false).

Definition read_vector_timestep (nodes : Z)
  : M handle (step (list (list float))) :=
  ts_line <~ readline ;;
  if blank ts_line then ret Eof
  else
    hdr <~ lift (vector_step_header nodes (split ts_line)) ;;
    let '(ts_time, num_vals, default_val1, default_val2, sparse) := hdr in
    let ts_vals := replicate nodes [default_val1; default_val2] in
    r <~ read_vector_values sparse (range_len num_vals) 0 ts_vals ;;
    ret (match r with
         | Some vals => Step ts_time vals
         | None => Dropped
         end).

(** Here every failure is passed over in silence. *)
Definition read_ascii_vectors (name : string) : M (t * handle) unit :=
  try_except
    (read_header ;;;
     self <~ on_self get ;;
     steps <~ on_fh (timestep_loop (read_vector_timestep (num_nodes self))
                       (range_len (num_ts self)) []) ;;
     if is_nil steps then ret tt
     else on_self (add_xmdf_dataset
                     (mk_dataset name 2 (map fst steps) (Arr3 (map snd steps)))))
    (fun _ => ret tt).

(** One of the two "time steps" of a max*.63 file. *)
Definition read_max_timestep (nodes : Z) : M handle (step (list float)) :=
  ts_line <~ readline ;;
  if blank ts_line then ret Eof
  else
    ts_time <~ lift (float_at (split ts_line) 0) ;;
    let ts_vals := replicate nodes zero in
    r <~ read_scalar_values false (range_len nodes) 0 ts_vals ;;
    ret (match r with
         | Some vals => Step ts_time vals
         | None => Dropped
         end).

(** [for i in range(2)]: each complete step is written at once as a data
    set of its own, the second under the name with [" Time"] appended. *)
Fixpoint read_max_steps (n : nat) (i : Z) (name : string)
  : M (t * handle) unit :=
  match n with
  | O => ret tt
  | S n' =>
      self <~ on_self get ;;
      o <~ on_fh (read_max_timestep (num_nodes self)) ;;
      match o with
      | Eof => ret tt
      | Dropped => read_max_steps n' (i + 1) name
      | Step ts_time ts_vals =>
          let name := if 0 <? i then name ++ " Time" else name in
          on_self (_write_xmdf_dataset name [ts_time] (Arr2 [ts_vals]) 1) ;;;
          read_max_steps n' (i + 1) name
      end
  end.

Definition read_ascii_max_scalars (name : string) : M (t * handle) unit :=
  try_except (read_header ;;; read_max_steps 2 0 name) (fun _ => ret tt).

(** *** Harmonic analysis files (fort.53, fort.54) *)

Fixpoint read_con_names (n : nat) (i : Z) (con_names : list string)
  : M handle (list string) :=
  match n with
  | O => ret con_names
  | S n' =>
      line <~ readline ;;
      name <~ lift (getitem (split line) 3) ;;
      con_names' <~ lift (setitem con_names i name) ;;
      read_con_names n' (i + 1) con_names'
  end.

(** [x ** 2] raises on overflow; the square is the rounded product. *)
Definition square (x : float) : result float :=
  match fmul x x, x with
  | S754_infinity _, S754_finite _ _ _ => Raise OverflowError
  | r, _ => Ok r
  end.

(** [math.sqrt(a ** 2 + b ** 2)] *)
Definition magnitude (a b : float) : result float :=
  a2 <- square a ;;
  b2 <- square b ;;
  Ok (SFsqrt prec emax (SFadd prec emax a2 b2)).

(** The tables the harmonic reader fills: amplitude and phase, and for a
    vector file their magnitudes. *)
Record harmonic : Type := mk_harmonic {
  amp_values : list (list (list float));
  phase_values : list (list (list float));
  amp_mag : list (list float);
  phase_mag : list (list float)
}.

(** [for j in range(num_cons)] at node [i]; a scalar cell is held as a
    one-element list here and written out as the number. *)
Fixpoint read_harmonic_cons (scalar : bool) (n : nat) (i j : Z) (h : harmonic)
  : M handle harmonic :=
  match n with
  | O => ret h
  | S n' =>
      l <~ readline ;;
      let line := split l in
      if scalar then
        a <~ lift (float_at line 0) ;;
        amp <~ lift (setitem2 (amp_values h) j i [a]) ;;
        p <~ lift (float_at line 1) ;;
        ph <~ lift (setitem2 (phase_values h) j i [p]) ;;
        read_harmonic_cons scalar n' i (j + 1)
          (mk_harmonic amp ph (amp_mag h) (phase_mag h))
      else
        a0 <~ lift (float_at line 0) ;;
        a1 <~ lift (float_at line 2) ;;
        amp <~ lift (setitem2 (amp_values h) j i [a0; a1]) ;;
        p0 <~ lift (float_at line 1) ;;
        p1 <~ lift (float_at line 3) ;;
        ph <~ lift (setitem2 (phase_values h) j i [p0; p1]) ;;
        am <~ lift (magnitude a0 a1) ;;
        amag <~ lift (setitem2 (amp_mag h) j i am) ;;
        pm <~ lift (magnitude p0 p1) ;;
        pmag <~ lift (setitem2 (phase_mag h) j i pm) ;;
        read_harmonic_cons scalar n' i (j + 1) (mk_harmonic amp ph amag pmag)
  end.

(** [for i in range(num_pts)] *)
Fixpoint read_harmonic_pts (scalar : bool) (n : nat) (num_cons : Z) (i : Z)
  (h : harmonic) : M handle harmonic :=
  match n with
  | O => ret h
  | S n' =>
      _ <~ readline ;;
      h' <~ read_harmonic_cons scalar (range_len num_cons) i 0 h ;;
      read_harmonic_pts scalar n' num_cons (i + 1) h'
  end.

Definition harmonic_data (scalar : bool) (cells : list (list float))
  : ndarray :=
  if scalar then Arr2 [List.concat cells] else Arr3 [cells].

(** [for i in range(num_cons)]: the datasets of constituent [i]. *)
Fixpoint write_harmonic (scalar : bool) (n : nat) (i : Z)
  (con_names : list string) (h : harmonic) : M t unit :=
  match n with
  | O => ret tt
  | S n' =>
      let dset_type := if scalar then " Elevation " else " Velocity " in
      let num_components := if scalar then 1 else 2 in
      name <~ lift (getitem con_names i) ;;
      amp <~ lift (getitem (amp_values h) i) ;;
      _write_xmdf_dataset (name ++ dset_type ++ "Amplitude") [zero]
        (harmonic_data scalar amp) num_components ;;;
      ph <~ lift (getitem (phase_values h) i) ;;
      _write_xmdf_dataset (name ++ dset_type ++ "Phase") [zero]
        (harmonic_data scalar ph) num_components ;;;
      (if scalar then ret tt
       else
         am <~ lift (getitem (amp_mag h) i) ;;
         _write_xmdf_dataset (name ++ dset_type ++ "Amplitude Magnitude")
           [zero] (Arr2 [am]) 1 ;;;
         pm <~ lift (getitem (phase_mag h) i) ;;
         _write_xmdf_dataset (name ++ dset_type ++ "Phase Magnitude")
           [zero] (Arr2 [pm]) 1) ;;;
      write_harmonic scalar n' (i + 1) con_names h
  end.

Definition read_ascii_harmonic (scalar : bool) : M (t * handle) unit :=
  l <~ on_fh readline ;;
  num_cons <~ lift (int_at (split l) 0) ;;
  con_names <~ on_fh (read_con_names (range_len num_cons) 0
                        (replicate num_cons EmptyString)) ;;
  l <~ on_fh readline ;;
  num_pts <~ lift (int_at (split l) 0) ;;
  let cell := if scalar then [zero] else [zero; zero] in
  let table := replicate num_cons (replicate num_pts cell) in
  let mags := if scalar then [] else replicate num_cons (replicate num_pts zero) in
  h <~ on_fh (read_harmonic_pts scalar (range_len num_pts) num_cons 0
                (mk_harmonic table table mags mags)) ;;
  on_self (write_harmonic scalar (range_len num_cons) 0 con_names h).

(** *** NetCDF files *)

Definition read_netcdf_scalars (f : option file)
  (filename scalar_path dset_name : string) : M t unit :=
  root_grp <~ lift (open_dataset f) ;;
  scalar_data <~ lift (read_var root_grp scalar_path) ;;
  if arr_size scalar_data =? 0 then xmlog (WarnEmptyDataset filename)
  else
    let scalar_data := assign_where_eq ADCIRC_NULL_VALUE nan scalar_data in
    let scalar_data := assign_where_nan ADCIRC_NULL_VALUE scalar_data in
    times <~ lift (read_var root_grp "/time") ;;
    _write_xmdf_dataset dset_name (arr_elems times) scalar_data 1.

Definition read_netcdf_vectors (f : option file)
  (filename x_path y_path dset_name : string) : M t unit :=
  root_grp <~ lift (open_dataset f) ;;
  x_data <~ lift (read_var root_grp x_path) ;;
  y_data <~ lift (read_var root_grp y_path) ;;
  if arr_size x_data =? 0 then xmlog (WarnEmptyDataset filename)
  else
    let x_data := assign_where_eq ADCIRC_NULL_VALUE nan x_data in
    let y_data := assign_where_eq ADCIRC_NULL_VALUE nan y_data in
    vector_data <~ lift (stack_axis2 x_data y_data) ;;
    let vector_data := assign_where_nan ADCIRC_NULL_VALUE vector_data in
    times <~ lift (read_var root_grp "/time") ;;
    _write_xmdf_dataset dset_name (arr_elems times) vector_data 2.

(** [float(x) if x else ADCIRC_NULL_VALUE] *)
Definition extreme_value (x : float) : float :=
  if truthy x then x else ADCIRC_NULL_VALUE.

(** The same on an item that is itself an array: it stands for its one
    element; an empty one is false and a longer one has no truth value. *)
Definition extreme_item (elems : list float) : result float :=
  match elems with
  | [] => Ok ADCIRC_NULL_VALUE
  | [x] => Ok (extreme_value x)
  | _ => Raise (ValueError "The truth value of an array is ambiguous")
  end.

Fixpoint traverse {A B : Type} (f : A -> result B) (l : list A)
  : result (list B) :=
  match l with
  | [] => Ok []
  | a :: l' => b <- f a ;; bs <- traverse f l' ;; Ok (b :: bs)
  end.

(** [[float(x) if x else ADCIRC_NULL_VALUE for x in grp]] *)
Definition extreme_values (grp : ndarray) : result (list float) :=
  match grp with
  | Arr1 v => Ok (map extreme_value v)
  | Arr2 rows => traverse extreme_item rows
  | Arr3 cube => traverse (fun m => extreme_item (List.concat m)) cube
  end.

Definition read_netcdf_max_scalars (f : option file)
  (filename scalar_path time_path dset_name : string) : M t unit :=
  root_grp <~ lift (open_dataset f) ;;
  extreme_grp <~ lift (read_var root_grp scalar_path) ;;
  if arr_size extreme_grp =? 0 then xmlog (WarnEmptyDataset filename)
  else
    extreme_dset_data <~ lift (extreme_values extreme_grp) ;;
    _write_xmdf_dataset dset_name [zero] (Arr2 [extreme_dset_data]) 1 ;;;
    time_grp <~ lift (read_var root_grp time_path) ;;
    time_dset_data <~ lift (extreme_values time_grp) ;;
    _write_xmdf_dataset (dset_name ++ " Time") [zero] (Arr2 [time_dset_data]) 1.

(** *** Choosing the reader of a file *)

(** The bound methods [get_reader] can return. *)
Inductive reader : Type :=
| read_netcdf_elevation | read_netcdf_velocity
| read_netcdf_meteor73 | read_netcdf_meteor74
| read_netcdf_maxele63 | read_netcdf_maxvel63 | read_netcdf_maxwvel63
| read_netcdf_minpr63 | read_netcdf_maxrs63
| read_ascii_elevation | read_ascii_velocity
| read_ascii_meteor73 | read_ascii_meteor74
| read_maxele63 | read_maxvel63 | read_maxwvel63 | read_minpr63
| read_maxrs63
| read_ascii_harmonic53 | read_ascii_harmonic54
| read_unknown_ascii_max | read_unknown_ascii_scalar
| read_unknown_ascii_vector.

(** [os.path.basename] with [/] as the separator. *)
Fixpoint basename_from (cur s : string) : string :=
  match s with
  | EmptyString => cur
  | String c s' =>
      if Ascii.eqb c "/"%char then basename_from EmptyString s'
      else basename_from (cur ++ String c EmptyString) s'
  end.

Definition basename (path : string) : string := basename_from EmptyString path.

Definition has_var (name : string) (f : nc_file) : bool :=
  match lookup name f with Some _ => true | None => false end.

Definition _find_netcdf_reader (f : nc_file) : option reader :=
  if has_var "zeta" f then Some read_netcdf_elevation
  else if has_var "u-vel" f then Some read_netcdf_velocity
  else if has_var "pressure" f then Some read_netcdf_meteor73
  else if has_var "windx" f then Some read_netcdf_meteor74
  else if has_var "zeta_max" f then Some read_netcdf_maxele63
  else if has_var "vel_max" f then Some read_netcdf_maxvel63
  else if has_var "wind_max" f then Some read_netcdf_maxwvel63
  else if has_var "pressure_min" f then Some read_netcdf_minpr63
  else if has_var "radstress_max" f then Some read_netcdf_maxrs63
  else None.

(** The handle has the first two lines read already. *)
Definition _check_for_harmonic_ascii_solution (fh : handle)
  (first_line : string) : option reader :=
  match int_at (split first_line) 0 with
  | Ok nfreq =>
      if 1 <? nfreq then
        let fh := skipn (range_len (nfreq - 1)) fh in
        let fh := skipn 2 fh in
        let data_line := split (hd EmptyString fh) in
        if (List.length data_line =? 2)%nat then Some read_ascii_harmonic53
        else if (List.length data_line =? 4)%nat then Some read_ascii_harmonic54
        else None
      else None
  | Raise _ => None
  end.

Definition _find_ascii_reader (lines : handle) : option reader :=
  let first_line := hd EmptyString lines in
  let second_line := split (hd EmptyString (skipn 1 lines)) in
  match (num_times <- int_at second_line 0 ;;
         num_components <- int_at second_line 4 ;;
         Ok (num_times, num_components)) with
  | Ok (num_times, num_components) =>
      if num_components =? 1 then
        if num_times =? 2 then Some read_unknown_ascii_max
        else Some read_unknown_ascii_scalar
      else if num_components =? 2 then Some read_unknown_ascii_vector
      else None
  | Raise _ => _check_for_harmonic_ascii_solution (skipn 2 lines) first_line
  end.

Definition _determine_reader_from_file_properties (f : file)
  : option reader :=
  match netcdf f with
  | Some d => _find_netcdf_reader d
  | None => _find_ascii_reader (text f)
  end.

(** [get_reader], on the path in [read_file] and the file it names. *)
Definition get_reader (read_file : string) (f : file) : option reader :=
  let filename := lower (basename read_file) in
  if contains "fort.63.nc" filename then Some read_netcdf_elevation
  else if contains "fort.64.nc" filename then Some read_netcdf_velocity
  else if contains "fort.73.nc" filename then Some read_netcdf_meteor73
  else if contains "fort.74.nc" filename then Some read_netcdf_meteor74
  else if contains "maxele.63.nc" filename then Some read_netcdf_maxele63
  else if contains "maxvel.63.nc" filename then Some read_netcdf_maxvel63
  else if contains "maxwvel.63.nc" filename then Some read_netcdf_maxwvel63
  else if contains "minpr.63.nc" filename then Some read_netcdf_minpr63
  else if contains "maxrs.63.nc" filename then Some read_netcdf_maxrs63
  else if contains "fort.63" filename then Some read_ascii_elevation
  else if contains "fort.64" filename then Some read_ascii_velocity
  else if contains "fort.73" filename then Some read_ascii_meteor73
  else if contains "fort.74" filename then Some read_ascii_meteor74
  else if contains "maxele.63" filename then Some read_maxele63
  else if contains "maxvel.63" filename then Some read_maxvel63
  else if contains "maxwvel.63" filename then Some read_maxwvel63
  else if contains "minpr.63" filename then Some read_minpr63
  else if contains "maxrs.63" filename then Some read_maxrs63
  else if contains "fort.53" filename then Some read_ascii_harmonic53
  else if contains "fort.54" filename then Some read_ascii_harmonic54
  else _determine_reader_from_file_properties f.

(** [with open(self.read_file, 'r') as f: body] *)
Definition with_read_file (f : file) (body : M (t * handle) unit) : M t unit :=
  with_open (text f) body.

(** Calling the method [get_reader] returned, on the file [read_file]
    names. *)
Definition call_reader (r : reader) (f : file) : M t unit :=
  self <~ get ;;
  let path := read_file self in
  match r with
  | read_ascii_elevation =>
      with_read_file f (read_ascii_scalars "Water Surface (eta)")
  | read_netcdf_elevation =>
      read_netcdf_scalars (Some f) path "/zeta" "Water Surface (eta)"
  | read_ascii_velocity =>
      with_read_file f (read_ascii_vectors "Current Velocity (curr)")
  | read_netcdf_velocity =>
      read_netcdf_vectors (Some f) path "/u-vel" "/v-vel"
        "Current Velocity (curr)"
  | read_ascii_meteor73 =>
      with_read_file f (read_ascii_scalars "Atmospheric Pressure")
  | read_ascii_meteor74 =>
      with_read_file f (read_ascii_vectors "Wind Stress")
  | read_netcdf_meteor73 =>
      read_netcdf_scalars (Some f) path "pressure" "Atmospheric Pressure"
  | read_netcdf_meteor74 =>
      read_netcdf_vectors (Some f) path "windx" "windy" "Wind Stress"
  | read_netcdf_maxele63 =>
      read_netcdf_max_scalars (Some f) path "zeta_max" "time_of_zeta_max"
        "Max eta"
  | read_netcdf_maxvel63 =>
      read_netcdf_max_scalars (Some f) path "vel_max" "time_of_vel_max"
        "Max curr"
  | read_netcdf_maxwvel63 =>
      read_netcdf_max_scalars (Some f) path "wind_max" "time_of_wind_max"
        "Max Windvel"
  | read_netcdf_minpr63 =>
      read_netcdf_max_scalars (Some f) path "pressure_min"
        "time_of_pressure_min" "Min press"
  | read_netcdf_maxrs63 =>
      read_netcdf_max_scalars (Some f) path "radstress_max"
        "time_of_radstress_max" "Max Radstress"
  | read_maxele63 => with_read_file f (read_ascii_max_scalars "Max eta")
  | read_maxvel63 => with_read_file f (read_ascii_max_scalars "Max curr")
  | read_minpr63 => with_read_file f (read_ascii_max_scalars "Min press")
  | read_maxwvel63 => with_read_file f (read_ascii_max_scalars "Max Windvel")
  | read_maxrs63 => with_read_file f (read_ascii_max_scalars "Max Radstress")
  | read_ascii_harmonic53 => with_read_file f (read_ascii_harmonic true)
  | read_ascii_harmonic54 => with_read_file f (read_ascii_harmonic false)
  | read_unknown_ascii_max =>
      with_read_file f (read_ascii_max_scalars (basename path))
  | read_unknown_ascii_scalar =>
      with_read_file f (read_ascii_scalars (basename path))
  | read_unknown_ascii_vector =>
      with_read_file f (read_ascii_vectors (basename path))
  end.

(** *** The batch *)

Definition NETCDF_STATIONS : list string :=
  ["fort.61.nc"; "fort.62.nc"; "fort.71.nc"; "fort.72.nc"].
Definition ASCII_STATIONS : list string :=
  ["fort.61"; "fort.62"; "fort.71"; "fort.72"].

Definition in_list (s : string) (l : list string) : bool :=
  existsb (String.eqb s) l.

Definition is_station (filename : string) : bool :=
  let basename := lower (basename filename) in
  in_list basename NETCDF_STATIONS || in_list basename ASCII_STATIONS.

(** The files on disk: [None] where [os.path.isfile] is false. *)
Definition filesystem : Type := string -> option file.

(** [for filename in self.filenames] *)
Fixpoint add_mesh_datasets_from (fs : filesystem) (files : list string)
  : M t unit :=
  match files with
  | [] => ret tt
  | filename :: rest =>
      match fs filename with
      | None => add_mesh_datasets_from fs rest
      | Some f =>
          if is_station filename then add_mesh_datasets_from fs rest
          else
            modify (set_read_file filename) ;;;
            match get_reader filename f with
            | Some r =>
                call_reader r f ;;;
                modify (set_read_data true) ;;;
                add_mesh_datasets_from fs rest
            | None =>
                xmlog (ErrorUnknownFormat filename) ;;;
                add_mesh_datasets_from fs rest
            end
      end
  end.

Definition add_mesh_datasets (fs : filesystem) : M t unit :=
  self <~ get ;;
  add_mesh_datasets_from fs (filenames self).

Definition read (fs : filesystem) : M t unit :=
  add_mesh_datasets fs ;;;
  self <~ get ;;
  if negb (read_data self) then xmlog ErrorNoSolutionFiles else ret tt.

End Readers.

End ADCIRCSolutionReader.

(** ** [xms/adcirc/fort13_reader.py] *)
Module Fort13Reader.

Definition get_dset_display_names (a_att : string) : list string :=
  let attribute_map : list (string * list string) :=
    [ ("surface_submergence_state", ["StartDry"]);
      ("surface_directional_effective_roughness_length",
       ["Z0Land000"; "Z0Land030"; "Z0Land060"; "Z0Land090"; "Z0Land120";
        "Z0Land150"; "Z0Land180"; "Z0Land210"; "Z0Land240"; "Z0Land270";
        "Z0Land300"; "Z0Land330"]);
      ("surface_canopy_coefficient", ["VCanopy"]);
      ("bottom_roughness_length", ["Z0b_var"]);
      ("wave_refraction_in_swan", ["SwanWaveRefrac"]);
      ("average_horizontal_eddy_viscosity_in_sea_water_wrt_depth", ["EVC"]);
      ("primitive_weighting_in_continuity_equation", ["TAU0"]);
      ("quadratic_friction_coefficient_at_sea_floor", ["Quadratic friction"]);
      ("bridge_pilings_friction_paramenters",
       ["BK"; "BAlpha"; "BDelX"; "POAN"]);
      ("mannings_n_at_sea_floor", ["ManningsN"]);
      ("chezy_friction_coefficient_at_sea_floor", ["ChezyFric"]);
      ("elemental_slope_limiter", ["ElSloLim"]);
      ("advection_state", ["AdvState"]);
      ("initial_river_elevation", ["IniRivEle"]) ] in
  match dict_get String.eqb a_att attribute_map with
  | Some names => names
  | None => []
  end.

(** A [DatasetWriter] after [append_timestep(0.0, values)]; its random
    UUID is left out. *)
Record dataset_writer : Type := mk_writer {
  name : string;
  geom_uuid : string;
  location : string;
  values : list float
}.

Inductive att_value : Type :=
| IntAtt (z : Z)
| FloatAtt (x : float).

Record t : Type := mk {
  _in_file : string;
  _geom_uuid : string;
  _geom_num_nodes : Z;
  _num_nodes : Z;
  _num_atts : Z;
  _att_defaults : list (string * list float);
  _att_dsets : list (string * list dataset_writer);
  datasets : list (string * dataset_writer);
  built_data : list dataset_writer;
  nodal_atts : list (string * att_value)
}.

Definition init (in_file uuid : string) (geom_num_nodes : Z) : t :=
  mk in_file uuid geom_num_nodes 0 0 [] [] [] [] [].

Definition set_num_nodes (n : Z) (r : t) : t :=
  mk (_in_file r) (_geom_uuid r) (_geom_num_nodes r) n (_num_atts r)
     (_att_defaults r) (_att_dsets r) (datasets r) (built_data r) (nodal_atts r).
Definition set_num_atts (n : Z) (r : t) : t :=
  mk (_in_file r) (_geom_uuid r) (_geom_num_nodes r) (_num_nodes r) n
     (_att_defaults r) (_att_dsets r) (datasets r) (built_data r) (nodal_atts r).
Definition set_att_defaults (d : list (string * list float)) (r : t) : t :=
  mk (_in_file r) (_geom_uuid r) (_geom_num_nodes r) (_num_nodes r)
     (_num_atts r) d (_att_dsets r) (datasets r) (built_data r) (nodal_atts r).
Definition set_att_dsets (d : list (string * list dataset_writer)) (r : t) : t :=
  mk (_in_file r) (_geom_uuid r) (_geom_num_nodes r) (_num_nodes r)
     (_num_atts r) (_att_defaults r) d (datasets r) (built_data r) (nodal_atts r).
Definition set_datasets (d : list (string * dataset_writer)) (r : t) : t :=
  mk (_in_file r) (_geom_uuid r) (_geom_num_nodes r) (_num_nodes r)
     (_num_atts r) (_att_defaults r) (_att_dsets r) d (built_data r) (nodal_atts r).
Definition set_built_data (d : list dataset_writer) (r : t) : t :=
  mk (_in_file r) (_geom_uuid r) (_geom_num_nodes r) (_num_nodes r)
     (_num_atts r) (_att_defaults r) (_att_dsets r) (datasets r) d (nodal_atts r).
Definition set_nodal_atts (d : list (string * att_value)) (r : t) : t :=
  mk (_in_file r) (_geom_uuid r) (_geom_num_nodes r) (_num_nodes r)
     (_num_atts r) (_att_defaults r) (_att_dsets r) (datasets r) (built_data r) d.

(** The three structural errors of [read], told apart by their message. *)
Definition InvalidFile : exn := ValueError "Invalid fort.13 file.".
Definition NodeCountMismatch : exn := ValueError "Invalid number of nodes.".
Definition NoAttributes (in_file : string) : exn :=
  let quote := String (ascii_of_nat 34) EmptyString in
  ValueError (quote ++ in_file ++ quote ++ " contains no nodal attributes.").
Definition FileNotFound (in_file : string) : exn :=
  ValueError ("Error reading fort.13: File not found - " ++ in_file).

Section Reader.

(** Python's [float] on a token, and numpy's mean of an array. *)
Variable float_of_string : string -> option float.
Variable np_mean : list float -> float.
Let to_float := Float.to_float float_of_string.

(** [int(line.split()[0])] *)
Definition first_int (line : string) : result Z :=
  tok <- getitem (split line) 0 ;; int tok.

(** [int(fs.readline().split()[0])] *)
Definition read_int : M handle Z :=
  l <~ readline ;;
  lift (first_int l).

(** [float(toks[i])] *)
Definition float_at (toks : list string) (i : Z) : result float :=
  tok <- getitem toks i ;; to_float tok.

(** [[float(val) for val in toks]] *)
Fixpoint floats (toks : list string) : result (list float) :=
  match toks with
  | [] => Ok []
  | tok :: toks' => x <- to_float tok ;; xs <- floats toks' ;; Ok (x :: xs)
  end.

(** The loop of [_read_att_info]. *)
Fixpoint read_att_info_loop (n : nat) : M (t * handle) unit :=
  match n with
  | O => ret tt
  | S n' =>
      l <~ on_fh readline ;;
      att_name <~ lift (getitem (split l) 0) ;;
      _ <~ on_fh readline ;;
      _ <~ on_fh readline ;;
      l <~ on_fh readline ;;
      default_vals <~ lift (floats (split (replace_comma l))) ;;
      self <~ on_self get ;;
      on_self (modify (set_att_defaults
                 (dict_set String.eqb att_name default_vals (_att_defaults self)))) ;;;
      read_att_info_loop n'
  end.

Definition _read_att_info : M (t * handle) unit :=
  self <~ on_self get ;;
  read_att_info_loop (range_len (_num_atts self)).

(** [while not att_name_line: att_name_line = fs.readline().split()]: at
    the end of the file [readline] keeps returning the empty string and the
    loop does not end. *)
Fixpoint read_name_line (fh : handle) : result (list string) * handle :=
  match fh with
  | [] => (Raise Diverge, [])
  | l :: fh' =>
      match split l with
      | [] => read_name_line fh'
      | toks => (Ok toks, fh')
      end
  end.

(** [for k in range(len(defaults))]: [dset_vals[k][node_idx] =
    float(line_data[k + 1])] *)
Fixpoint set_exception (n : nat) (k : Z) (node_idx : Z)
  (line_data : list string) (dset_vals : list (list float))
  : result (list (list float)) :=
  match n with
  | O => Ok dset_vals
  | S n' =>
      v <- float_at line_data (k + 1) ;;
      dset_vals' <- setitem2 dset_vals k node_idx v ;;
      set_exception n' (k + 1) node_idx line_data dset_vals'
  end.

(** [for _ in range(num_exceptions)] *)
Fixpoint read_exceptions (n : nat) (num_dsets : nat)
  (dset_vals : list (list float)) : M handle (list (list float)) :=
  match n with
  | O => ret dset_vals
  | S n' =>
      l <~ readline ;;
      let line_data := split (replace_comma l) in
      id <~ lift (first_int (replace_comma l)) ;;
      let node_idx := id - 1 in
      dset_vals' <~ lift (set_exception num_dsets 0 node_idx line_data dset_vals) ;;
      read_exceptions n' num_dsets dset_vals'
  end.

(** The values of one attribute: every dataset starts from its default and
    the listed nodes are overwritten. *)
Definition read_dset_vals (nodes : Z) (defaults : list float)
  : M handle (list (list float)) :=
  num_exceptions <~ read_int ;;
  let dset_vals := map (fun d => replicate nodes d) defaults in
  read_exceptions (range_len num_exceptions) (List.length defaults) dset_vals.

(** [f'{i}'] for an integer. *)
Definition str_of_Z (z : Z) : string := NilEmpty.string_of_int (Z.to_int z).

(** The names given to the datasets of an attribute that is not in the
    table. *)
Fixpoint unknown_names (att_name : string) (num_att_dsets : nat) (n : nat)
  (i : Z) : list string :=
  match n with
  | O => []
  | S n' =>
      (if negb (num_att_dsets =? 1)%nat
       then att_name ++ " (" ++ str_of_Z (i + 1) ++ ")"
       else att_name)
      :: unknown_names att_name num_att_dsets n' (i + 1)
  end.

(** [for j in range(num_att_dsets)]: one dataset per component. *)
Fixpoint make_datasets (n : nat) (j : Z) (att_name : string)
  (display_names : list string) (dset_vals : list (list float)) : M t unit :=
  match n with
  | O => ret tt
  | S n' =>
      dataset_name <~ lift (getitem display_names j) ;;
      vals <~ lift (getitem dset_vals j) ;;
      self <~ get ;;
      let dataset_writer := mk_writer dataset_name (_geom_uuid self) "points" vals in
      modify (set_datasets
                (dict_set String.eqb dataset_name dataset_writer (datasets self))) ;;;
      self <~ get ;;
      let dsets := match dict_get String.eqb att_name (_att_dsets self) with
                   | Some l => l
                   | None => []
                   end in
      modify (set_att_dsets
                (dict_set String.eqb att_name (dsets ++ [dataset_writer])%list
                   (_att_dsets self))) ;;;
      make_datasets n' (j + 1) att_name display_names dset_vals
  end.

(** One pass of the loop of [_read_att_values]. *)
Definition read_att_block : M (t * handle) unit :=
  att_name_line <~ on_fh read_name_line ;;
  att_name <~ lift (getitem att_name_line 0) ;;
  self <~ on_self get ;;
  defaults <~ lift (dict_item String.eqb att_name (_att_defaults self)) ;;
  let num_att_dsets := List.length defaults in
  dset_vals <~ on_fh (read_dset_vals (_num_nodes self) defaults) ;;
  if String.eqb att_name "sea_surface_height_above_geoid" then
    row <~ lift (getitem dset_vals 0) ;;
    let mean := np_mean row in
    on_self (modify (fun r =>
      set_nodal_atts
        (dict_set String.eqb "sea_surface_height_above_geoid" (FloatAtt mean)
           (dict_set String.eqb "sea_surface_height_above_geoid_on" (IntAtt 1)
              (nodal_atts r))) r))
  else
    let display_names := get_dset_display_names att_name in
    let display_names :=
      if is_nil display_names
      then unknown_names att_name num_att_dsets num_att_dsets 0
      else display_names in
    on_self (make_datasets num_att_dsets 0 att_name display_names dset_vals).

Definition _read_att_values : M (t * handle) unit :=
  self <~ on_self get ;;
  for_range (range_len (_num_atts self)) read_att_block.

Definition _add_dsets_and_update_sim : M t unit :=
  modify (fun r =>
    set_built_data
      (built_data r ++ List.concat (dict_values (_att_dsets r)))%list r).

(** [read]; the argument is the file as the file system has it: [None]
    when the path is no file, else its lines (none when it has size 0). *)
Definition read (file : option (list string)) : M t unit :=
  self <~ get ;;
  match file with
  | None | Some [] => raise (FileNotFound (_in_file self))
  | Some lines =>
      with_open lines
        (_ <~ on_fh readline ;;
         num_nodes <~ on_fh read_int ;;
         on_self (modify (set_num_nodes num_nodes)) ;;;
         num_atts <~ on_fh read_int ;;
         on_self (modify (set_num_atts num_atts)) ;;;
         if num_nodes <=? 0 then raise InvalidFile
         else if negb (num_nodes =? _geom_num_nodes self)
         then raise NodeCountMismatch
         else if num_atts =? 0 then raise (NoAttributes (_in_file self))
         else
           _read_att_info ;;;
           _read_att_values ;;;
           on_self _add_dsets_and_update_sim)
  end.

End Reader.

End Fort13Reader.

(** ** [xms/adcirc/fort14_reader.py] *)
Module Fort14Reader.

(** The two projections the reader assigns stand for their WKT strings;
    [EMPTY_WKT] is the empty string the field starts with. *)
Inductive wkt_string : Type :=
| EMPTY_WKT
| GEOGRAPHIC_WKT
| LOCAL_METERS_WKT.

Definition point : Type := (float * float * float)%type.

(** What [XmUGrid(points, cell_stream)] is built from. *)
Record ugrid : Type := mk_ugrid {
  locations : list point;
  cellstream : list Z
}.

(** [{id_in_file: ((x, y, z), point_index)}] *)
Definition point_map : Type := list (Z * (point * Z)).

Record t : Type := mk {
  lines : list string;
  mesh_name : string;
  pt_map : point_map;
  assume_geo_coords : bool;
  num_nodes : Z;
  num_cells : Z;
  current_line : Z;
  wkt : wkt_string;
  co_grid : option ugrid
}.

Definition init : t := mk [] EmptyString [] false 0 0 0 EMPTY_WKT None.

Definition set_lines (l : list string) (r : t) : t :=
  mk l (mesh_name r) (pt_map r) (assume_geo_coords r) (num_nodes r)
     (num_cells r) (current_line r) (wkt r) (co_grid r).
Definition set_mesh_name (s : string) (r : t) : t :=
  mk (lines r) s (pt_map r) (assume_geo_coords r) (num_nodes r)
     (num_cells r) (current_line r) (wkt r) (co_grid r).
Definition set_pt_map (m : point_map) (r : t) : t :=
  mk (lines r) (mesh_name r) m (assume_geo_coords r) (num_nodes r)
     (num_cells r) (current_line r) (wkt r) (co_grid r).
Definition set_assume_geo_coords (b : bool) (r : t) : t :=
  mk (lines r) (mesh_name r) (pt_map r) b (num_nodes r)
     (num_cells r) (current_line r) (wkt r) (co_grid r).
Definition set_num_nodes (n : Z) (r : t) : t :=
  mk (lines r) (mesh_name r) (pt_map r) (assume_geo_coords r) n
     (num_cells r) (current_line r) (wkt r) (co_grid r).
Definition set_num_cells (n : Z) (r : t) : t :=
  mk (lines r) (mesh_name r) (pt_map r) (assume_geo_coords r) (num_nodes r)
     n (current_line r) (wkt r) (co_grid r).
Definition set_current_line (n : Z) (r : t) : t :=
  mk (lines r) (mesh_name r) (pt_map r) (assume_geo_coords r) (num_nodes r)
     (num_cells r) n (wkt r) (co_grid r).
Definition set_wkt (w : wkt_string) (r : t) : t :=
  mk (lines r) (mesh_name r) (pt_map r) (assume_geo_coords r) (num_nodes r)
     (num_cells r) (current_line r) w (co_grid r).
Definition set_co_grid (g : option ugrid) (r : t) : t :=
  mk (lines r) (mesh_name r) (pt_map r) (assume_geo_coords r) (num_nodes r)
     (num_cells r) (current_line r) (wkt r) g.

Definition FileNotFound : exn :=
  ValueError "Error reading fort.14: File not found".

(** The float constants of the source. *)
Definition minus_one : float := Eval cbv in SFopp (of_Z 1).
Definition f180 : float := Eval cbv in of_Z 180.
Definition f90 : float := Eval cbv in of_Z 90.

(** [min_lon >= -180.0 and min_lat >= -90.0 and max_lon <= 180.0 and
    max_lat <= 90.0] *)
Definition within_geographic (ex_min ex_max : point) : bool :=
  let '(min_lon, min_lat, _) := ex_min in
  let '(max_lon, max_lat, _) := ex_max in
  fgeb min_lon (SFopp f180) && fgeb min_lat (SFopp f90)
  && fleb max_lon f180 && fleb max_lat f90.

Section Reader.

(** Python's [float] on a token; of the grid library, the cell type code
    of a triangle and the extents of a grid's points. *)
Variable float_of_string : string -> option float.
Variable TRIANGLE : Z.
Variable extents : list point -> point * point.
Let to_float := Float.to_float float_of_string.

Definition int_at (toks : list string) (i : Z) : result Z :=
  tok <- getitem toks i ;; int tok.
Definition float_at (toks : list string) (i : Z) : result float :=
  tok <- getitem toks i ;; to_float tok.

(** [self.lines[self.current_line].split()], then [self.current_line += 1] *)
Definition next_line_data : M t (list string) :=
  self <~ get ;;
  l <~ lift (getitem (lines self) (current_line self)) ;;
  modify (set_current_line (current_line self + 1)) ;;;
  ret (split l).

(** A node line, [point_id x y depth]: the point, with the depth
    inverted, and then the id it is stored under. *)
Definition node_record (line_data : list string) : result (Z * point) :=
  x <- float_at line_data 1 ;;
  y <- float_at line_data 2 ;;
  depth <- float_at line_data 3 ;;
  id <- int_at line_data 0 ;;
  Ok (id, (x, y, fmul depth minus_one)).

(** The loop over the node lines. *)
Fixpoint read_nodes (n : nat) : M t unit :=
  match n with
  | O => ret tt
  | S n' =>
      line_data <~ next_line_data ;;
      self <~ get ;;
      let point_index := Z.of_nat (List.length (pt_map self)) in
      rec <~ lift (node_record line_data) ;;
      modify (set_pt_map
                (dict_set Z.eqb (fst rec) (snd rec, point_index)
                   (pt_map self))) ;;;
      read_nodes n'
  end.

(** [self.pt_map[int(line_data[i])][1]] *)
Definition point_index_at (m : point_map) (line_data : list string) (i : Z)
  : result Z :=
  id <- int_at line_data i ;;
  match dict_get Z.eqb id m with
  | Some (_, idx) => Ok idx
  | None => Raise KeyError
  end.

(** The stream values of a cell line, [poly_id 3 p1 p2 p3]. *)
Definition cell_record (m : point_map) (line_data : list string)
  : result (list Z) :=
  p1 <- point_index_at m line_data 2 ;;
  p2 <- point_index_at m line_data 3 ;;
  p3 <- point_index_at m line_data 4 ;;
  Ok [TRIANGLE; 3; p1; p2; p3].

Definition _get_cell_stream_vals : M t (list Z) :=
  line_data <~ next_line_data ;;
  self <~ get ;;
  lift (cell_record (pt_map self) line_data).

(** [[... for _ in range(self.num_cells)]]: the cells, one list each. *)
Fixpoint read_cells (n : nat) : M t (list (list Z)) :=
  match n with
  | O => ret []
  | S n' =>
      c <~ _get_cell_stream_vals ;;
      cs <~ read_cells n' ;;
      ret (c :: cs)
  end.

Definition _read_mesh : M t unit :=
  line_data <~ next_line_data ;;
  cells <~ lift (int_at line_data 0) ;;
  modify (set_num_cells cells) ;;;
  nodes <~ lift (int_at line_data 1) ;;
  modify (set_num_nodes nodes) ;;;
  read_nodes (range_len nodes) ;;;
  cell_list <~ read_cells (range_len cells) ;;
  let cell_stream := List.concat cell_list in
  self <~ get ;;
  let points := map fst (dict_values (pt_map self)) in
  let u_grid := mk_ugrid points cell_stream in
  modify (set_co_grid (Some u_grid)) ;;;
  let '(ex_min, ex_max) := extents points in
  if within_geographic ex_min ex_max
  then modify (set_assume_geo_coords true)
  else ret tt.

Definition _parse_lines (file_lines : list string) : M t unit :=
  modify (set_lines file_lines) ;;;
  self <~ get ;;
  l <~ lift (getitem (lines self) (current_line self)) ;;
  modify (set_mesh_name (strip l)) ;;;
  modify (set_current_line (current_line self + 1)) ;;;
  _read_mesh.

Definition _assign_wkt : M t unit :=
  self <~ get ;;
  if assume_geo_coords self then modify (set_wkt GEOGRAPHIC_WKT)
  else modify (set_wkt LOCAL_METERS_WKT).

(** [read]; the argument is [None] when the path is no file, else the
    lines of the file (none when it has size 0). *)
Definition read (file : option (list string))
  : M t (option ugrid * wkt_string) :=
  match file with
  | None | Some [] => raise FileNotFound
  | Some file_lines =>
      _parse_lines file_lines ;;;
      _assign_wkt ;;;
      self <~ get ;;
      ret (co_grid self, wkt self)
  end.

End Reader.

(** A stand-in for the extents of the grid library in the sample meshes:
    the componentwise least and greatest coordinate. *)
Definition fmin (a b : float) : float := if SFltb b a then b else a.
Definition fmax (a b : float) : float := if SFltb a b then b else a.

Definition minmax_extents (pts : list point) : point * point :=
  match pts with
  | [] => ((zero, zero, zero), (zero, zero, zero))
  | p :: ps =>
      fold_left
        (fun '((nx, ny, nz), (mx, my, mz)) '(x, y, z) =>
           ((fmin nx x, fmin ny y, fmin nz z),
            (fmax mx x, fmax my y, fmax mz z)))
        ps (p, p)
  end.

End Fort14Reader.

(** ** [initial_adcirc_readers/fort14_reader.py]: the boundary coverages *)
Module InitialFort14Reader.

Definition point : Type := Fort14Reader.point.
Definition point_map : Type := Fort14Reader.point_map.

(** The attributes of a boundary arc in the source data. *)
Record bc_atts : Type := mk_atts {
  arc_type : Z;
  bc_option : Z;
  tang_slip : Z;
  galerkin : Z
}.

(** A row of the levee table; the source keeps one list per column and
    extends all of them together. *)
Record levee_row : Type := mk_row {
  node1 : Z;
  node2 : Z;
  height : float;
  sub_coef : float;
  super_coef : float;
  pipe_on : Z;
  pipe_z : float;
  pipe_diameter : float;
  pipe_coef : float
}.

(** The lists [_read_coverages] builds up. *)
Record coverage : Type := mk_cov {
  comp_id_data : list Z;
  partner_id_data : list Z;
  nodes_start_idx_data : list Z;
  node_count_data : list Z;
  levee_data : list levee_row;
  nodes : list Z;
  levee_coords : list Z;
  snap_locations : list (list (list float))
}.

Definition empty_coverage : coverage :=
  mk_cov [] [] [] [] [] [] [] (List.repeat [] 11).

(** The fields of the reader the coverage pass touches.  [arcs] is the
    table of the source data, keyed by component id; [next_comp_id] is the
    id [add_bc_atts] hands out next. *)
Record t : Type := mk {
  lines : list string;
  current_line : Z;
  pt_map : point_map;
  ocean_boundaries : list Z;
  river_boundaries : list Z;
  arcs : list (Z * bc_atts);
  next_comp_id : Z;
  mapped_data : option coverage
}.

Definition set_current_line (n : Z) (r : t) : t :=
  mk (lines r) n (pt_map r) (ocean_boundaries r) (river_boundaries r)
     (arcs r) (next_comp_id r) (mapped_data r).
Definition set_ocean_boundaries (l : list Z) (r : t) : t :=
  mk (lines r) (current_line r) (pt_map r) l (river_boundaries r)
     (arcs r) (next_comp_id r) (mapped_data r).
Definition set_river_boundaries (l : list Z) (r : t) : t :=
  mk (lines r) (current_line r) (pt_map r) (ocean_boundaries r) l
     (arcs r) (next_comp_id r) (mapped_data r).
Definition set_arcs (a : list (Z * bc_atts)) (r : t) : t :=
  mk (lines r) (current_line r) (pt_map r) (ocean_boundaries r)
     (river_boundaries r) a (next_comp_id r) (mapped_data r).
Definition set_next_comp_id (n : Z) (r : t) : t :=
  mk (lines r) (current_line r) (pt_map r) (ocean_boundaries r)
     (river_boundaries r) (arcs r) n (mapped_data r).
Definition set_mapped_data (c : option coverage) (r : t) : t :=
  mk (lines r) (current_line r) (pt_map r) (ocean_boundaries r)
     (river_boundaries r) (arcs r) (next_comp_id r) c.

Definition set_comp_id_data (l : list Z) (c : coverage) : coverage :=
  mk_cov l (partner_id_data c) (nodes_start_idx_data c) (node_count_data c)
    (levee_data c) (nodes c) (levee_coords c) (snap_locations c).
Definition set_partner_id_data (l : list Z) (c : coverage) : coverage :=
  mk_cov (comp_id_data c) l (nodes_start_idx_data c) (node_count_data c)
    (levee_data c) (nodes c) (levee_coords c) (snap_locations c).
Definition set_nodes_start_idx_data (l : list Z) (c : coverage) : coverage :=
  mk_cov (comp_id_data c) (partner_id_data c) l (node_count_data c)
    (levee_data c) (nodes c) (levee_coords c) (snap_locations c).
Definition set_node_count_data (l : list Z) (c : coverage) : coverage :=
  mk_cov (comp_id_data c) (partner_id_data c) (nodes_start_idx_data c) l
    (levee_data c) (nodes c) (levee_coords c) (snap_locations c).
Definition set_levee_data (l : list levee_row) (c : coverage) : coverage :=
  mk_cov (comp_id_data c) (partner_id_data c) (nodes_start_idx_data c)
    (node_count_data c) l (nodes c) (levee_coords c) (snap_locations c).
Definition set_nodes (l : list Z) (c : coverage) : coverage :=
  mk_cov (comp_id_data c) (partner_id_data c) (nodes_start_idx_data c)
    (node_count_data c) (levee_data c) l (levee_coords c) (snap_locations c).
Definition set_levee_coords (l : list Z) (c : coverage) : coverage :=
  mk_cov (comp_id_data c) (partner_id_data c) (nodes_start_idx_data c)
    (node_count_data c) (levee_data c) (nodes c) l (snap_locations c).
Definition set_snap_locations (l : list (list (list float))) (c : coverage)
  : coverage :=
  mk_cov (comp_id_data c) (partner_id_data c) (nodes_start_idx_data c)
    (node_count_data c) (levee_data c) (nodes c) (levee_coords c) l.

(** [x, y, z] of a point, as [extend] appends them. *)
Definition coords (p : point) : list float :=
  let '(x, y, z) := p in [x; y; z].

Definition f100 : float := Eval cbv in of_Z 100.

Section Coverages.

(** Python's [float] on a token; the constants of [bc_data] and
    [adcirc_data]; the attributes a new arc starts with. *)
Variable float_of_string : string -> option float.
Variables OCEAN_INDEX MAINLAND_INDEX ISLAND_INDEX RIVER_INDEX : Z.
Variables LEVEE_OUTFLOW_INDEX LEVEE_INDEX RADIATION_INDEX : Z.
Variables ZERO_NORMAL_INDEX FLOW_AND_RADIATION_INDEX UNASSIGNED_INDEX : Z.
Variables NATURAL_INDEX ESSENTIAL_INDEX : Z.
Variable UNINITIALIZED_COMP_ID : Z.
Variable default_atts : bc_atts.
Let to_float := Float.to_float float_of_string.

Definition int_at (toks : list string) (i : Z) : result Z :=
  tok <- getitem toks i ;; int tok.
Definition float_at (toks : list string) (i : Z) : result float :=
  tok <- getitem toks i ;; to_float tok.

(** The methods hold the reader and the lists of [_read_coverages]. *)
Definition on_cov {A : Type} (m : M coverage A) : M (t * coverage) A :=
  on_fh m.

(** [self.mapped_data.source_data.add_bc_atts()] *)
Definition add_bc_atts : M t Z :=
  self <~ get ;;
  let comp_id := next_comp_id self in
  modify (fun r =>
    set_next_comp_id (comp_id + 1)
      (set_arcs (dict_set Z.eqb comp_id default_atts (arcs r)) r)) ;;;
  ret comp_id.

(** [arcs[...].loc[dict(comp_id=[comp_id])] = v] *)
Definition update_atts (comp_id : Z) (f : bc_atts -> bc_atts) : M t unit :=
  self <~ get ;;
  a <~ lift (dict_item Z.eqb comp_id (arcs self)) ;;
  modify (set_arcs (dict_set Z.eqb comp_id (f a) (arcs self))).

Definition set_type (comp_id v : Z) : M t unit :=
  update_atts comp_id
    (fun a => mk_atts v (bc_option a) (tang_slip a) (galerkin a)).
Definition set_bc_option (comp_id v : Z) : M t unit :=
  update_atts comp_id
    (fun a => mk_atts (arc_type a) v (tang_slip a) (galerkin a)).
Definition set_tang_slip (comp_id v : Z) : M t unit :=
  update_atts comp_id
    (fun a => mk_atts (arc_type a) (bc_option a) v (galerkin a)).
Definition set_galerkin (comp_id v : Z) : M t unit :=
  update_atts comp_id
    (fun a => mk_atts (arc_type a) (bc_option a) (tang_slip a) v).

(** The option of the first four families: natural for [natural_type],
    else essential, with tangential slip for [slip_type]. *)
Definition populate_option (ib_type comp_id natural_type slip_type : Z)
  : M t unit :=
  if ib_type =? natural_type then set_bc_option comp_id NATURAL_INDEX
  else
    set_bc_option comp_id ESSENTIAL_INDEX ;;;
    if ib_type =? slip_type then set_tang_slip comp_id 1 else ret tt.

Definition _populate_bc_atts (ib_type comp_id : Z) : M t unit :=
  if (ib_type mod 10 =? 0) && (ib_type <? 30) then
    set_type comp_id MAINLAND_INDEX ;;; populate_option ib_type comp_id 20 0
  else if (ib_type mod 10 =? 1) && (ib_type <? 30) then
    set_type comp_id ISLAND_INDEX ;;; populate_option ib_type comp_id 21 1
  else if (ib_type mod 10 =? 2) && (ib_type <? 30) then
    set_type comp_id RIVER_INDEX ;;; populate_option ib_type comp_id 22 2
  else if ib_type mod 10 =? 3 then
    set_type comp_id LEVEE_OUTFLOW_INDEX ;;; populate_option ib_type comp_id 23 3
  else if (ib_type mod 10 =? 4) || (ib_type mod 10 =? 5) then
    set_type comp_id LEVEE_INDEX
  else if (ib_type =? 30) || (ib_type =? 32) then
    set_type comp_id RADIATION_INDEX
  else if (ib_type =? 40) || (ib_type =? 41) then
    set_type comp_id ZERO_NORMAL_INDEX ;;;
    if ib_type =? 41 then set_galerkin comp_id 1 else ret tt
  else if ib_type =? 52 then
    set_type comp_id FLOW_AND_RADIATION_INDEX
  else ret tt.

(** [self.lines[self.current_line]], then [self.current_line += 1] *)
Definition next_line : M t string :=
  self <~ get ;;
  l <~ lift (getitem (lines self) (current_line self)) ;;
  modify (set_current_line (current_line self + 1)) ;;;
  ret l.

(** [self.pt_map[int(line_data[i])]] *)
Definition point_at (line_data : list string) (i : Z) : M t (point * Z) :=
  pt_id <~ lift (int_at line_data i) ;;
  self <~ get ;;
  lift (dict_item Z.eqb pt_id (pt_map self)).

(** [snap_locations[idx].append(locs)] *)
Definition snap_append (idx : Z) (locs : list float) : M coverage unit :=
  c <~ get ;;
  bucket <~ lift (getitem (snap_locations c) idx) ;;
  snap <~ lift (setitem (snap_locations c) idx (bucket ++ [locs])%list) ;;
  modify (set_snap_locations snap).

Definition push_comp_id (v : Z) : M coverage unit :=
  modify (fun c => set_comp_id_data (comp_id_data c ++ [v])%list c).
Definition push_partner_id (v : Z) : M coverage unit :=
  modify (fun c => set_partner_id_data (partner_id_data c ++ [v])%list c).
Definition push_nodes_start_idx (v : Z) : M coverage unit :=
  modify (fun c =>
    set_nodes_start_idx_data (nodes_start_idx_data c ++ [v])%list c).
Definition push_node_count (v : Z) : M coverage unit :=
  modify (fun c => set_node_count_data (node_count_data c ++ [v])%list c).
Definition extend_nodes (l : list Z) : M coverage unit :=
  modify (fun c => set_nodes (nodes c ++ l)%list c).
Definition extend_levee_coords (l : list Z) : M coverage unit :=
  modify (fun c => set_levee_coords (levee_coords c ++ l)%list c).
Definition extend_levee_data (l : list levee_row) : M coverage unit :=
  modify (fun c => set_levee_data (levee_data c ++ l)%list c).

(** [len(nodes)] *)
Definition len_nodes : M coverage Z :=
  c <~ get ;; ret (Z.of_nat (List.length (nodes c))).

(** The node lines of an ocean, simple land or generic arc. *)
Fixpoint read_arc_nodes (n : nat) (river : bool) (nodestring_locs : list float)
  : M (t * coverage) (list float) :=
  match n with
  | O => ret nodestring_locs
  | S n' =>
      l <~ on_self next_line ;;
      pt_data <~ on_self (point_at (split l) 0) ;;
      let nodestring_locs := (nodestring_locs ++ coords (fst pt_data))%list in
      on_cov (extend_nodes [snd pt_data + 1]) ;;;
      (if river
       then on_self (modify (fun r =>
              set_river_boundaries
                (river_boundaries r ++ [snd pt_data + 1])%list r))
       else ret tt) ;;;
      read_arc_nodes n' river nodestring_locs
  end.

Definition read_ocean_arc : M (t * coverage) unit :=
  l <~ on_self next_line ;;
  num_arc_nodes <~ lift (int_at (split l) 0) ;;
  comp_id <~ on_self add_bc_atts ;;
  on_self (set_type comp_id OCEAN_INDEX) ;;;
  on_cov (push_comp_id comp_id) ;;;
  on_cov (push_partner_id UNINITIALIZED_COMP_ID) ;;;
  start <~ on_cov len_nodes ;;
  on_cov (push_nodes_start_idx start) ;;;
  on_cov (push_node_count num_arc_nodes) ;;;
  nodestring_locs <~ read_arc_nodes (range_len num_arc_nodes) false [] ;;
  on_cov (snap_append OCEAN_INDEX nodestring_locs).

Definition read_ocean_section : M (t * coverage) unit :=
  self <~ on_self get ;;
  if current_line self <? Z.of_nat (List.length (lines self)) then
    l <~ lift (getitem (lines self) (current_line self)) ;;
    let line_data := split l in
    on_self (modify (set_current_line (current_line self + 2))) ;;;
    num_ocean_arcs <~ lift (if is_nil line_data then Ok 0
                            else int_at line_data 0) ;;
    for_range (range_len num_ocean_arcs) read_ocean_arc ;;;
    c <~ on_cov get ;;
    on_self (modify (fun r =>
      set_ocean_boundaries (ocean_boundaries r ++ nodes c)%list r))
  else ret tt.

(** The loop of [_read_levee_outflow]: the rows and the locations. *)
Fixpoint read_levee_outflow_rows (n : nat) (rows : list levee_row)
  (nodestring_locs : list float) : M t (list levee_row * list float) :=
  match n with
  | O => ret (rows, nodestring_locs)
  | S n' =>
      l <~ next_line ;;
      let line_data := split l in
      pt_data <~ point_at line_data 0 ;;
      h <~ lift (float_at line_data 1) ;;
      flow_coef <~ lift (float_at line_data 2) ;;
      let row := mk_row (snd pt_data + 1) UNINITIALIZED_COMP_ID h zero
                   flow_coef 0 zero zero zero in
      read_levee_outflow_rows n' (rows ++ [row])%list
        (nodestring_locs ++ coords (fst pt_data))%list
  end.

Definition _read_levee_outflow (num_nodes : Z) : M (t * coverage) unit :=
  r <~ on_self (read_levee_outflow_rows (range_len num_nodes) [] []) ;;
  let '(rows, nodestring_locs) := r in
  on_cov (extend_nodes (map node1 rows)) ;;;
  on_cov (snap_append LEVEE_OUTFLOW_INDEX nodestring_locs) ;;;
  on_cov (extend_levee_data rows).

(** The loop of [_read_levee_and_pipe]: the rows and the locations of
    the two sides; a pipe that is on adds a line to the last bucket. *)
Fixpoint read_levee_rows (n : nat) (rows : list levee_row)
  (nodestring1_locs nodestring2_locs : list float)
  : M (t * coverage) (list levee_row * list float * list float) :=
  match n with
  | O => ret (rows, nodestring1_locs, nodestring2_locs)
  | S n' =>
      l <~ on_self next_line ;;
      let line_data := split (partition_head "!"%char l) in
      pt1_id <~ lift (int_at line_data 0) ;;
      pt2_id <~ lift (int_at line_data 1) ;;
      self <~ on_self get ;;
      pt1_data <~ lift (dict_item Z.eqb pt1_id (pt_map self)) ;;
      pt2_data <~ lift (dict_item Z.eqb pt2_id (pt_map self)) ;;
      h <~ lift (float_at line_data 2) ;;
      sub_flow_coef <~ lift (float_at line_data 3) ;;
      super_flow_coef <~ lift (float_at line_data 4) ;;
      let pt1_loc := coords (fst pt1_data) in
      let pt2_loc := coords (fst pt2_data) in
      pipe <~
        (if 7 <? Z.of_nat (List.length line_data) then
           pipe_height <~ lift (float_at line_data 5) ;;
           on <~ (if SFltb pipe_height f100
                  then on_cov (snap_append (FLOW_AND_RADIATION_INDEX + 1)
                                 (pt1_loc ++ pt2_loc)%list) ;;; ret 1
                  else ret 0) ;;
           pipe_coeff <~ lift (float_at line_data 6) ;;
           pipe_diameter <~ lift (float_at line_data 7) ;;
           ret (on, pipe_height, pipe_diameter, pipe_coeff)
         else ret (0, zero, zero, zero)) ;;
      let '(on, pz, pd, pc) := pipe in
      let row := mk_row (snd pt1_data + 1) (snd pt2_data + 1) h sub_flow_coef
                   super_flow_coef on pz pd pc in
      read_levee_rows n' (rows ++ [row])%list
        (nodestring1_locs ++ pt1_loc)%list (nodestring2_locs ++ pt2_loc)%list
  end.

Definition _read_levee_and_pipe (num_nodes : Z) : M (t * coverage) unit :=
  r <~ read_levee_rows (range_len num_nodes) [] [] [] ;;
  let '(rows, nodestring1_locs, nodestring2_locs) := r in
  on_cov (extend_nodes (map node1 rows)) ;;;
  on_cov (extend_nodes (map node2 rows)) ;;;
  on_cov (snap_append LEVEE_INDEX nodestring1_locs) ;;;
  on_cov (snap_append LEVEE_INDEX nodestring2_locs) ;;;
  on_cov (extend_levee_data rows).

(** [try: ... except ValueError] around the parse of a land arc header:
    only a [ValueError] ends the land arcs. *)
Definition land_header (line : string) : result (option (Z * Z)) :=
  let line_data := split line in
  match (num_arc_nodes <- int_at line_data 0 ;;
         ib_type <- int_at line_data 1 ;;
         Ok (num_arc_nodes, ib_type)) with
  | Ok h => Ok (Some h)
  | Raise (ValueError _) => Ok None
  | Raise e => Raise e
  end.

(** The body of the land arc loop after the header is parsed. *)
Definition read_land_arc (num_arc_nodes ib_type : Z) : M (t * coverage) unit :=
  comp_id <~ on_self add_bc_atts ;;
  on_self (_populate_bc_atts ib_type comp_id) ;;;
  on_cov (push_comp_id comp_id) ;;;
  on_cov (push_node_count num_arc_nodes) ;;;
  start <~ on_cov len_nodes ;;
  on_cov (push_nodes_start_idx start) ;;;
  if ib_type mod 10 =? 3 then
    on_cov (push_partner_id UNINITIALIZED_COMP_ID) ;;;
    on_cov (extend_levee_coords (replicate num_arc_nodes comp_id)) ;;;
    _read_levee_outflow num_arc_nodes
  else if (ib_type mod 10 =? 4) || (ib_type mod 10 =? 5) then
    on_cov (push_comp_id comp_id) ;;;
    on_cov (push_node_count num_arc_nodes) ;;;
    on_cov (push_nodes_start_idx (start + num_arc_nodes)) ;;;
    on_cov (extend_levee_coords (replicate num_arc_nodes comp_id)) ;;;
    c <~ on_cov get ;;
    let nodestring1_idx := Z.of_nat (List.length (partner_id_data c)) in
    let nodestring2_idx := Z.of_nat (List.length (partner_id_data c)) + 1 in
    on_cov (push_partner_id nodestring2_idx) ;;;
    on_cov (push_partner_id nodestring1_idx) ;;;
    _read_levee_and_pipe num_arc_nodes
  else
    on_cov (push_partner_id UNINITIALIZED_COMP_ID) ;;;
    self <~ on_self get ;;
    atts <~ lift (dict_item Z.eqb comp_id (arcs self)) ;;
    let bc_type := arc_type atts in
    nodestring_locs <~ read_arc_nodes (range_len num_arc_nodes)
                         (bc_type =? RIVER_INDEX) [] ;;
    on_cov (snap_append bc_type nodestring_locs).

(** [for _ in range(num_land_arcs)]; the result is [read_next_line] and
    the last value of [line]. *)
Fixpoint read_land_arcs (n : nat) (num_lines : Z) (line : string)
  : M (t * coverage) (bool * string) :=
  match n with
  | O => ret (true, line)
  | S n' =>
      self <~ on_self get ;;
      if num_lines <=? current_line self then ret (false, line)
      else
        line <~ on_self next_line ;;
        if is_empty line then ret (false, line)
        else
          h <~ lift (land_header line) ;;
          match h with
          | None => ret (false, line)
          | Some (num_arc_nodes, ib_type) =>
              read_land_arc num_arc_nodes ib_type ;;;
              read_land_arcs n' num_lines line
          end
  end.

(** [for _ in range(num_generic_arcs)] *)
Fixpoint read_generic_arcs (n : nat) (num_lines : Z) : M (t * coverage) unit :=
  match n with
  | O => ret tt
  | S n' =>
      self <~ on_self get ;;
      if num_lines <=? current_line self then ret tt
      else
        line <~ on_self next_line ;;
        if is_empty line then ret tt
        else
          num_arc_nodes <~ lift (int_at (split line) 0) ;;
          comp_id <~ on_self add_bc_atts ;;
          on_cov (push_comp_id comp_id) ;;;
          on_cov (push_partner_id UNINITIALIZED_COMP_ID) ;;;
          start <~ on_cov len_nodes ;;
          on_cov (push_nodes_start_idx start) ;;;
          on_cov (push_node_count num_arc_nodes) ;;;
          nodestring_locs <~ read_arc_nodes (range_len num_arc_nodes) false [] ;;
          on_cov (snap_append UNASSIGNED_INDEX nodestring_locs) ;;;
          read_generic_arcs n' num_lines
  end.

(** The three sections of [_read_coverages], on the lists it builds. *)
Definition read_sections : M (t * coverage) unit :=
  read_ocean_section ;;;
  self <~ on_self get ;;
  let num_lines := Z.of_nat (List.length (lines self)) in
  line <~ (if current_line self <? num_lines then
             l <~ lift (getitem (lines self) (current_line self)) ;;
             on_self (modify (set_current_line (current_line self + 2))) ;;;
             ret l
           else ret EmptyString) ;;
  num_land_arcs <~ lift (if is_empty line then Ok 0
                         else int_at (split line) 0) ;;
  r <~ read_land_arcs (range_len num_land_arcs) num_lines EmptyString ;;
  let '(read_next_line, line) := r in
  self <~ on_self get ;;
  line <~ (if read_next_line
              && (current_line self <? Z.of_nat (List.length (lines self)))
           then on_self next_line
           else ret line) ;;
  let line_data := split line in
  num_generic_arcs <~ lift (if is_nil line_data then Ok 0
                            else int_at line_data 0) ;;
  on_self (modify (fun r => set_current_line (current_line r + 1) r)) ;;;
  read_generic_arcs (range_len num_generic_arcs) num_lines.

(** [_read_coverages]: the lists become the datasets of the mapped
    component.  The files written for the display are left out. *)
Definition _read_coverages : M t unit :=
  fun self =>
    match read_sections (self, empty_coverage) with
    | (Ok _, (self', c)) => (Ok tt, set_mapped_data (Some c) self')
    | (Raise e, (self', _)) => (Raise e, self')
    end.

End Coverages.

End InitialFort14Reader.

(** ** [xms/tool_runner/tools/datasets_from_fort13_tool.py] *)
Module DatasetsFromFort13Tool.

(** What the tool takes from its input grid: [co_grid.uuid] and
    [co_grid.ugrid.point_count]. *)
Record grid : Type := mk_grid {
  uuid : string;
  point_count : Z
}.

Definition get_grid_info (g : grid) : string * Z := (uuid g, point_count g).

Section Run.

Variable float_of_string : string -> option float.
Variable np_mean : list float -> float.

(** [run]: the arguments are the input grid and the path of the fort.13
    file, [file] is what the path names on disk; the result is the list of
    the datasets handed to [set_output_dataset], in order. *)
Definition run (input_grid : grid) (fort_13_file : string)
  (file : option (list string)) : result (list Fort13Reader.dataset_writer) :=
  let '(geom_uuid, geom_num_nodes) := get_grid_info input_grid in
  let fort_13_reader :=
    Fort13Reader.init fort_13_file geom_uuid geom_num_nodes in
  let '(r, fort_13_reader) :=
    Fort13Reader.read float_of_string np_mean file fort_13_reader in
  _ <- r ;;
  let datasets := Fort13Reader.datasets fort_13_reader in
  Ok (dict_values datasets).

End Run.

End DatasetsFromFort13Tool.

(** * Notions used in the statements *)

Module Notions.

Import ADCIRCSolutionReader.






(** The list after the assignments [l[id - 1] = v] of the records, in
    order. *)
Fixpoint updates {A : Type} (l : list A) (recs : list (Z * A))
  : result (list A) :=
  match recs with
  | [] => Ok l
  | (id, v) :: recs' =>
      match setitem l (id - 1) v with
      | Ok l' => updates l' recs'
      | Raise e => Raise e
      end
  end.


(** The point map after a node line that parses to [rec]: the point is
    stored under its id with the size of the map as its index. *)
Definition add_node (m : Fort14Reader.point_map)
  (rec : Z * Fort14Reader.point) : Fort14Reader.point_map :=
  dict_set Z.eqb (fst rec) (snd rec, Z.of_nat (List.length m)) m.

(** The entries of node records with pairwise distinct ids, numbered in
    the order read from [start] on. *)
Fixpoint indexed (start : nat) (recs : list (Z * Fort14Reader.point))
  : Fort14Reader.point_map :=
  match recs with
  | [] => []
  | rec :: recs' =>
      (fst rec, (snd rec, Z.of_nat start)) :: indexed (S start) recs'
  end.

(** The node lines and the cell lines of a mesh file with [n] nodes and
    [c] cells, and the point id a node line starts with. *)
Definition node_lines (file_lines : list string) (n : Z) : list string :=
  firstn (Z.to_nat n) (skipn 2 file_lines).

Definition cell_lines (file_lines : list string) (n c : Z) : list string :=
  firstn (Z.to_nat c) (skipn (2 + Z.to_nat n) file_lines).

Definition point_id (line : string) : result Z :=
  Fort14Reader.int_at (split line) 0.

(** [idx] is what the cell reader puts for token [k] of a cell line: the
    0-based position, below the point count [npts], of the node line that
    carries the point id of the token. *)
Definition remapped (nodes : list string) (npts : nat) (toks : list string)
  (k idx : Z) : Prop :=
  exists id i l,
    Fort14Reader.int_at toks k = Ok id
    /\ idx = Z.of_nat i
    /\ (i < npts)%nat
    /\ nth_error nodes i = Some l
    /\ point_id l = Ok id.

(** The four lists that describe the nodestrings of a coverage. *)
Definition arc_lists (c : InitialFort14Reader.coverage)
  : list Z * list Z * list Z * list Z :=
  (InitialFort14Reader.comp_id_data c,
   InitialFort14Reader.partner_id_data c,
   InitialFort14Reader.nodes_start_idx_data c,
   InitialFort14Reader.node_count_data c).

(** The four lists have one entry per nodestring. *)
Definition aligned (c : InitialFort14Reader.coverage) : Prop :=
  List.length (InitialFort14Reader.partner_id_data c)
  = List.length (InitialFort14Reader.comp_id_data c)
  /\ List.length (InitialFort14Reader.node_count_data c)
     = List.length (InitialFort14Reader.comp_id_data c)
  /\ List.length (InitialFort14Reader.nodes_start_idx_data c)
     = List.length (InitialFort14Reader.comp_id_data c).

(** The nodes of nodestring [i]: [node_count] entries of [nodes] from
    [nodes_start_idx] on. *)
Definition arc_nodes (c : InitialFort14Reader.coverage) (i : nat) : list Z :=
  firstn (Z.to_nat (nth i (InitialFort14Reader.node_count_data c) 0))
    (skipn (Z.to_nat (nth i (InitialFort14Reader.nodes_start_idx_data c) 0))
       (InitialFort14Reader.nodes c)).

(** Every nodestring [i] with a partner [p] (not the uninitialized id) is
    one arc of a levee pair: [p] is the index of another nodestring, whose
    partner is [i], with the same node count and the same component, and
    both have that many nodes in [nodes]. *)
Definition linked (uninitialized : Z) (c : InitialFort14Reader.coverage)
  : Prop :=
  forall i p,
    nth_error (InitialFort14Reader.partner_id_data c) i = Some p ->
    p <> uninitialized ->
    exists j n id,
      p = Z.of_nat j
      /\ j <> i
      /\ nth_error (InitialFort14Reader.partner_id_data c) j
         = Some (Z.of_nat i)
      /\ nth_error (InitialFort14Reader.node_count_data c) i = Some n
      /\ nth_error (InitialFort14Reader.node_count_data c) j = Some n
      /\ nth_error (InitialFort14Reader.comp_id_data c) i = Some id
      /\ nth_error (InitialFort14Reader.comp_id_data c) j = Some id
      /\ List.length (arc_nodes c i) = Z.to_nat n
      /\ List.length (arc_nodes c j) = Z.to_nat n.

End Notions.

(** ** Notions for the lists of the boundary coverages *)
Module Boundaries.

Import InitialFort14Reader.

(** What an arc that is read to its end has added: one nodestring at the
    end of the lists, with its nodes (and the rows of a levee-outflow
    arc, whose second node is the uninitialized id), or the two
    nodestrings of a levee pair, with the rows of the pair. *)
Inductive arc_added (uninitialized : Z) (s : t) (c : coverage)
  (s' : t) (c' : coverage) : Prop :=
| one_arc (id n : Z) (ns rivers : list Z) (rows : list levee_row) :
    comp_id_data c' = (comp_id_data c ++ [id])%list ->
    nodes_start_idx_data c'
    = (nodes_start_idx_data c ++ [Z.of_nat (List.length (nodes c))])%list ->
    node_count_data c' = (node_count_data c ++ [n])%list ->
    nodes c' = (nodes c ++ ns)%list ->
    List.length ns = Z.to_nat n ->
    levee_data c' = (levee_data c ++ rows)%list ->
    levee_coords c'
    = (levee_coords c ++ List.repeat id (List.length rows))%list ->
    rows = []
    \/ (ns = map node1 rows
        /\ Forall (fun r => node2 r = uninitialized) rows) ->
    ocean_boundaries s' = ocean_boundaries s ->
    river_boundaries s' = (river_boundaries s ++ rivers)%list ->
    rivers = [] \/ rivers = ns ->
    arc_added uninitialized s c s' c'
| two_arcs (id n : Z) (rows : list levee_row) :
    comp_id_data c' = (comp_id_data c ++ [id; id])%list ->
    nodes_start_idx_data c'
    = (nodes_start_idx_data c
         ++ [Z.of_nat (List.length (nodes c));
             Z.of_nat (List.length (nodes c)) + n])%list ->
    node_count_data c' = (node_count_data c ++ [n; n])%list ->
    nodes c' = (nodes c ++ map node1 rows ++ map node2 rows)%list ->
    List.length rows = Z.to_nat n ->
    levee_data c' = (levee_data c ++ rows)%list ->
    levee_coords c'
    = (levee_coords c ++ List.repeat id (List.length rows))%list ->
    ocean_boundaries s' = ocean_boundaries s ->
    river_boundaries s' = river_boundaries s ->
    arc_added uninitialized s c s' c'.

(** The nodestrings, one after the other, make up [nodes]. *)
Definition tiles (c : coverage) : Prop :=
  List.concat
    (map (Notions.arc_nodes c) (seq 0 (List.length (comp_id_data c))))
  = nodes c.

(** Nodestring [i] lies within [nodes]. *)
Definition whole (c : coverage) (i : nat) : Prop :=
  (Z.to_nat (nth i (nodes_start_idx_data c) 0%Z)
   + Z.to_nat (nth i (node_count_data c) 0%Z)
   <= List.length (nodes c))%nat.

(** The rows of the levee table and its coordinate are in step; every
    coordinate is the component of a nodestring, and the nodes of every
    row are nodes of the coverage (the second may be the uninitialized
    id). *)
Definition levee_table (uninitialized : Z) (c : coverage) : Prop :=
  List.length (levee_data c) = List.length (levee_coords c)
  /\ Forall (fun id => In id (comp_id_data c)) (levee_coords c)
  /\ Forall (fun r => In (node1 r) (nodes c)
                      /\ (node2 r = uninitialized \/ In (node2 r) (nodes c)))
       (levee_data c).

End Boundaries.

(** ** Notions for the harmonic analysis files *)
Module Harmonic.

(** The names of the datasets of a constituent: amplitude and phase, and
    for a velocity file their magnitudes. *)
Definition harmonic_names (scalar : bool) (con : string) : list string :=
  if scalar
  then [con ++ " Elevation Amplitude"; con ++ " Elevation Phase"]
  else [con ++ " Velocity Amplitude"; con ++ " Velocity Phase";
        con ++ " Velocity Amplitude Magnitude";
        con ++ " Velocity Phase Magnitude"].

End Harmonic.

(** ** Steps of the monad *)

Section MonadSteps.

Context {S H A B : Type}.

Lemma mbind_on_self (m : M S A) (f : A -> M (S * H) B) (s : S) (h : H) :
  mbind (on_self m) f (s, h)
  = match m s with
    | (Ok a, s1) => f a (s1, h)
    | (Raise e, s1) => (Raise e, (s1, h))
    end.
Proof. unfold mbind, on_self. destruct (m s) as [[a|e] s1]; reflexivity. Qed.

Lemma mbind_on_fh (m : M H A) (f : A -> M (S * H) B) (s : S) (h : H) :
  mbind (on_fh m) f (s, h)
  = match m h with
    | (Ok a, h1) => f a (s, h1)
    | (Raise e, h1) => (Raise e, (s, h1))
    end.
Proof. unfold mbind, on_fh. destruct (m h) as [[a|e] h1]; reflexivity. Qed.

Lemma mbind_lift (r : result A) (f : A -> M S B) (s : S) :
  mbind (lift r) f s
  = match r with Ok a => f a s | Raise e => (Raise e, s) end.
Proof. unfold mbind, lift. destruct r; reflexivity. Qed.

Lemma mbind_ret (a : A) (f : A -> M S B) (s : S) : mbind (ret a) f s = f a s.
Proof. reflexivity. Qed.

Lemma mbind_unfold (m : M S A) (f : A -> M S B) (s : S) :
  mbind m f s
  = match m s with
    | (Ok a, s1) => f a s1
    | (Raise e, s1) => (Raise e, s1)
    end.
Proof. reflexivity. Qed.

Lemma mbind_get (f : S -> M S B) (s : S) : mbind get f s = f s s.
Proof. reflexivity. Qed.

Lemma mbind_modify (g : S -> S) (f : unit -> M S B) (s : S) :
  mbind (modify g) f s = f tt (g s).
Proof. reflexivity. Qed.

Lemma mbind_on_fh_readline (f : string -> M (S * handle) B) (s : S)
      (l : string) (fh : handle) :
  mbind (on_fh readline) f (s, l :: fh) = f l (s, fh).
Proof. reflexivity. Qed.

End MonadSteps.

(** * Properties of the readers *)

(** ** Null values of NetCDF solutions *)

Lemma feqb_null_eq (x : float) :
  feqb x ADCIRC_NULL_VALUE = true -> x = ADCIRC_NULL_VALUE.
Proof.
  unfold feqb, SFeqb, ADCIRC_NULL_VALUE.
  destruct x as [s | s | | s m e]; cbn [SFcompare]; try discriminate.
  all: try (destruct s; discriminate).
  destruct s; try discriminate.
  destruct (Z.compare e (-36)) eqn:He; try discriminate.
  apply Z.compare_eq in He. subst e.
  destruct (Pos.compare_cont Eq m 6871878954123264) eqn:Hm; try discriminate.
  intros _. apply Pos.compare_eq in Hm. now subst m.
Qed.

(** The two assignments of the scalar and vector reads, on one element:
    the null value comes back, and a value that is neither the null value
    nor NaN is left as it is. *)
Lemma null_through_nan_null (x : float) :
  feqb x ADCIRC_NULL_VALUE = true ->
  (let y := if feqb x ADCIRC_NULL_VALUE then nan else x in
   if isnan y then ADCIRC_NULL_VALUE else y) = ADCIRC_NULL_VALUE.
Proof. intros H. simpl. now rewrite H. Qed.

Lemma null_through_nan_other (x : float) :
  feqb x ADCIRC_NULL_VALUE = false -> isnan x = false ->
  (let y := if feqb x ADCIRC_NULL_VALUE then nan else x in
   if isnan y then ADCIRC_NULL_VALUE else y) = x.
Proof. intros H N. simpl. now rewrite H, N. Qed.

Lemma arr_map_map (f g : float -> float) (a : ndarray) :
  arr_map g (arr_map f a) = arr_map (fun x => g (f x)) a.
Proof.
  destruct a; simpl; f_equal; rewrite map_map; try reflexivity.
  - apply map_ext. intros r. now rewrite map_map.
  - apply map_ext. intros m. rewrite map_map. apply map_ext.
    intros r. now rewrite map_map.
Qed.

Lemma arr_elems_map (f : float -> float) (a : ndarray) :
  arr_elems (arr_map f a) = map f (arr_elems a).
Proof.
  destruct a; simpl; try reflexivity.
  - now rewrite concat_map.
  - rewrite concat_map, map_map, map_map. f_equal.
    apply map_ext. intros m. now rewrite concat_map.
Qed.

(** What a scalar read emits, element by element. *)
Lemma scalar_null_handling_elems (a : ndarray) :
  arr_elems (assign_where_nan ADCIRC_NULL_VALUE
               (assign_where_eq ADCIRC_NULL_VALUE nan a))
  = map (fun x => let y := if feqb x ADCIRC_NULL_VALUE then nan else x in
                  if isnan y then ADCIRC_NULL_VALUE else y)
        (arr_elems a).
Proof.
  unfold assign_where_nan, assign_where_eq.
  now rewrite arr_map_map, arr_elems_map.
Qed.

(** The scalar reads of both readers keep every value that is not null and
    not NaN, a zero among them, and emit the null value for the null
    value. *)
Lemma netcdf_scalars_emitted
  (fos : string -> option float) (f : option file) (root : nc_file)
  (filename path name : string) (a times : ndarray)
  (r : ADCIRCSolutionReader.t) :
  open_dataset f = Ok root ->
  read_var root path = Ok a ->
  arr_size a <> 0 ->
  read_var root "/time" = Ok times ->
  exists out,
    ADCIRCSolutionReader.read_netcdf_scalars f filename path name r
    = (Ok tt, ADCIRCSolutionReader.push_dataset
                (mk_dataset name 1 (arr_elems times) out) r)
    /\ Forall2 (fun x y =>
                  (feqb x ADCIRC_NULL_VALUE = true -> y = ADCIRC_NULL_VALUE)
                  /\ (feqb x ADCIRC_NULL_VALUE = false -> isnan x = false ->
                      y = x))
               (arr_elems a) (arr_elems out).
Proof.
  intros Ho Hv Hs Ht.
  eexists. split.
  - unfold ADCIRCSolutionReader.read_netcdf_scalars, mbind, lift.
    rewrite Ho, Hv. apply Z.eqb_neq in Hs. rewrite Hs. rewrite Ht.
    reflexivity.
  - rewrite scalar_null_handling_elems.
    induction (arr_elems a) as [|x l IH]; simpl; constructor; auto.
    split; intros.
    + now apply null_through_nan_null.
    + now apply null_through_nan_other.
Qed.

Lemma fort63_scalars_emitted
  (f : option file) (root : nc_file) (path name : string)
  (a times : ndarray) (r : Fort63Reader.t) :
  open_dataset f = Ok root ->
  read_var root path = Ok a ->
  read_var root "/time" = Ok times ->
  arr_len times <> 0 ->
  arr_size a = Fort63Reader.geom_num_nodes r * arr_len times ->
  exists out,
    Fort63Reader._read_netcdf_scalars f path name r
    = (Ok tt, Fort63Reader.set_writer
                (mk_dataset name 1 (arr_elems times) out) r)
    /\ Forall2 (fun x y =>
                  (feqb x ADCIRC_NULL_VALUE = true -> y = ADCIRC_NULL_VALUE)
                  /\ (feqb x ADCIRC_NULL_VALUE = false -> isnan x = false ->
                      y = x))
               (arr_elems a) (arr_elems out).
Proof.
  intros Ho Hv Ht Hl Hs.
  eexists. split.
  - unfold Fort63Reader._read_netcdf_scalars, Fort63Reader._write_xmdf_dataset,
      mbind, lift, get.
    rewrite Ho, Hv, Ht. apply Z.eqb_neq in Hl. rewrite Hl.
    unfold arr_size in *. rewrite scalar_null_handling_elems, length_map.
    rewrite Hs, Z.eqb_refl. reflexivity.
  - rewrite scalar_null_handling_elems.
    induction (arr_elems a) as [|x l IH]; simpl; constructor; auto.
    split; intros.
    + now apply null_through_nan_null.
    + now apply null_through_nan_other.
Qed.

(** A read of an extreme dataset keeps the null value and every value that
    is not a zero; a zero it replaces by the null value. *)
Lemma extreme_value_spec (x : float) :
  (feqb x ADCIRC_NULL_VALUE = true ->
   ADCIRCSolutionReader.extreme_value x = ADCIRC_NULL_VALUE)
  /\ (truthy x = true -> ADCIRCSolutionReader.extreme_value x = x)
  /\ (truthy x = false ->
      ADCIRCSolutionReader.extreme_value x = ADCIRC_NULL_VALUE).
Proof.
  unfold ADCIRCSolutionReader.extreme_value.
  repeat split; intros H.
  - apply feqb_null_eq in H. now subst x.
  - now rewrite H.
  - now rewrite H.
Qed.

Lemma stack_row_map (f : float -> float) (xs ys : list float) c :
  stack_row xs ys = Some c ->
  stack_row (map f xs) (map f ys) = Some (map (map f) c).
Proof.
  revert ys c. induction xs as [|x xs IH]; intros [|y ys] c H; simpl in *;
    try discriminate.
  - now inversion H.
  - destruct (stack_row xs ys) eqn:E; try discriminate.
    inversion H; subst. now rewrite (IH _ _ E).
Qed.

Lemma stack_rows_map (f : float -> float) (xs ys : list (list float)) c :
  stack_rows xs ys = Some c ->
  stack_rows (map (map f) xs) (map (map f) ys) = Some (map (map (map f)) c).
Proof.
  revert ys c. induction xs as [|x xs IH]; intros [|y ys] c H; simpl in *;
    try discriminate.
  - now inversion H.
  - destruct (stack_row x y) eqn:E1; try discriminate.
    destruct (stack_rows xs ys) eqn:E2; try discriminate.
    inversion H; subst.
    now rewrite (stack_row_map _ _ _ _ E1), (IH _ _ E2).
Qed.

Lemma stack_axis2_map (f : float -> float) (x y c : ndarray) :
  stack_axis2 x y = Ok c ->
  stack_axis2 (arr_map f x) (arr_map f y) = Ok (arr_map f c).
Proof.
  destruct x, y; simpl; try discriminate.
  destruct (stack_rows rows rows0) eqn:E; try discriminate.
  intros H; inversion H; subst. now rewrite (stack_rows_map _ _ _ _ E).
Qed.

(** The vector read stacks the two components and handles them alike. *)
Lemma netcdf_vectors_emitted
  (f : option file) (root : nc_file)
  (filename x_path y_path name : string) (x y c times : ndarray)
  (r : ADCIRCSolutionReader.t) :
  open_dataset f = Ok root ->
  read_var root x_path = Ok x ->
  read_var root y_path = Ok y ->
  arr_size x <> 0 ->
  stack_axis2 x y = Ok c ->
  read_var root "/time" = Ok times ->
  exists out,
    ADCIRCSolutionReader.read_netcdf_vectors f filename x_path y_path name r
    = (Ok tt, ADCIRCSolutionReader.push_dataset
                (mk_dataset name 2 (arr_elems times) out) r)
    /\ Forall2 (fun a b =>
                  (feqb a ADCIRC_NULL_VALUE = true -> b = ADCIRC_NULL_VALUE)
                  /\ (feqb a ADCIRC_NULL_VALUE = false -> isnan a = false ->
                      b = a))
               (arr_elems c) (arr_elems out).
Proof.
  intros Ho Hx Hy Hs Hc Ht.
  exists (assign_where_nan ADCIRC_NULL_VALUE
            (assign_where_eq ADCIRC_NULL_VALUE nan c)).
  split.
  - unfold ADCIRCSolutionReader.read_netcdf_vectors, mbind, lift.
    rewrite Ho, Hx, Hy. apply Z.eqb_neq in Hs. rewrite Hs.
    unfold assign_where_eq at 1 2.
    rewrite (stack_axis2_map _ _ _ _ Hc), Ht. reflexivity.
  - rewrite scalar_null_handling_elems.
    induction (arr_elems c) as [|a l IH]; simpl; constructor; auto.
    split; intros.
    + now apply null_through_nan_null.
    + now apply null_through_nan_other.
Qed.

(** C1.  A read of an extreme (maximum) NetCDF dataset does not keep a
    zero: on the file [maxele.63.nc] with [zeta_max = [0.0, 2.0, -99999.0]]
    the dataset "Max eta" holds [-99999.0, 2.0, -99999.0], whereas the
    scalar read of the same values as [zeta] emits them as they are. *)
Theorem netcdf_max_read_replaces_zero :
  let vals := [zero; of_Z 2; ADCIRC_NULL_VALUE] in
  let maxele := mk_file [] (Some [("zeta_max", Arr1 vals);
                                  ("time_of_zeta_max", Arr1 vals)]) in
  let fort63 := mk_file [] (Some [("zeta", Arr2 [vals]);
                                  ("time", Arr1 [zero])]) in
  ADCIRCSolutionReader.read_netcdf_max_scalars (Some maxele) "maxele.63.nc"
    "zeta_max" "time_of_zeta_max" "Max eta" (ADCIRCSolutionReader.init [])
  = (Ok tt,
     ADCIRCSolutionReader.mk [] 0 0 "" false
       [mk_dataset "Max eta" 1 [zero]
          (Arr2 [[ADCIRC_NULL_VALUE; of_Z 2; ADCIRC_NULL_VALUE]]);
        mk_dataset "Max eta Time" 1 [zero]
          (Arr2 [[ADCIRC_NULL_VALUE; of_Z 2; ADCIRC_NULL_VALUE]])] [])
  /\ ADCIRCSolutionReader.read_netcdf_scalars (Some fort63) "fort.63.nc"
       "/zeta" "Water Surface (eta)" (ADCIRCSolutionReader.init [])
     = (Ok tt,
        ADCIRCSolutionReader.mk [] 0 0 "" false
          [mk_dataset "Water Surface (eta)" 1 [zero]
             (Arr2 [[zero; of_Z 2; ADCIRC_NULL_VALUE]])] []).
Proof. split; vm_compute; reflexivity. Qed.

(** ** The batch of solution files *)

Section Batch.

Import ADCIRCSolutionReader Notions.























Variable fos : string -> option float.














End Batch.



(** ** Nodal attributes (fort.13) *)

Section Fort13Header.

Import Fort13Reader.

Variable fos : string -> option float.
Variable np_mean : list float -> float.

(** C3, amended.  With a header that gives the node count [n] and the
    attribute count [a]: [read] raises [InvalidFile] if [n <= 0], else
    [NodeCountMismatch] if [n] is not the node count of the geometry, else
    [NoAttributes] if [a] is 0; it raises before any attribute block is
    read, and the reader holds no defaults, no dataset and no attribute. *)
Theorem fort13_header_errors
  (in_file uuid : string) (geom : Z) (l0 l1 l2 : string) (rest : list string)
  (n a : Z) :
  first_int l1 = Ok n ->
  first_int l2 = Ok a ->
  let out := read fos np_mean (Some (l0 :: l1 :: l2 :: rest))
               (init in_file uuid geom) in
  (n <= 0 -> fst out = Raise InvalidFile)
  /\ (0 < n -> n <> geom -> fst out = Raise NodeCountMismatch)
  /\ (0 < n -> n = geom -> a = 0 -> fst out = Raise (NoAttributes in_file))
  /\ (n <= 0 \/ n <> geom \/ a = 0 ->
      is_ok (fst out) = false
      /\ _att_defaults (snd out) = []
      /\ _att_dsets (snd out) = []
      /\ datasets (snd out) = []
      /\ built_data (snd out) = []
      /\ nodal_atts (snd out) = []).
Proof.
  intros H1 H2 out. subst out.
  unfold read, with_open, mbind, on_fh, on_self, read_int, readline, lift,
    modify, get, raise. simpl. rewrite H1, H2. simpl.
  destruct (Z.leb_spec n 0) as [Hn|Hn].
  { simpl. repeat split; auto; lia. }
  destruct (Z.eqb_spec n geom) as [Hg|Hg]; simpl.
  2:{ repeat split; auto; try lia; congruence. }
  destruct (Z.eqb_spec a 0) as [Ha|Ha]; simpl.
  { repeat split; auto; lia. }
  repeat split; intros; try lia.
  all: destruct H as [H|[H|H]]; try lia; congruence.
Qed.

End Fort13Header.

(** C3 as stated fails for an attribute count below zero, which is not
    [> 0]: the read raises nothing and returns with no dataset. *)
Lemma fort13_negative_attribute_count_accepted :
  let lines := text_lines ["grid"; "10"; "-1"] in
  let out := Fort13Reader.read decimal_float (fun _ => zero) (Some lines)
               (Fort13Reader.init "fort.13" "uuid" 10) in
  Fort13Reader.first_int (nth 2 lines "") = Ok (-1)
  /\ ~ (0 < -1)
  /\ fst out <> Raise (Fort13Reader.NoAttributes "fort.13")
  /\ fst out = Ok tt.
Proof.
  repeat split; try (vm_compute; congruence).
Qed.

Lemma fort13_header_errors_witness :
  let lines := text_lines ["grid"; "10"; "0"] in
  let out := Fort13Reader.read decimal_float (fun _ => zero) (Some lines)
               (Fort13Reader.init "fort.13" "uuid" 10) in
  Fort13Reader.first_int (nth 1 lines "") = Ok 10
  /\ Fort13Reader.first_int (nth 2 lines "") = Ok 0
  /\ fst out = Raise (Fort13Reader.NoAttributes "fort.13")
  /\ Fort13Reader.datasets (snd out) = [].
Proof.
  intros lines out.
  assert (H1 : Fort13Reader.first_int (nth 1 lines "") = Ok 10)
    by (vm_compute; reflexivity).
  assert (H2 : Fort13Reader.first_int (nth 2 lines "") = Ok 0)
    by (vm_compute; reflexivity).
  split; [exact H1 | split; [exact H2 |]].
  destruct (fort13_header_errors decimal_float (fun _ => zero)
              "fort.13" "uuid" 10 (nth 0 lines "") (nth 1 lines "")
              (nth 2 lines "") [] 10 0 H1 H2) as (_ & _ & E & N).
  split.
  - apply E; lia.
  - apply N. right. right. reflexivity.
Defined.

(** ** Sparse records: defaults and listed nodes *)

Section SparseRecords.

Import Notions.

Context {A : Type}.

Lemma length_set_nth (l : list A) (n : nat) (v : A) :
  List.length (set_nth l n v) = List.length l.
Proof.
  revert n. induction l as [|h t IH]; intros [|n]; simpl; auto.
Qed.

Lemma nth_error_set_nth_eq (l : list A) (n : nat) (v : A) :
  (n < List.length l)%nat -> nth_error (set_nth l n v) n = Some v.
Proof.
  revert n. induction l as [|h t IH]; intros [|n] H; simpl in *; try lia; auto.
  apply IH. lia.
Qed.

Lemma nth_error_set_nth_neq (l : list A) (n m : nat) (v : A) :
  n <> m -> nth_error (set_nth l n v) m = nth_error l m.
Proof.
  revert n m. induction l as [|h t IH]; intros [|n] [|m] H; simpl; auto;
    try congruence.
Qed.


Lemma length_setitem (l l' : list A) (i : Z) (v : A) :
  setitem l i v = Ok l' -> List.length l' = List.length l.
Proof.
  unfold setitem. destruct (norm_index _ _); [| discriminate].
  intros H; inversion H. apply length_set_nth.
Qed.

Lemma updates_length (recs : list (Z * A)) :
  forall l out, updates l recs = Ok out -> List.length out = List.length l.
Proof.
  induction recs as [|[id v] recs IH]; intros l out H; simpl in H.
  - now inversion H.
  - destruct (setitem l (id - 1) v) as [l1|] eqn:E; [| discriminate].
    rewrite (IH _ _ H). eapply length_setitem; eauto.
Qed.




End SparseRecords.

(** ** Sparse time steps of an ASCII scalar solution *)

Section SparseTimestep.

Import ADCIRCSolutionReader Notions.

Variable fos : string -> option float.



End SparseTimestep.


(** ** Values of a nodal attribute *)

Section PyIndex.

Context {A : Type}.

Lemma getitem_nat (l : list A) (k : nat) (x : A) :
  getitem l (Z.of_nat k) = Ok x <-> nth_error l k = Some x.
Proof.
  unfold getitem, norm_index.
  destruct (Z.leb_spec 0 (Z.of_nat k)); [| lia].
  destruct (Z.ltb_spec (Z.of_nat k) (Z.of_nat (List.length l))); simpl.
  - rewrite Nat2Z.id. destruct (nth_error l k); split; congruence.
  - destruct (Z.ltb_spec (Z.of_nat k) 0); [lia |]. simpl.
    split; [discriminate |]. intros Hn.
    assert (nth_error l k <> None) by congruence.
    apply nth_error_Some in H2. lia.
Qed.

Lemma setitem_nat (l l' : list A) (k : nat) (v : A) :
  setitem l (Z.of_nat k) v = Ok l' ->
  (k < List.length l)%nat /\ l' = set_nth l k v.
Proof.
  unfold setitem, norm_index.
  destruct (Z.leb_spec 0 (Z.of_nat k)); [| lia].
  destruct (Z.ltb_spec (Z.of_nat k) (Z.of_nat (List.length l))); simpl.
  - rewrite Nat2Z.id. intros Hs; inversion Hs. split; [lia | reflexivity].
  - destruct (Z.ltb_spec (Z.of_nat k) 0); [lia |]. simpl. discriminate.
Qed.

End PyIndex.

Section Fort13Values.

Import Fort13Reader Notions.

Variable fos : string -> option float.
Variable np_mean : list float -> float.

(** One exception line sets, in every dataset, the value of its node. *)
Lemma set_exception_rows (idx : Z) (line_data : list string) (n : nat) :
  forall k0 dv dv',
    set_exception fos n (Z.of_nat k0) idx line_data dv = Ok dv' ->
    List.length dv' = List.length dv
    /\ (forall c row, nth_error dv c = Some row ->
                      (c < k0 \/ k0 + n <= c)%nat ->
                      nth_error dv' c = Some row)
    /\ (forall c row, nth_error dv c = Some row ->
                      (k0 <= c < k0 + n)%nat ->
                      exists v row',
                        float_at fos line_data (Z.of_nat c + 1) = Ok v
                        /\ setitem row idx v = Ok row'
                        /\ nth_error dv' c = Some row').
Proof.
  induction n as [|n IH]; intros k0 dv dv' H; simpl in H.
  - inversion H; subst. repeat split; auto. intros; lia.
  - destruct (float_at fos line_data (Z.of_nat k0 + 1)) as [v|] eqn:Ev;
      [| discriminate].
    simpl in H. unfold setitem2 in H.
    destruct (getitem dv (Z.of_nat k0)) as [row0|] eqn:Eg; [| discriminate].
    destruct (setitem row0 idx v) as [row0'|] eqn:Es; [| discriminate].
    destruct (setitem dv (Z.of_nat k0) row0') as [dv1|] eqn:Ed;
      [| discriminate].
    simpl in H.
    apply getitem_nat in Eg.
    destruct (setitem_nat _ _ _ _ Ed) as [Hk ->].
    replace (Z.of_nat k0 + 1) with (Z.of_nat (S k0)) in H by lia.
    destruct (IH _ _ _ H) as (L & O & I).
    rewrite length_set_nth in L.
    repeat split; auto.
    + intros c row Hc Hr. apply O; [| lia].
      rewrite nth_error_set_nth_neq; [exact Hc | lia].
    + intros c row Hc Hr.
      destruct (Nat.eq_dec c k0) as [->|Hne].
      * exists v, row0'. rewrite Eg in Hc. inversion Hc; subst row0.
        repeat split; auto.
        apply O; [| lia]. now apply nth_error_set_nth_eq.
      * apply I; [| lia].
        rewrite nth_error_set_nth_neq; [exact Hc | lia].
Qed.

(** The exception lines act on each dataset as a list of records. *)
Lemma read_exceptions_rows (num_dsets : nat) (n : nat) :
  forall dv fh dv' fh',
    read_exceptions fos n num_dsets dv fh = (Ok dv', fh') ->
    List.length dv = num_dsets ->
    fh' = skipn n fh
    /\ List.length dv' = List.length dv
    /\ (forall c row,
           nth_error dv c = Some row ->
           exists recs row',
             nth_error dv' c = Some row'
             /\ List.length recs = n
             /\ Forall2
                  (fun l rec =>
                     first_int (replace_comma l) = Ok (fst rec)
                     /\ float_at fos (split (replace_comma l))
                          (Z.of_nat c + 1) = Ok (snd rec))
                  (firstn n fh) recs
             /\ updates row recs = Ok row').
Proof.
  induction n as [|n IH]; intros dv fh dv' fh' H Hl; simpl in H.
  - inversion H; subst. repeat split; auto.
    intros c row Hc. exists [], row. repeat split; auto.
  - unfold mbind, readline, lift in H.
    destruct fh as [|l fh1]; [simpl in H; discriminate |].
    destruct (first_int (replace_comma l)) as [id|] eqn:Ei; [| discriminate].
    simpl in H.
    destruct (set_exception fos num_dsets 0 (id - 1)
                (split (replace_comma l)) dv) as [dv1|] eqn:Es;
      [| discriminate].
    change 0 with (Z.of_nat 0) in Es.
    destruct (set_exception_rows _ _ _ _ _ _ Es) as (L1 & _ & I1).
    destruct (IH _ _ _ _ H ltac:(congruence)) as (E & L2 & R).
    repeat split; auto; [congruence |].
    intros c row Hc.
    assert (Hlt : (0 <= c < 0 + num_dsets)%nat).
    { split; [lia |]. rewrite <- Hl. apply nth_error_Some. congruence. }
    destruct (I1 c row Hc Hlt) as (v & row1 & Ev & Er & Hc1).
    destruct (R c row1 Hc1) as (recs & row' & Hc' & Ln & F & U).
    exists ((id, v) :: recs), row'. simpl. repeat split; auto.
    now rewrite Er.
Qed.

(** Every dataset of a file that is read has one value per node. *)

Lemma Forall_set_nth {A : Type} (P : A -> Prop) (l : list A) (n : nat)
      (v : A) :
  Forall P l -> P v -> Forall P (set_nth l n v).
Proof.
  intros Hl Hv. revert n.
  induction Hl as [|h t Hh Ht IH]; intros [|n]; simpl; auto.
Qed.

Lemma setitem_Forall {A : Type} (P : A -> Prop) (l l' : list A) (i : Z)
      (v : A) :
  setitem l i v = Ok l' -> Forall P l -> P v -> Forall P l'.
Proof.
  unfold setitem. destruct (norm_index _ _); [|discriminate].
  intros E; injection E as <-. apply Forall_set_nth.
Qed.

Lemma getitem_In {A : Type} (l : list A) (i : Z) (x : A) :
  getitem l i = Ok x -> In x l.
Proof.
  unfold getitem. destruct (norm_index _ _) as [n|]; [|discriminate].
  destruct (nth_error l n) eqn:E; [|discriminate].
  intros H; injection H as <-. eapply nth_error_In; eauto.
Qed.

Lemma dict_set_Forall {K V : Type} (eqb : K -> K -> bool) (P : V -> Prop)
      (k : K) (v : V) (d : list (K * V)) :
  Forall (fun kv => P (snd kv)) d -> P v ->
  Forall (fun kv => P (snd kv)) (dict_set eqb k v d).
Proof.
  intros Hd Hv. induction Hd as [|[k' v'] d Hh Ht IH]; simpl.
  - constructor; auto.
  - destruct (eqb k' k); constructor; auto.
Qed.

Lemma dict_get_Forall {K V : Type} (eqb : K -> K -> bool) (P : V -> Prop)
      (k : K) (v : V) (d : list (K * V)) :
  Forall (fun kv => P (snd kv)) d -> dict_get eqb k d = Some v -> P v.
Proof.
  intros Hd. induction Hd as [|[k' v'] d Hh Ht IH]; simpl; [discriminate|].
  destruct (eqb k' k); auto. intros E; injection E as <-. exact Hh.
Qed.

Lemma read_dset_vals_sized (nodes : Z) (defaults : list float)
      (fh fh' : handle) (dset_vals : list (list float)) :
  read_dset_vals fos nodes defaults fh = (Ok dset_vals, fh') ->
  Forall (fun row => List.length row = Z.to_nat nodes) dset_vals.
Proof.
  unfold read_dset_vals, read_int. intros E.
  unfold mbind at 1 in E. unfold mbind at 1 in E.
  destruct (readline fh) as [[l|e] fh1]; [|discriminate].
  unfold lift in E. destruct (first_int l) as [num|]; [|discriminate].
  apply read_exceptions_rows in E; [|apply length_map].
  destruct E as (_ & L & R).
  apply Forall_forall. intros row' Hin.
  destruct (In_nth_error _ _ Hin) as (c & Hc).
  assert (Hlt : (c < List.length (map (fun d => replicate nodes d) defaults))%nat).
  { rewrite <- L. apply nth_error_Some. congruence. }
  destruct (nth_error (map (fun d => replicate nodes d) defaults) c)
    as [row|] eqn:Er; [|apply nth_error_None in Er; lia].
  destruct (R c row Er) as (recs & row2 & Hc2 & _ & _ & U).
  rewrite Hc in Hc2. injection Hc2 as <-.
  rewrite (updates_length _ _ _ U).
  apply nth_error_In in Er. apply in_map_iff in Er.
  destruct Er as (d & <- & _). apply repeat_length.
Qed.

Local Abbreviation sized m :=
  (fun w : dataset_writer => List.length (values w) = m).
Local Abbreviation good m s :=
  (Forall (fun kv : string * dataset_writer => sized m (snd kv)) (datasets s)
   /\ Forall (fun kv : string * list dataset_writer =>
                Forall (sized m) (snd kv)) (_att_dsets s)).

Lemma make_datasets_good (m : nat) (dset_vals : list (list float))
      (att_name : string) (display_names : list string) (n : nat) :
  Forall (fun row => List.length row = m) dset_vals ->
  forall j s r s',
    make_datasets n j att_name display_names dset_vals s = (r, s') ->
    good m s ->
    good m s' /\ _num_nodes s' = _num_nodes s
    /\ built_data s' = built_data s.
Proof.
  intros Hdv. induction n as [|n IH]; intros j s r s' E G; simpl in E.
  - injection E as _ <-. auto.
  - rewrite mbind_lift in E.
    destruct (getitem display_names j) as [dataset_name|];
      [| injection E as _ <-; auto].
    rewrite mbind_lift in E.
    destruct (getitem dset_vals j) as [vals|] eqn:Ev;
      [| injection E as _ <-; auto].
    apply getitem_In in Ev.
    pose proof (proj1 (Forall_forall _ _) Hdv _ Ev) as Hv.
    rewrite mbind_get, mbind_modify, mbind_get, mbind_modify in E.
    apply IH in E.
    + destruct E as (G' & Hn & Hb). split; [exact G'|].
      split; [rewrite Hn | rewrite Hb]; reflexivity.
    + destruct G as [G1 G2]. split; simpl.
      * apply (dict_set_Forall String.eqb (sized m)); auto.
      * apply (dict_set_Forall String.eqb (Forall (sized m))); auto.
        apply Forall_app. split; [| constructor; auto].
        destruct (dict_get String.eqb att_name (_att_dsets s)) as [l|] eqn:El;
          [| constructor].
        eapply (dict_get_Forall String.eqb (Forall (sized m))); eauto.
Qed.

Lemma read_att_info_loop_frame (n : nat) :
  forall s fh r s' fh',
    read_att_info_loop fos n (s, fh) = (r, (s', fh')) ->
    datasets s' = datasets s /\ _att_dsets s' = _att_dsets s
    /\ _num_nodes s' = _num_nodes s /\ built_data s' = built_data s.
Proof.
  induction n as [|n IH]; intros s fh r s' fh' E; simpl in E.
  - injection E as _ <- _. auto.
  - rewrite mbind_on_fh in E.
    destruct (readline fh) as [[l|e] fh1]; [| injection E as _ <- _; auto].
    rewrite mbind_lift in E.
    destruct (getitem (split l) 0) as [att_name|];
      [| injection E as _ <- _; auto].
    rewrite mbind_on_fh in E.
    destruct (readline fh1) as [[l1|e] fh2]; [| injection E as _ <- _; auto].
    rewrite mbind_on_fh in E.
    destruct (readline fh2) as [[l2|e] fh3]; [| injection E as _ <- _; auto].
    rewrite mbind_on_fh in E.
    destruct (readline fh3) as [[l3|e] fh4]; [| injection E as _ <- _; auto].
    rewrite mbind_lift in E.
    destruct (floats fos (split (replace_comma l3))) as [default_vals|];
      [| injection E as _ <- _; auto].
    rewrite mbind_on_self in E. unfold get at 1 in E.
    rewrite mbind_on_self in E. unfold modify at 1 in E.
    apply IH in E. exact E.
Qed.

Lemma read_att_block_good (m : nat) (s s' : t) (fh fh' : handle)
      (r : result unit) :
  read_att_block fos np_mean (s, fh) = (r, (s', fh')) ->
  Z.to_nat (_num_nodes s) = m ->
  good m s ->
  good m s' /\ _num_nodes s' = _num_nodes s /\ built_data s' = built_data s.
Proof.
  intros E Hm G. unfold read_att_block in E.
  rewrite mbind_on_fh in E.
  destruct (read_name_line fh) as [[att_name_line|e] fh1];
    [| injection E as _ <- _; auto].
  rewrite mbind_lift in E.
  destruct (getitem att_name_line 0) as [att_name|];
    [| injection E as _ <- _; auto].
  rewrite mbind_on_self in E. unfold get at 1 in E.
  rewrite mbind_lift in E.
  destruct (dict_item String.eqb att_name (_att_defaults s)) as [defaults|];
    [| injection E as _ <- _; auto].
  rewrite mbind_on_fh in E.
  destruct (read_dset_vals fos (_num_nodes s) defaults fh1)
    as [[dset_vals|e] fh2] eqn:Ed; [| injection E as _ <- _; auto].
  apply read_dset_vals_sized in Ed. rewrite Hm in Ed.
  destruct (String.eqb att_name "sea_surface_height_above_geoid").
  - rewrite mbind_lift in E.
    destruct (getitem dset_vals 0); [| injection E as _ <- _; auto].
    unfold on_self, modify in E. injection E as _ <- _. auto.
  - unfold on_self in E.
    match type of E with
    | (let '(_, _) := make_datasets ?n ?j ?a ?d ?v ?s0 in _) = _ =>
        destruct (make_datasets n j a d v s0) as [r1 s1] eqn:Em
    end.
    injection E as _ <- _.
    eapply make_datasets_good; eauto.
Qed.

Lemma for_range_att_block_good (m : nat) (n : nat) :
  forall s fh r s' fh',
    for_range n (read_att_block fos np_mean) (s, fh) = (r, (s', fh')) ->
    Z.to_nat (_num_nodes s) = m ->
    good m s ->
    good m s' /\ _num_nodes s' = _num_nodes s
    /\ built_data s' = built_data s.
Proof.
  induction n as [|n IH]; intros s fh r s' fh' E Hm G; simpl in E.
  - injection E as _ <- _. auto.
  - unfold mbind at 1 in E.
    destruct (read_att_block fos np_mean (s, fh)) as [[[]|e] [s1 fh1]] eqn:Eb;
      apply read_att_block_good with (m := m) in Eb; auto;
      destruct Eb as (G1 & Hn & Hb).
    + apply IH in E; auto; [| congruence].
      destruct E as (G2 & Hn2 & Hb2). split; [exact G2|].
      split; congruence.
    + injection E as _ <- _. auto.
Qed.

(** A file that is read has a positive node count in its header, the one
    of the geometry, and every dataset it gives has that many values. *)
Lemma read_datasets_sized (in_file uuid : string) (geom : Z)
      (file : list string) (s' : t) :
  read fos np_mean (Some file) (init in_file uuid geom) = (Ok tt, s') ->
  first_int (nth 1 file EmptyString) = Ok (_num_nodes s')
  /\ 0 < _num_nodes s'
  /\ _num_nodes s' = geom
  /\ Forall (fun kv => Z.of_nat (List.length (values (snd kv)))
                       = _num_nodes s') (datasets s')
  /\ Forall (fun w => Z.of_nat (List.length (values w)) = _num_nodes s')
       (built_data s').
Proof.
  intros E. unfold read in E. rewrite mbind_get in E.
  destruct file as [|l0 rest]; [discriminate|].
  unfold with_open in E. rewrite mbind_on_fh_readline in E.
  rewrite mbind_on_fh in E. unfold read_int at 1 in E.
  assert (Hn : exists fh1,
             (l <~ readline ;; lift (first_int l)) rest
             = (first_int (nth 0 rest EmptyString), fh1)).
  { destruct rest; unfold mbind, readline, lift; eexists; reflexivity. }
  destruct Hn as (fh1 & Hn). rewrite Hn in E. simpl nth.
  destruct (first_int (nth 0 rest EmptyString)) as [num_nodes|];
    [|discriminate].
  rewrite mbind_on_self in E. unfold modify at 1 in E.
  rewrite mbind_on_fh in E.
  destruct (read_int fh1) as [[num_atts|e] fh2]; [|discriminate].
  rewrite mbind_on_self in E. unfold modify at 1 in E.
  destruct (Z.leb_spec num_nodes 0) as [|Hpos]; [discriminate|].
  change (_geom_num_nodes (init in_file uuid geom)) with geom in E.
  destruct (Z.eqb_spec num_nodes geom) as [Hg|]; [|discriminate].
  cbn [negb] in E.
  destruct (num_atts =? 0); [discriminate|].
  rewrite (mbind_unfold (_read_att_info fos)) in E.
  destruct (_read_att_info fos _) as [[[]|e] [s1 fh3]] eqn:Ei;
    [|discriminate].
  unfold _read_att_info in Ei. rewrite mbind_on_self in Ei.
  unfold get at 1 in Ei. apply read_att_info_loop_frame in Ei.
  destruct Ei as (D1 & A1 & N1 & B1). simpl in D1, A1, N1, B1.
  rewrite (mbind_unfold (_read_att_values fos np_mean)) in E.
  destruct (_read_att_values fos np_mean _) as [[[]|e] [s2 fh4]] eqn:Ev;
    [|discriminate].
  unfold _read_att_values in Ev. rewrite mbind_on_self in Ev.
  unfold get at 1 in Ev.
  apply for_range_att_block_good with (m := Z.to_nat num_nodes) in Ev;
    [| congruence | rewrite D1, A1; split; constructor].
  destruct Ev as ((G1 & G2) & N2 & B2).
  unfold on_self, _add_dsets_and_update_sim, modify in E.
  injection E as <-. simpl.
  rewrite N2, N1.
  split; [reflexivity|]. split; [exact Hpos|]. split; [exact Hg|].
  split.
  - eapply Forall_impl; [| exact G1]. simpl. intros kv ->. lia.
  - rewrite B2, B1. simpl. apply Forall_concat.
    unfold dict_values. apply Forall_map.
    eapply Forall_impl; [| exact G2]. simpl. intros kv Hkv.
    eapply Forall_impl; [| exact Hkv]. simpl. intros w ->. lia.
Qed.


End Fort13Values.


(** ** Time steps cut short *)

Section Truncation.

Import ADCIRCSolutionReader.

Context {A : Type}.
Variable rt : M handle (step A).




End Truncation.

Section TruncatedReads.

Import ADCIRCSolutionReader.

Variable fos : string -> option float.





End TruncatedReads.



(** ** The mesh (fort.14) *)

Section DictFacts.

Context {V : Type}.

Lemma dict_set_fresh (k : Z) (v : V) (d : list (Z * V)) :
  dict_get Z.eqb k d = None -> dict_set Z.eqb k v d = (d ++ [(k, v)])%list.
Proof.
  induction d as [|[k' v'] d IH]; simpl; auto.
  destruct (Z.eqb k' k); [discriminate |].
  intros H. now rewrite IH.
Qed.

Lemma dict_set_length_present (k : Z) (v v0 : V) (d : list (Z * V)) :
  dict_get Z.eqb k d = Some v0 ->
  List.length (dict_set Z.eqb k v d) = List.length d.
Proof.
  induction d as [|[k' v'] d IH]; simpl; [discriminate |].
  destruct (Z.eqb k' k); simpl; auto.
Qed.

Lemma dict_get_set_same (k : Z) (v : V) (d : list (Z * V)) :
  dict_get Z.eqb k (dict_set Z.eqb k v d) = Some v.
Proof.
  induction d as [|[k' v'] d IH]; simpl.
  - now rewrite Z.eqb_refl.
  - destruct (Z.eqb k' k) eqn:E; simpl; rewrite E; auto.
Qed.

Lemma dict_get_set_other (k k' : Z) (v : V) (d : list (Z * V)) :
  k <> k' -> dict_get Z.eqb k' (dict_set Z.eqb k v d) = dict_get Z.eqb k' d.
Proof.
  intros Hne. induction d as [|[k0 v0] d IH]; simpl.
  - destruct (Z.eqb_spec k k'); [contradiction | reflexivity].
  - destruct (Z.eqb_spec k0 k); simpl.
    + subst k0. destruct (Z.eqb_spec k k'); [contradiction | reflexivity].
    + destruct (Z.eqb_spec k0 k'); auto.
Qed.

Lemma dict_set_length_le (k : Z) (v : V) (d : list (Z * V)) :
  (List.length d <= List.length (dict_set Z.eqb k v d))%nat.
Proof.
  induction d as [|[k' v'] d IH]; simpl; [lia |].
  destruct (Z.eqb k' k); simpl; lia.
Qed.

Lemma dict_get_app (k : Z) (d1 d2 : list (Z * V)) :
  dict_get Z.eqb k (d1 ++ d2)
  = match dict_get Z.eqb k d1 with
    | Some v => Some v
    | None => dict_get Z.eqb k d2
    end.
Proof.
  induction d1 as [|[k' v'] d1 IH]; simpl; auto.
  destruct (Z.eqb k' k); auto.
Qed.

Lemma dict_get_none_keys (k : Z) (d : list (Z * V)) :
  dict_get Z.eqb k d = None <-> ~ In k (map fst d).
Proof.
  induction d as [|[k' v'] d IH]; simpl.
  - split; auto.
  - destruct (Z.eqb_spec k' k).
    + split; [discriminate | intros H; exfalso; apply H; now left].
    + rewrite IH. split; intros H; [intros [?|?]; auto | auto].
Qed.

End DictFacts.

Section NodeTable.

Import Fort14Reader Notions.

Lemma indexed_keys (recs : list (Z * point)) (start : nat) :
  map fst (indexed start recs) = map fst recs.
Proof.
  revert start. induction recs as [|r recs IH]; intros start; simpl; auto.
  now rewrite IH.
Qed.

Lemma indexed_points (recs : list (Z * point)) (start : nat) :
  map fst (dict_values (indexed start recs)) = map snd recs.
Proof.
  revert start. induction recs as [|r recs IH]; intros start; simpl; auto.
  f_equal. apply IH.
Qed.

Lemma indexed_length (recs : list (Z * point)) (start : nat) :
  List.length (indexed start recs) = List.length recs.
Proof.
  revert start. induction recs as [|r recs IH]; intros start; simpl; auto.
Qed.

(** With pairwise distinct ids every node line adds an entry, numbered in
    the order read. *)
Lemma fold_add_node_distinct (recs : list (Z * point)) :
  forall m,
    NoDup (map fst recs) ->
    (forall rec, In rec recs -> dict_get Z.eqb (fst rec) m = None) ->
    fold_left add_node recs m = (m ++ indexed (List.length m) recs)%list.
Proof.
  induction recs as [|r recs IH]; intros m N F; simpl.
  - now rewrite app_nil_r.
  - inversion N as [|? ? Hnotin N']; subst.
    unfold add_node at 2. rewrite dict_set_fresh by (apply F; now left).
    rewrite IH; auto.
    + rewrite length_app, <- app_assoc. simpl.
      now replace (List.length m + 1)%nat with (S (List.length m)) by lia.
    + intros rec Hin. rewrite dict_get_app, (F rec) by now right.
      simpl. destruct (Z.eqb_spec (fst r) (fst rec)) as [E|E]; auto.
      exfalso. apply Hnotin. rewrite E. now apply in_map.
Qed.

Lemma indexed_get (recs : list (Z * point)) :
  forall start i rec,
    NoDup (map fst recs) ->
    nth_error recs i = Some rec ->
    dict_get Z.eqb (fst rec) (indexed start recs)
    = Some (snd rec, Z.of_nat (start + i)).
Proof.
  induction recs as [|r recs IH]; intros start i rec N H.
  - destruct i; discriminate.
  - inversion N as [|? ? Hnotin N']; subst. destruct i as [|i]; simpl in *.
    + inversion H; subst. rewrite Z.eqb_refl. now rewrite Nat.add_0_r.
    + destruct (Z.eqb_spec (fst r) (fst rec)) as [E|E].
      * exfalso. apply Hnotin. rewrite E. apply in_map.
        eapply nth_error_In; eauto.
      * rewrite (IH (S start) i rec N' H). do 3 f_equal. lia.
Qed.

(** An index found in the table of distinct ids is the position of the
    node line with that id. *)
Lemma indexed_get_inv (recs : list (Z * point)) :
  forall start id p idx,
    dict_get Z.eqb id (indexed start recs) = Some (p, idx) ->
    exists i, idx = Z.of_nat (start + i)
              /\ nth_error recs i = Some (id, p).
Proof.
  induction recs as [|r recs IH]; intros start id p idx H; simpl in H.
  - discriminate.
  - destruct (Z.eqb_spec (fst r) id) as [E|E].
    + inversion H; subst. exists 0%nat. rewrite Nat.add_0_r.
      split; auto. simpl. now destruct r.
    + destruct (IH _ _ _ _ H) as (i & -> & Hi).
      exists (S i). split; [f_equal; lia | exact Hi].
Qed.

End NodeTable.

Section Fort14Mesh.

Import Fort14Reader Notions.

Variable fos : string -> option float.
Variable TRIANGLE : Z.
Variable extents : list point -> point * point.

Lemma skipn_nth_error {A : Type} (l : list A) (k : nat) (x : A) :
  nth_error l k = Some x -> skipn k l = x :: skipn (S k) l.
Proof.
  revert k. induction l as [|h t IH]; intros [|k] H; simpl in *;
    try discriminate.
  - now inversion H.
  - now apply IH.
Qed.

Lemma next_line_data_ok (s s' : t) (toks : list string) :
  next_line_data s = (Ok toks, s') ->
  0 <= current_line s ->
  exists l,
    nth_error (lines s) (Z.to_nat (current_line s)) = Some l
    /\ toks = split l
    /\ s' = set_current_line (current_line s + 1) s.
Proof.
  unfold next_line_data, mbind, get, lift, modify, ret. intros H Hc.
  destruct (getitem (lines s) (current_line s)) as [l|] eqn:E;
    [| discriminate].
  inversion H; subst. exists l. repeat split; auto.
  apply getitem_nat. now rewrite Z2Nat.id.
Qed.

Lemma next_line_data_co_grid (s : t) :
  co_grid (snd (next_line_data s)) = co_grid s.
Proof.
  unfold next_line_data, mbind, get, lift, modify, ret.
  now destruct (getitem (lines s) (current_line s)).
Qed.

(** The node lines, read in order, each add their record to the map. *)
Lemma read_nodes_inv (n : nat) :
  forall s s',
    read_nodes fos n s = (Ok tt, s') ->
    0 <= current_line s ->
    exists recs,
      List.length recs = n
      /\ Forall2 (fun l rec => node_record fos (split l) = Ok rec)
           (firstn n (skipn (Z.to_nat (current_line s)) (lines s))) recs
      /\ s' = set_pt_map (fold_left add_node recs (pt_map s))
                (set_current_line (current_line s + Z.of_nat n) s).
Proof.
  induction n as [|n IH]; intros s s' H Hc; simpl in H.
  - inversion H; subst. exists []. repeat split; [constructor |].
    destruct s'; unfold set_pt_map, set_current_line; simpl.
    f_equal. lia.
  - unfold mbind at 1 in H.
    destruct (next_line_data s) as [[toks|e] s1] eqn:En; [| discriminate].
    destruct (next_line_data_ok _ _ _ En Hc) as (l & Hl & -> & ->).
    unfold mbind at 1, get in H. unfold mbind at 1, lift in H.
    destruct (node_record fos (split l)) as [rec|] eqn:Er; [| discriminate].
    unfold mbind at 1, modify in H.
    apply IH in H; [| simpl; lia].
    destruct H as (recs & L & F & ->).
    cbn [current_line lines pt_map set_pt_map set_current_line] in F.
    exists (rec :: recs). split; [simpl; lia |]. split.
    + rewrite (skipn_nth_error _ _ _ Hl). cbn [firstn]. constructor; auto.
      replace (S (Z.to_nat (current_line s)))
        with (Z.to_nat (current_line s + 1)) by lia.
      exact F.
    + cbn [fold_left]. unfold add_node at 2.
      destruct s; unfold set_pt_map, set_current_line; simpl.
      f_equal. lia.
Qed.

Lemma read_nodes_co_grid (n : nat) :
  forall s, co_grid (snd (read_nodes fos n s)) = co_grid s.
Proof.
  induction n as [|n IH]; intros s; simpl; auto.
  unfold mbind at 1. pose proof (next_line_data_co_grid s) as Hn.
  destruct (next_line_data s) as [[toks|e] s1]; simpl in Hn; auto.
  unfold mbind at 1, get. unfold mbind at 1, lift.
  destruct (node_record fos toks) as [rec|]; simpl; auto.
  unfold mbind at 1, modify. rewrite IH. simpl. exact Hn.
Qed.

(** The cell lines, read in order, each give their five stream values. *)
Lemma read_cells_inv (n : nat) :
  forall s s' cells,
    read_cells TRIANGLE n s = (Ok cells, s') ->
    0 <= current_line s ->
    List.length cells = n
    /\ Forall2 (fun l c => cell_record TRIANGLE (pt_map s) (split l) = Ok c)
         (firstn n (skipn (Z.to_nat (current_line s)) (lines s))) cells
    /\ s' = set_current_line (current_line s + Z.of_nat n) s.
Proof.
  induction n as [|n IH]; intros s s' cells H Hc; simpl in H.
  - inversion H; subst. repeat split; [constructor |].
    destruct s'; unfold set_current_line; simpl. f_equal. lia.
  - unfold mbind at 1, _get_cell_stream_vals in H.
    unfold mbind at 1 in H.
    destruct (next_line_data s) as [[toks|e] s1] eqn:En; [| discriminate].
    destruct (next_line_data_ok _ _ _ En Hc) as (l & Hl & -> & ->).
    unfold mbind at 1, get, lift in H. simpl pt_map in H.
    destruct (cell_record TRIANGLE (pt_map s) (split l)) as [c|] eqn:Er;
      [| discriminate].
    unfold mbind at 1 in H.
    destruct (read_cells TRIANGLE n (set_current_line (current_line s + 1) s))
      as [[cs|e] s2] eqn:Ec; [| discriminate].
    inversion H; subst.
    apply IH in Ec; [| simpl; lia].
    destruct Ec as (L & F & ->).
    cbn [current_line lines pt_map set_current_line] in F.
    split; [simpl; lia |]. split.
    + rewrite (skipn_nth_error _ _ _ Hl). cbn [firstn]. constructor; auto.
      replace (S (Z.to_nat (current_line s)))
        with (Z.to_nat (current_line s + 1)) by lia.
      exact F.
    + destruct s; unfold set_current_line; simpl. f_equal. lia.
Qed.

Lemma read_cells_co_grid (n : nat) :
  forall s, co_grid (snd (read_cells TRIANGLE n s)) = co_grid s.
Proof.
  induction n as [|n IH]; intros s; simpl; auto.
  unfold mbind at 1, _get_cell_stream_vals. unfold mbind at 1.
  pose proof (next_line_data_co_grid s) as Hn.
  destruct (next_line_data s) as [[toks|e] s1]; simpl in Hn; auto.
  unfold mbind at 1, get, lift.
  destruct (cell_record TRIANGLE (pt_map s1) toks) as [c|]; simpl; auto.
  unfold mbind at 1. specialize (IH s1).
  destruct (read_cells TRIANGLE n s1) as [[cs|e] s2]; simpl in *;
    congruence.
Qed.

(** What a read that returns has done. *)
Lemma read_inv (file_lines : list string) (g : option ugrid) (w : wkt_string)
  (s : t) :
  read fos TRIANGLE extents (Some file_lines) init = (Ok (g, w), s) ->
  exists recs cells,
    int_at (split (nth 1 file_lines EmptyString)) 0 = Ok (num_cells s)
    /\ int_at (split (nth 1 file_lines EmptyString)) 1 = Ok (num_nodes s)
    /\ List.length recs = Z.to_nat (num_nodes s)
    /\ Forall2 (fun l rec => node_record fos (split l) = Ok rec)
         (firstn (Z.to_nat (num_nodes s)) (skipn 2 file_lines)) recs
    /\ pt_map s = fold_left add_node recs []
    /\ List.length cells = Z.to_nat (num_cells s)
    /\ Forall2 (fun l c => cell_record TRIANGLE (pt_map s) (split l) = Ok c)
         (firstn (Z.to_nat (num_cells s))
            (skipn (2 + Z.to_nat (num_nodes s)) file_lines)) cells
    /\ g = Some (mk_ugrid (map fst (dict_values (pt_map s)))
                   (List.concat cells))
    /\ co_grid s = g
    /\ wkt s = w
    /\ w = (if within_geographic
                 (fst (extents (map fst (dict_values (pt_map s)))))
                 (snd (extents (map fst (dict_values (pt_map s)))))
            then GEOGRAPHIC_WKT else LOCAL_METERS_WKT).
Proof.
  destruct file_lines as [|l0 rest]; [discriminate |].
  unfold read. set (fl := l0 :: rest).
  unfold mbind at 1. unfold _parse_lines.
  unfold mbind at 1, modify at 1.
  unfold mbind at 1, get at 1.
  unfold mbind at 1, lift at 1.
  cbn [lines set_lines init current_line getitem].
  change (getitem fl 0) with (Ok l0). cbv iota beta.
  unfold mbind at 1, modify at 1.
  unfold mbind at 1, modify at 1.
  remember (set_current_line _ _) as s1 eqn:Es1.
  assert (Hs1 : current_line s1 = 1 /\ lines s1 = fl /\ pt_map s1 = []
                /\ co_grid s1 = None /\ assume_geo_coords s1 = false)
    by (subst s1; simpl; auto).
  clear Es1.
  destruct Hs1 as (C1 & L1 & P1 & G1 & A1).
  unfold _read_mesh.
  unfold mbind at 1.
  destruct (next_line_data s1) as [[toks|e] s2] eqn:En; [| discriminate].
  destruct (next_line_data_ok _ _ _ En ltac:(lia)) as (l1 & Hl1 & -> & ->).
  rewrite C1, L1 in Hl1. simpl in Hl1.
  assert (Hn1 : nth 1 fl EmptyString = l1)
    by (subst fl; destruct rest; simpl in *; congruence).
  unfold mbind at 1, lift at 1.
  destruct (int_at (split l1) 0) as [nc|] eqn:Enc; [| discriminate].
  unfold mbind at 1, modify at 1.
  unfold mbind at 1, lift at 1.
  destruct (int_at (split l1) 1) as [nn|] eqn:Enn; [| discriminate].
  unfold mbind at 1, modify at 1.
  remember (set_num_nodes nn _) as s3 eqn:Es3.
  assert (Hs3 : current_line s3 = 2 /\ lines s3 = fl /\ pt_map s3 = []
                /\ co_grid s3 = None /\ num_nodes s3 = nn
                /\ num_cells s3 = nc /\ assume_geo_coords s3 = false).
  { subst s3. simpl. rewrite C1, L1, P1, G1. repeat split; auto. }
  clear Es3.
  destruct Hs3 as (C3 & L3 & P3 & G3 & N3 & K3 & A3).
  unfold mbind at 1.
  destruct (read_nodes fos (range_len nn) s3) as [[[]|e] s4] eqn:Ern;
    [| discriminate].
  destruct (read_nodes_inv _ _ _ Ern ltac:(lia)) as (recs & Lr & Fr & Es4).
  rewrite C3, L3, P3 in *.
  unfold mbind at 1.
  destruct (read_cells TRIANGLE (range_len nc) s4) as [[cells|e] s5] eqn:Erc;
    [| discriminate].
  assert (C4 : current_line s4 = 2 + Z.of_nat (range_len nn))
    by (rewrite Es4; reflexivity).
  destruct (read_cells_inv _ _ _ _ Erc ltac:(lia)) as (Lc & Fc & Es5).
  unfold mbind at 1, get at 1.
  unfold mbind at 1, modify at 1.
  remember (map fst (dict_values (pt_map s5))) as pts eqn:Epts.
  destruct (extents pts) as [ex_min ex_max] eqn:Eex.
  remember (set_co_grid _ s5) as s6 eqn:Es6.
  assert (Hs6 : pt_map s6 = fold_left add_node recs []
                /\ num_nodes s6 = nn /\ num_cells s6 = nc
                /\ co_grid s6 = Some (mk_ugrid pts (List.concat cells))
                /\ assume_geo_coords s6 = false).
  { subst s6. rewrite Es5, Es4. simpl. rewrite N3, K3. auto. }
  destruct Hs6 as (P6 & N6 & K6 & G6 & A6).
  assert (Hpts : pts = map fst (dict_values (fold_left add_node recs []))).
  { subst pts. rewrite Es5, Es4. reflexivity. }
  clear Es6.
  assert (Fc' : Forall2
                  (fun l c => cell_record TRIANGLE (fold_left add_node recs [])
                                (split l) = Ok c)
                  (firstn (Z.to_nat nc) (skipn (2 + Z.to_nat nn) fl)) cells).
  { rewrite Es4 in Fc. cbn [pt_map lines current_line set_pt_map
                            set_current_line] in Fc.
    rewrite L3 in Fc. unfold range_len in Fc.
    replace (Z.to_nat (2 + Z.of_nat (Z.to_nat nn)))
      with (2 + Z.to_nat nn)%nat in Fc by lia.
    exact Fc. }
  intros H.
  exists recs, cells.
  destruct (within_geographic ex_min ex_max) eqn:Ew;
    unfold _assign_wkt in H; unfold modify, mbind, get, ret in H;
    simpl in H; rewrite ?A6 in H; simpl in H;
    injection H as Hg Hw Hs; subst g w s;
    cbn [pt_map num_nodes num_cells co_grid wkt set_wkt
         set_assume_geo_coords];
    rewrite ?P6, ?N6, ?K6, ?G6, <- ?Hpts, ?Eex; cbn [fst snd];
    rewrite ?Ew, ?Hn1; unfold range_len in *;
    repeat split; auto.
Qed.

(** A read that raises has built no grid. *)
Lemma read_raise_no_grid (file : option (list string)) (e : exn) (s : t) :
  read fos TRIANGLE extents file init = (Raise e, s) -> co_grid s = None.
Proof.
  destruct file as [[|l0 rest]|]; try (intros H; inversion H; reflexivity).
  unfold read. set (fl := l0 :: rest).
  unfold mbind at 1. unfold _parse_lines.
  unfold mbind at 1, modify at 1.
  unfold mbind at 1, get at 1.
  unfold mbind at 1, lift at 1.
  cbn [lines set_lines init current_line getitem].
  change (getitem fl 0) with (Ok l0). cbv iota beta.
  unfold mbind at 1, modify at 1.
  unfold mbind at 1, modify at 1.
  remember (set_current_line _ _) as s1 eqn:Es1.
  assert (G1 : co_grid s1 = None) by (subst s1; reflexivity).
  clear Es1.
  unfold _read_mesh.
  unfold mbind at 1.
  pose proof (next_line_data_co_grid s1) as F1.
  destruct (next_line_data s1) as [[toks|e1] s2]; simpl in F1.
  2:{ intros H; inversion H; subst. congruence. }
  unfold mbind at 1, lift at 1.
  destruct (int_at toks 0) as [nc|].
  2:{ intros H; inversion H; subst. congruence. }
  unfold mbind at 1, modify at 1.
  unfold mbind at 1, lift at 1.
  destruct (int_at toks 1) as [nn|].
  2:{ intros H; inversion H; subst. simpl. congruence. }
  unfold mbind at 1, modify at 1.
  remember (set_num_nodes nn _) as s3 eqn:Es3.
  assert (G3 : co_grid s3 = None) by (subst s3; simpl; congruence).
  clear Es3.
  unfold mbind at 1.
  pose proof (read_nodes_co_grid (range_len nn) s3) as F3.
  destruct (read_nodes fos (range_len nn) s3) as [[[]|e3] s4]; simpl in F3.
  2:{ intros H; inversion H; subst. congruence. }
  unfold mbind at 1.
  pose proof (read_cells_co_grid (range_len nc) s4) as F4.
  destruct (read_cells TRIANGLE (range_len nc) s4) as [[cells|e4] s5];
    simpl in F4.
  2:{ intros H; inversion H; subst. congruence. }
  unfold mbind at 1, get at 1.
  unfold mbind at 1, modify at 1.
  destruct (extents _) as [ex_min ex_max].
  unfold _assign_wkt.
  destruct (within_geographic ex_min ex_max);
    unfold modify, mbind, get, ret; simpl;
    try match goal with
        | |- context [if ?b then _ else _] => destruct b
        end; simpl; intros H; discriminate H.
Qed.

(** A cell line whose point ids are in the map gives their indices. *)
Lemma cell_record_inv (m : point_map) (toks : list string) (c : list Z) :
  cell_record TRIANGLE m toks = Ok c ->
  exists id1 id2 id3 p1 p2 p3 i1 i2 i3,
    int_at toks 2 = Ok id1 /\ int_at toks 3 = Ok id2
    /\ int_at toks 4 = Ok id3
    /\ dict_get Z.eqb id1 m = Some (p1, i1)
    /\ dict_get Z.eqb id2 m = Some (p2, i2)
    /\ dict_get Z.eqb id3 m = Some (p3, i3)
    /\ c = [TRIANGLE; 3; i1; i2; i3].
Proof.
  unfold cell_record, point_index_at. simpl.
  destruct (int_at toks 2) as [id1|]; [| discriminate]. simpl.
  destruct (dict_get Z.eqb id1 m) as [[p1 i1]|] eqn:E1; [| discriminate].
  simpl.
  destruct (int_at toks 3) as [id2|]; [| discriminate]. simpl.
  destruct (dict_get Z.eqb id2 m) as [[p2 i2]|] eqn:E2; [| discriminate].
  simpl.
  destruct (int_at toks 4) as [id3|]; [| discriminate]. simpl.
  destruct (dict_get Z.eqb id3 m) as [[p3 i3]|] eqn:E3; [| discriminate].
  simpl. intros H; inversion H; subst.
  exists id1, id2, id3, p1, p2, p3, i1, i2, i3. repeat split; auto.
Qed.

(** A point id that is not in the node table is a [KeyError]. *)
Lemma point_index_at_absent (m : point_map) (toks : list string) (i id : Z) :
  int_at toks i = Ok id -> dict_get Z.eqb id m = None ->
  point_index_at m toks i = Raise KeyError.
Proof. unfold point_index_at. intros -> E. simpl. now rewrite E. Qed.

Lemma node_record_inv (toks : list string) (rec : Z * point) :
  node_record fos toks = Ok rec ->
  exists x y depth,
    float_at fos toks 1 = Ok x /\ float_at fos toks 2 = Ok y
    /\ float_at fos toks 3 = Ok depth
    /\ int_at toks 0 = Ok (fst rec)
    /\ snd rec = (x, y, fmul depth minus_one).
Proof.
  unfold node_record.
  destruct (float_at fos toks 1) as [x|]; [| discriminate]. simpl.
  destruct (float_at fos toks 2) as [y|]; [| discriminate]. simpl.
  destruct (float_at fos toks 3) as [d|]; [| discriminate]. simpl.
  destruct (int_at toks 0) as [id|]; [| discriminate]. simpl.
  intros H; inversion H; subst. exists x, y, d. repeat split; auto.
Qed.

(** The ids of the records are the point ids of their lines. *)
Lemma node_records_ids (ls : list string) (recs : list (Z * point)) :
  Forall2 (fun l rec => node_record fos (split l) = Ok rec) ls recs ->
  map point_id ls = map (fun rec => Ok (fst rec)) recs.
Proof.
  induction 1 as [|l rec ls recs H F IH]; cbn [map]; auto.
  destruct (node_record_inv _ _ H) as (x & y & d & _ & _ & _ & Hid & _).
  rewrite IH. unfold point_id. now rewrite Hid.
Qed.

Lemma node_records_distinct (ls : list string) (recs : list (Z * point)) :
  Forall2 (fun l rec => node_record fos (split l) = Ok rec) ls recs ->
  NoDup (map point_id ls) -> NoDup (map fst recs).
Proof.
  intros F N. rewrite (node_records_ids _ _ F) in N.
  rewrite <- (map_map fst (@Ok Z)) in N.
  eapply NoDup_map_inv; eauto.
Qed.

End Fort14Mesh.

Section Fort14Grid.

Import Fort14Reader Notions.

Variable fos : string -> option float.
Variable TRIANGLE : Z.
Variable extents : list point -> point * point.

Lemma Forall2_nth_error_r {A B : Type} (R : A -> B -> Prop)
  (l1 : list A) (l2 : list B) :
  Forall2 R l1 l2 ->
  forall i y, nth_error l2 i = Some y ->
              exists x, nth_error l1 i = Some x /\ R x y.
Proof.
  induction 1 as [|a b l1 l2 H F IH]; intros [|i] y Hy; simpl in *;
    try discriminate.
  - inversion Hy; subst. eauto.
  - eauto.
Qed.

Lemma Forall2_map_r {A B C : Type} (R : A -> C -> Prop) (f : B -> C)
  (l1 : list A) (l2 : list B) :
  Forall2 (fun a b => R a (f b)) l1 l2 -> Forall2 R l1 (map f l2).
Proof. induction 1; simpl; constructor; auto. Qed.

(** With distinct point ids the map numbers the node lines in order. *)
Lemma distinct_table (ls : list string) (recs : list (Z * point)) :
  Forall2 (fun l rec => node_record fos (split l) = Ok rec) ls recs ->
  NoDup (map point_id ls) ->
  fold_left add_node recs [] = indexed 0 recs.
Proof.
  intros F N. apply (node_records_distinct fos _ _ F) in N.
  rewrite fold_add_node_distinct; auto.
Qed.

Lemma remapped_of_get (ls : list string) (recs : list (Z * point))
  (toks : list string) (k id : Z) (p : point) (idx : Z) :
  Forall2 (fun l rec => node_record fos (split l) = Ok rec) ls recs ->
  int_at toks k = Ok id ->
  dict_get Z.eqb id (indexed 0 recs) = Some (p, idx) ->
  remapped ls (List.length recs) toks k idx.
Proof.
  intros F Hk Hg.
  destruct (indexed_get_inv _ _ _ _ _ Hg) as (i & -> & Hi).
  destruct (Forall2_nth_error_r _ _ _ F _ _ Hi) as (l & Hl & Hr).
  destruct (node_record_inv fos _ _ Hr) as (_ & _ & _ & _ & _ & _ & Hid & _).
  exists id, i, l. repeat split; auto.
  apply nth_error_Some. congruence.
Qed.

(** C5.  A mesh file that is read, with non-negative counts in its header
    and pairwise distinct point ids: the grid has as many points as the
    header says nodes and as many cells as it says cells; every cell is
    the triangle code, 3 and three indices, each the 0-based position
    (below the point count) of the node line with the point id of the
    cell line; and each point has the coordinates of its node line with
    the depth times -1.0 as z.  A read that raises leaves no grid, and a
    point id that is not in the node table raises [KeyError]. *)
Theorem fort14_mesh_valid :
  (forall (file_lines : list string) (g : option ugrid) (w : wkt_string)
          (s : t),
      read fos TRIANGLE extents (Some file_lines) init = (Ok (g, w), s) ->
      0 <= num_nodes s ->
      0 <= num_cells s ->
      NoDup (map point_id (node_lines file_lines (num_nodes s))) ->
      exists grid cells,
        g = Some grid
        /\ int_at (split (nth 1 file_lines EmptyString)) 0 = Ok (num_cells s)
        /\ int_at (split (nth 1 file_lines EmptyString)) 1 = Ok (num_nodes s)
        /\ Z.of_nat (List.length (locations grid)) = num_nodes s
        /\ cellstream grid = List.concat cells
        /\ Z.of_nat (List.length cells) = num_cells s
        /\ Forall2
             (fun l c =>
                exists i1 i2 i3,
                  c = [TRIANGLE; 3; i1; i2; i3]
                  /\ remapped (node_lines file_lines (num_nodes s))
                       (List.length (locations grid)) (split l) 2 i1
                  /\ remapped (node_lines file_lines (num_nodes s))
                       (List.length (locations grid)) (split l) 3 i2
                  /\ remapped (node_lines file_lines (num_nodes s))
                       (List.length (locations grid)) (split l) 4 i3)
             (cell_lines file_lines (num_nodes s) (num_cells s)) cells
        /\ Forall2
             (fun l p =>
                exists x y depth,
                  float_at fos (split l) 1 = Ok x
                  /\ float_at fos (split l) 2 = Ok y
                  /\ float_at fos (split l) 3 = Ok depth
                  /\ p = (x, y, fmul depth minus_one))
             (node_lines file_lines (num_nodes s)) (locations grid))
  /\ (forall (file : option (list string)) (e : exn) (s : t),
         read fos TRIANGLE extents file init = (Raise e, s) ->
         co_grid s = None)
  /\ (forall (m : point_map) (toks : list string) (i id : Z),
         int_at toks i = Ok id -> dict_get Z.eqb id m = None ->
         point_index_at m toks i = Raise KeyError).
Proof.
  split; [| split; [apply read_raise_no_grid | apply point_index_at_absent]].
  intros file_lines g w s H Hn Hc N.
  destruct (read_inv fos TRIANGLE extents _ _ _ _ H)
    as (recs & cells & Hnc & Hnn & Lr & Fr & Pm & Lc & Fc & Hg & _).
  fold (node_lines file_lines (num_nodes s)) in Fr.
  fold (cell_lines file_lines (num_nodes s) (num_cells s)) in Fc.
  rewrite Pm in *. rewrite (distinct_table _ _ Fr N) in *.
  rewrite indexed_points in Hg.
  eexists. exists cells. split; [exact Hg |]. simpl.
  rewrite length_map, Lr, Lc.
  split; [exact Hnc |]. split; [exact Hnn |]. split; [lia |].
  split; [reflexivity |]. split; [lia |]. split.
  - eapply Forall2_impl; [| exact Fc]. intros l c Hcell.
    destruct (cell_record_inv _ _ _ _ Hcell)
      as (id1 & id2 & id3 & p1 & p2 & p3 & i1 & i2 & i3
          & H1 & H2 & H3 & G1 & G2 & G3 & ->).
    exists i1, i2, i3. rewrite <- Lr.
    split; [reflexivity |].
    split; [| split]; eapply remapped_of_get; eauto.
  - apply Forall2_map_r. eapply Forall2_impl; [| exact Fr].
    intros l rec Hr.
    destruct (node_record_inv fos _ _ Hr) as (x & y & d & Hx & Hy & Hd & _ & E).
    exists x, y, d. auto.
Qed.

(** C6.  The mesh reader takes no projection hint.  The projection it
    returns is the geographic one if and only if the extents of the grid
    have min x >= -180, max x <= 180, min y >= -90 and max y <= 90, and
    the local one in meters otherwise.  With extents that are the least
    and greatest coordinates, a mesh with an x coordinate of 200 is local
    and a mesh within the bounds is geographic. *)
Theorem fort14_coordinate_system
  (file_lines : list string) (g : option ugrid) (w : wkt_string) (s : t) :
  read fos TRIANGLE extents (Some file_lines) init = (Ok (g, w), s) ->
  (exists grid min_x min_y min_z max_x max_y max_z,
      g = Some grid
      /\ extents (locations grid)
         = ((min_x, min_y, min_z), (max_x, max_y, max_z))
      /\ (w = GEOGRAPHIC_WKT
          <-> fgeb min_x (SFopp f180) = true /\ fleb max_x f180 = true
              /\ fgeb min_y (SFopp f90) = true /\ fleb max_y f90 = true)
      /\ (w <> GEOGRAPHIC_WKT -> w = LOCAL_METERS_WKT))
  /\ (let local_mesh :=
        text_lines ["grid"; "2 4";
                    "1 0.0 0.0 5.0"; "2 200.0 0.0 5.0";
                    "3 200.0 10.0 1.5"; "4 0.0 10.0 2.0";
                    "1 3 1 2 3"; "2 3 1 3 4"] in
      let geographic_mesh :=
        text_lines ["grid"; "2 4";
                    "1 -90.5 30.0 5.0"; "2 -90.0 30.0 5.0";
                    "3 -90.0 30.5 1.5"; "4 -90.5 30.5 2.0";
                    "1 3 1 2 3"; "2 3 1 3 4"] in
      let tag lines :=
        option_map snd
          (match fst (read decimal_float 5 minmax_extents (Some lines) init)
           with Ok r => Some r | Raise _ => None end) in
      tag local_mesh = Some LOCAL_METERS_WKT
      /\ tag geographic_mesh = Some GEOGRAPHIC_WKT).
Proof.
  intros H. split; [| split; vm_compute; reflexivity].
  destruct (read_inv fos TRIANGLE extents _ _ _ _ H)
    as (recs & cells & _ & _ & _ & _ & _ & _ & _ & Hg & _ & _ & Hw).
  destruct (extents (map fst (dict_values (pt_map s))))
    as [[[min_x min_y] min_z] [[max_x max_y] max_z]] eqn:Ex.
  eexists. exists min_x, min_y, min_z, max_x, max_y, max_z.
  split; [exact Hg |]. simpl locations. split; [exact Ex |].
  unfold within_geographic in Hw. cbn [fst snd] in Hw. subst w.
  destruct (fgeb min_x (SFopp f180)), (fgeb min_y (SFopp f90)),
    (fleb max_x f180), (fleb max_y f90); cbn [andb];
    (split; [split; [intros E; try discriminate E; auto
                    | intros (? & ? & ? & ?); try discriminate; auto]
            | intros E; try reflexivity; exfalso; now apply E ]).
Qed.

End Fort14Grid.

Section Fort14Indices.

Import Fort14Reader Notions.

Variable fos : string -> option float.

(** An index in the map never passes the size of the map. *)
Lemma add_node_index_bound (m : point_map) (rec : Z * point) :
  (forall id p idx, dict_get Z.eqb id m = Some (p, idx) ->
                    idx <= Z.of_nat (List.length m)) ->
  forall id p idx, dict_get Z.eqb id (add_node m rec) = Some (p, idx) ->
                   idx <= Z.of_nat (List.length (add_node m rec)).
Proof.
  intros Hm id p idx H. unfold add_node in *.
  pose proof (dict_set_length_le (fst rec)
                (snd rec, Z.of_nat (List.length m)) m) as Hle.
  destruct (Z.eqb_spec (fst rec) id) as [E|Hne].
  - subst id. rewrite dict_get_set_same in H. inversion H; subst. lia.
  - assert (Hget := dict_get_set_other (fst rec) id
                      (snd rec, Z.of_nat (List.length m)) m Hne).
    rewrite Hget in H. apply Hm in H. lia.
Qed.

(** So an index stored while the node lines are read is at most the final
    number of points: it can reach that number but not pass it. *)
Lemma read_nodes_index_bound (n : nat) (s s' : t) :
  pt_map s = [] ->
  0 <= current_line s ->
  read_nodes fos n s = (Ok tt, s') ->
  forall id p idx,
    dict_get Z.eqb id (pt_map s') = Some (p, idx) ->
    idx <= Z.of_nat (List.length (map fst (dict_values (pt_map s')))).
Proof.
  intros Hm Hc H.
  destruct (read_nodes_inv fos _ _ _ H Hc) as (recs & _ & _ & ->).
  cbn [pt_map set_pt_map]. rewrite Hm. unfold dict_values.
  rewrite !length_map. clear H Hc Hm.
  assert (G : forall m,
             (forall id p idx, dict_get Z.eqb id m = Some (p, idx) ->
                               idx <= Z.of_nat (List.length m)) ->
             forall id p idx,
               dict_get Z.eqb id (fold_left add_node recs m) = Some (p, idx) ->
               idx <= Z.of_nat (List.length (fold_left add_node recs m))).
  { induction recs as [|r recs IH]; intros m Hb; simpl; auto.
    apply IH. now apply add_node_index_bound. }
  apply G. intros id p idx Hd. discriminate Hd.
Qed.

(** C10.  The index of a node line is the size of the point map when the
    line is read.  From an empty map and with pairwise distinct point ids,
    the i-th node line gets index i and the map ends with one entry per
    line.  A line whose point id is in the map already overwrites that
    entry, gets the size of the map as its index and leaves the size as it
    was; in the file with the point ids 1, 2, 1 the third line gets index
    2, the grid has 2 points and the cell that names point 1 holds the
    index 2, which is no index of a point. *)
Theorem node_index_is_map_size :
  (forall (n : nat) (s s' : t),
      pt_map s = [] ->
      0 <= current_line s ->
      read_nodes fos n s = (Ok tt, s') ->
      NoDup (map point_id
               (firstn n (skipn (Z.to_nat (current_line s)) (lines s)))) ->
      List.length (pt_map s') = n
      /\ List.length (map fst (dict_values (pt_map s'))) = n
      /\ forall i l,
          nth_error (firstn n (skipn (Z.to_nat (current_line s)) (lines s))) i
          = Some l ->
          exists rec,
            node_record fos (split l) = Ok rec
            /\ dict_get Z.eqb (fst rec) (pt_map s')
               = Some (snd rec, Z.of_nat i))
  /\ (forall (s : t) (l : string) (rec : Z * point) (old : point * Z),
         0 <= current_line s ->
         nth_error (lines s) (Z.to_nat (current_line s)) = Some l ->
         node_record fos (split l) = Ok rec ->
         dict_get Z.eqb (fst rec) (pt_map s) = Some old ->
         exists s',
           read_nodes fos 1 s = (Ok tt, s')
           /\ dict_get Z.eqb (fst rec) (pt_map s')
              = Some (snd rec, Z.of_nat (List.length (pt_map s)))
           /\ List.length (pt_map s') = List.length (pt_map s))
  /\ (let lines := text_lines ["grid"; "1 3";
                               "1 0.0 0.0 5.0"; "2 10.0 0.0 5.0";
                               "1 10.0 10.0 1.5";
                               "1 3 1 2 1"] in
      let out := read decimal_float 5 minmax_extents (Some lines) init in
      option_map (fun g => (List.length (locations g), cellstream g))
        (co_grid (snd out))
      = Some (2%nat, [5; 3; 2; 1; 2])
      /\ option_map snd (dict_get Z.eqb 1 (pt_map (snd out))) = Some 2).
Proof.
  split; [| split; [| vm_compute; split; reflexivity]].
  - intros n s s' Hm Hc H N.
    destruct (read_nodes_inv fos _ _ _ H Hc) as (recs & L & F & ->).
    cbn [pt_map set_pt_map]. rewrite Hm.
    pose proof (node_records_distinct fos _ _ F N) as Nd.
    rewrite fold_add_node_distinct by auto. cbn [app List.length].
    rewrite indexed_points, length_map, indexed_length.
    split; [exact L |]. split; [exact L |].
    intros i l Hl.
    assert (Hi : (i < List.length recs)%nat).
    { rewrite <- (Forall2_length F). apply nth_error_Some. congruence. }
    destruct (nth_error recs i) as [rec|] eqn:Er;
      [| apply nth_error_None in Er; lia].
    destruct (Forall2_nth_error_r _ _ _ F _ _ Er) as (l' & Hl' & Hr).
    assert (l' = l) by congruence. subst l'.
    exists rec. split; [exact Hr |].
    now rewrite (indexed_get recs 0 i rec Nd Er).
  - intros s l rec old Hc Hl Hr Ho.
    eexists. split.
    + simpl. unfold mbind at 1.
      unfold next_line_data, mbind, get, lift, modify, ret.
      assert (Hg : getitem (lines s) (current_line s) = Ok l).
      { rewrite <- (Z2Nat.id (current_line s)) by lia. now apply getitem_nat. }
      rewrite Hg. cbn [pt_map set_current_line]. rewrite Hr. reflexivity.
    + cbn [pt_map set_pt_map set_current_line]. split.
      * apply dict_get_set_same.
      * eapply dict_set_length_present; eauto.
Qed.

End Fort14Indices.

(** Sample meshes for the statements above. *)
Lemma fort14_mesh_valid_witness :
  let lines := text_lines ["grid"; "2 4";
                           "1 0.0 0.0 5.0"; "2 10.0 0.0 5.0";
                           "4 10.0 10.0 1.5"; "7 0.0 10.0 2.0";
                           "1 3 1 2 4"; "2 3 1 4 7"] in
  let out := Fort14Reader.read decimal_float 5 Fort14Reader.minmax_extents
               (Some lines) Fort14Reader.init in
  NoDup (map Notions.point_id (Notions.node_lines lines 4))
  /\ exists grid,
      fst out = Ok (Some grid, Fort14Reader.GEOGRAPHIC_WKT)
      /\ Z.of_nat (List.length (Fort14Reader.locations grid)) = 4
      /\ Fort14Reader.cellstream grid = [5; 3; 0; 1; 2; 5; 3; 0; 2; 3].
Proof.
  intros lines out.
  assert (N : NoDup (map Notions.point_id (Notions.node_lines lines 4))).
  { vm_compute. repeat constructor; simpl; intuition discriminate. }
  split; [exact N |].
  destruct out as [res s] eqn:E.
  assert (Hres : exists grid, res = Ok (Some grid, Fort14Reader.GEOGRAPHIC_WKT)
                              /\ Fort14Reader.cellstream grid
                                 = [5; 3; 0; 1; 2; 5; 3; 0; 2; 3]
                              /\ Fort14Reader.num_nodes s = 4
                              /\ Fort14Reader.num_cells s = 2).
  { unfold out in E. vm_compute in E. inversion E; subst.
    eexists. repeat split; reflexivity. }
  destruct Hres as (grid & -> & Hcs & Hn & Hc).
  destruct (proj1 (fort14_mesh_valid decimal_float 5
                     Fort14Reader.minmax_extents)
              lines (Some grid) Fort14Reader.GEOGRAPHIC_WKT s E)
    as (grid' & cells & Hg & _ & _ & Hp & _); rewrite ?Hn, ?Hc; try lia;
    try exact N.
  inversion Hg; subst grid'. rewrite Hn in Hp.
  exists grid. simpl. repeat split; auto.
Defined.

Lemma fort14_coordinate_system_witness :
  let lines := text_lines ["grid"; "2 4";
                           "1 0.0 0.0 5.0"; "2 200.0 0.0 5.0";
                           "3 200.0 10.0 1.5"; "4 0.0 10.0 2.0";
                           "1 3 1 2 3"; "2 3 1 3 4"] in
  exists grid s min_x min_y min_z max_x max_y max_z,
    Fort14Reader.read decimal_float 5 Fort14Reader.minmax_extents
      (Some lines) Fort14Reader.init
    = (Ok (Some grid, Fort14Reader.LOCAL_METERS_WKT), s)
    /\ Fort14Reader.minmax_extents (Fort14Reader.locations grid)
       = ((min_x, min_y, min_z), (max_x, max_y, max_z))
    /\ ~ (fgeb min_x (SFopp Fort14Reader.f180) = true
          /\ fleb max_x Fort14Reader.f180 = true
          /\ fgeb min_y (SFopp Fort14Reader.f90) = true
          /\ fleb max_y Fort14Reader.f90 = true).
Proof.
  intros lines.
  destruct (Fort14Reader.read decimal_float 5 Fort14Reader.minmax_extents
              (Some lines) Fort14Reader.init) as [res s] eqn:E.
  assert (Hres : exists grid,
             res = Ok (Some grid, Fort14Reader.LOCAL_METERS_WKT)).
  { vm_compute in E. inversion E; subst. eexists. reflexivity. }
  destruct Hres as (grid & ->).
  destruct (fort14_coordinate_system decimal_float 5
              Fort14Reader.minmax_extents lines (Some grid)
              Fort14Reader.LOCAL_METERS_WKT s E)
    as [(grid' & min_x & min_y & min_z & max_x & max_y & max_z
         & Hg & Ex & Hiff & _) _].
  inversion Hg; subst grid'.
  exists grid, s, min_x, min_y, min_z, max_x, max_y, max_z.
  split; [reflexivity |]. split; [exact Ex |].
  intros Hall. apply Hiff in Hall. discriminate Hall.
Defined.

Lemma node_index_is_map_size_witness :
  let lines := text_lines ["1 0.0 0.0 5.0"; "2 10.0 0.0 5.0";
                           "1 10.0 10.0 1.5"] in
  let s := Fort14Reader.set_lines lines Fort14Reader.init in
  let s2 := snd (Fort14Reader.read_nodes decimal_float 2 s) in
  Fort14Reader.read_nodes decimal_float 2 s = (Ok tt, s2)
  /\ List.length (Fort14Reader.pt_map s2) = 2%nat
  /\ exists s3,
       Fort14Reader.read_nodes decimal_float 1 s2 = (Ok tt, s3)
       /\ option_map snd (dict_get Z.eqb 1 (Fort14Reader.pt_map s3)) = Some 2
       /\ List.length (Fort14Reader.pt_map s3) = 2%nat.
Proof.
  intros lines s s2.
  assert (H : Fort14Reader.read_nodes decimal_float 2 s = (Ok tt, s2))
    by (vm_compute; reflexivity).
  split; [exact H |].
  destruct (node_index_is_map_size decimal_float) as (D & R & _).
  destruct (D 2%nat s s2) as (L & _ & _); auto; try (simpl; lia).
  { vm_compute. repeat constructor; simpl; intuition discriminate. }
  split; [exact L |].
  destruct (R s2 (nth 2 lines "")
              (1, (of_Z 10, of_Z 10,
                   fmul (fdiv (of_Z 3) (of_Z 2)) Fort14Reader.minus_one))
              (zero, zero, fmul (of_Z 5) Fort14Reader.minus_one, 0))
    as (s3 & E3 & G3 & L3); try (vm_compute; congruence).
  exists s3. split; [exact E3 |]. split.
  - cbn [fst snd] in G3. rewrite G3. cbn [option_map snd]. now rewrite L.
  - now rewrite L3.
Defined.

(** ** Levee pairs of the boundary coverages *)

Section ArcLists.

Import InitialFort14Reader Notions.

Variable uninitialized : Z.

Lemma nth_error_app_old {A : Type} (l l' : list A) (i : nat) (x : A) :
  nth_error l i = Some x -> nth_error (l ++ l') i = Some x.
Proof.
  intros H. rewrite nth_error_app1; auto.
  apply nth_error_Some. congruence.
Qed.

Lemma nth_error_app_at0 {A : Type} (l : list A) (a : A) (rest : list A)
      (k : nat) :
  k = List.length l -> nth_error (l ++ a :: rest) k = Some a.
Proof.
  intros ->. rewrite nth_error_app2, Nat.sub_diag by lia. reflexivity.
Qed.

Lemma nth_error_app_at1 {A : Type} (l : list A) (a b : A) (rest : list A)
      (k : nat) :
  k = S (List.length l) -> nth_error (l ++ a :: b :: rest) k = Some b.
Proof.
  intros ->. rewrite nth_error_app2 by lia.
  replace (S (List.length l) - List.length l)%nat with 1%nat by lia.
  reflexivity.
Qed.

Lemma nth_app_at0 (l : list Z) (a : Z) (rest : list Z) (k : nat) :
  k = List.length l -> nth k (l ++ a :: rest) 0 = a.
Proof.
  intros ->. rewrite app_nth2, Nat.sub_diag by lia. reflexivity.
Qed.

Lemma nth_app_at1 (l : list Z) (a b : Z) (rest : list Z) (k : nat) :
  k = S (List.length l) -> nth k (l ++ a :: b :: rest) 0 = b.
Proof.
  intros ->. rewrite app_nth2 by lia.
  replace (S (List.length l) - List.length l)%nat with 1%nat by lia.
  reflexivity.
Qed.

Lemma length_slice (l : list Z) (start n : nat) :
  List.length (firstn n (skipn start l))
  = Nat.min n (List.length l - start).
Proof. rewrite length_firstn, length_skipn. reflexivity. Qed.

(** A nodestring keeps its nodes when the lists grow at the end. *)
Lemma arc_nodes_grow (c c' : coverage) (i : nat) (n : Z)
      (starts counts ns : list Z) :
  aligned c ->
  nth_error (node_count_data c) i = Some n ->
  nodes_start_idx_data c' = (nodes_start_idx_data c ++ starts)%list ->
  node_count_data c' = (node_count_data c ++ counts)%list ->
  nodes c' = (nodes c ++ ns)%list ->
  List.length (arc_nodes c i) = Z.to_nat n ->
  List.length (arc_nodes c' i) = Z.to_nat n.
Proof.
  intros (A1 & A2 & A3) Hn Es En Eno H.
  assert (Hi : (i < List.length (node_count_data c))%nat)
    by (apply nth_error_Some; congruence).
  unfold arc_nodes in *. rewrite Es, En, Eno.
  rewrite !app_nth1 by lia.
  rewrite (nth_error_nth _ _ 0 Hn) in *.
  rewrite length_slice in *. rewrite length_app. lia.
Qed.

(** A nodestring without a partner keeps the lists in step and the links
    as they are. *)
Lemma linked_single (c c' : coverage) (id start n : Z) (ns : list Z) :
  aligned c -> linked uninitialized c ->
  arc_lists c'
  = ((comp_id_data c ++ [id])%list,
     (partner_id_data c ++ [uninitialized])%list,
     (nodes_start_idx_data c ++ [start])%list,
     (node_count_data c ++ [n])%list) ->
  nodes c' = (nodes c ++ ns)%list ->
  aligned c' /\ linked uninitialized c'.
Proof.
  intros A L E Eno. pose proof A as (A1 & A2 & A3). unfold arc_lists in E.
  injection E as Ec Ep Es En.
  split.
  - unfold aligned. rewrite Ec, Ep, Es, En, !length_app. simpl. lia.
  - intros i p Hi Hp. rewrite Ep in Hi.
    destruct (Nat.lt_ge_cases i (List.length (partner_id_data c))) as [Hlt|Hge].
    + rewrite nth_error_app1 in Hi by exact Hlt.
      destruct (L i p Hi Hp)
        as (j & m & k & -> & Hj & Pj & Ci & Cj & Ii & Ij & Ni & Nj).
      exists j, m, k.
      split; [reflexivity|]. split; [exact Hj|].
      split; [rewrite Ep; auto using nth_error_app_old|].
      split; [rewrite En; auto using nth_error_app_old|].
      split; [rewrite En; auto using nth_error_app_old|].
      split; [rewrite Ec; auto using nth_error_app_old|].
      split; [rewrite Ec; auto using nth_error_app_old|].
      split; eapply arc_nodes_grow; eauto.
    + rewrite nth_error_app2 in Hi by exact Hge.
      destruct (i - List.length (partner_id_data c))%nat as [|[|k]];
        simpl in Hi; try discriminate.
      inversion Hi. congruence.
Qed.

(** A levee pair adds two nodestrings that are each other's partner, with
    one node count and one component; the nodes of the first side start
    where [nodes] ended, the nodes of the second side follow them. *)
Lemma linked_pair (c c' : coverage) (id n : Z) (ns : list Z) :
  aligned c -> linked uninitialized c ->
  arc_lists c'
  = ((comp_id_data c ++ [id; id])%list,
     (partner_id_data c
        ++ [Z.of_nat (List.length (partner_id_data c)) + 1;
            Z.of_nat (List.length (partner_id_data c))])%list,
     (nodes_start_idx_data c
        ++ [Z.of_nat (List.length (nodes c));
            Z.of_nat (List.length (nodes c)) + n])%list,
     (node_count_data c ++ [n; n])%list) ->
  nodes c' = (nodes c ++ ns)%list ->
  List.length ns = (2 * Z.to_nat n)%nat ->
  aligned c' /\ linked uninitialized c'.
Proof.
  intros A L E Eno Hns. pose proof A as (A1 & A2 & A3).
  unfold arc_lists in E. injection E as Ec Ep Es En.
  set (len := List.length (partner_id_data c)) in *.
  split.
  - unfold aligned. rewrite Ec, Ep, Es, En, !length_app. simpl. lia.
  - intros i p Hi Hp. rewrite Ep in Hi.
    destruct (Nat.lt_ge_cases i len) as [Hlt|Hge].
    + rewrite nth_error_app1 in Hi by exact Hlt.
      destruct (L i p Hi Hp)
        as (j & m & k & -> & Hj & Pj & Ci & Cj & Ii & Ij & Ni & Nj).
      exists j, m, k.
      split; [reflexivity|]. split; [exact Hj|].
      split; [rewrite Ep; auto using nth_error_app_old|].
      split; [rewrite En; auto using nth_error_app_old|].
      split; [rewrite En; auto using nth_error_app_old|].
      split; [rewrite Ec; auto using nth_error_app_old|].
      split; [rewrite Ec; auto using nth_error_app_old|].
      split; eapply arc_nodes_grow; eauto.
    + rewrite nth_error_app2 in Hi by exact Hge. fold len in Hi.
      assert (S0 : List.length
                     (arc_nodes c' (List.length (node_count_data c)))
                   = Z.to_nat n).
      { unfold arc_nodes. rewrite Es, En, Eno.
        rewrite (nth_app_at0 (node_count_data c)) by reflexivity.
        rewrite (nth_app_at0 (nodes_start_idx_data c)) by lia.
        rewrite length_slice, length_app. lia. }
      assert (S1 : List.length
                     (arc_nodes c' (S (List.length (node_count_data c))))
                   = Z.to_nat n).
      { unfold arc_nodes. rewrite Es, En, Eno.
        rewrite (nth_app_at1 (node_count_data c)) by reflexivity.
        rewrite (nth_app_at1 (nodes_start_idx_data c)) by lia.
        rewrite length_slice, length_app. lia. }
      replace (List.length (node_count_data c)) with len in S0, S1
        by (unfold len; lia).
      destruct (i - len)%nat as [|[|k]] eqn:Ek; simpl in Hi;
        try (destruct k; discriminate).
      * assert (i = len) by lia. subst i.
        injection Hi as Hi; subst p.
        exists (S len), n, id. rewrite Ep, En, Ec.
        split; [lia|]. split; [lia|].
        repeat split; try assumption;
          first [ apply nth_error_app_at0; unfold len; lia
                | apply nth_error_app_at1; unfold len; lia ].
      * assert (i = S len) by lia. subst i.
        injection Hi as Hi; subst p.
        exists len, n, id. rewrite Ep, En, Ec.
        split; [reflexivity|]. split; [lia|].
        replace (Z.of_nat (S len)) with (Z.of_nat len + 1) by lia.
        repeat split; try assumption;
          first [ apply nth_error_app_at0; unfold len; lia
                | apply nth_error_app_at1; unfold len; lia ].
Qed.

End ArcLists.

Section CoverageFrames.

Import InitialFort14Reader Notions.

Variable fos : string -> option float.

(** [snap_locations[idx].append(locs)] touches the display lists only. *)
Lemma snap_append_cov (idx : Z) (locs : list float) (c c' : coverage)
      (r : result unit) :
  snap_append idx locs c = (r, c') ->
  exists snap, c' = set_snap_locations snap c.
Proof.
  unfold snap_append. unfold mbind at 1, get.
  rewrite mbind_lift.
  destruct (getitem (snap_locations c) idx) as [bucket|e].
  - rewrite mbind_lift.
    destruct (setitem (snap_locations c) idx (bucket ++ [locs])%list)
      as [snap|e].
    + unfold modify. intros E. injection E as _ <-. eauto.
    + intros E. injection E as _ <-. exists (snap_locations c).
      destruct c; reflexivity.
  - intros E. injection E as _ <-. exists (snap_locations c).
    destruct c; reflexivity.
Qed.

(** The node lines of an arc add one node each to [nodes]. *)
Lemma read_arc_nodes_cov (n : nat) :
  forall river locs s c out s' c',
    read_arc_nodes n river locs (s, c) = (Ok out, (s', c')) ->
    exists ns, List.length ns = n /\ c' = set_nodes (nodes c ++ ns) c.
Proof.
  induction n as [|n IH]; intros river locs s c out s' c' E; simpl in E.
  - injection E as _ _ <-. exists []. split; [reflexivity|].
    rewrite app_nil_r. destruct c; reflexivity.
  - rewrite mbind_on_self in E.
    destruct (next_line s) as [[l|e] s1]; [|discriminate].
    rewrite mbind_on_self in E.
    destruct (point_at (split l) 0 s1) as [[pt|e] s2]; [|discriminate].
    unfold on_cov, extend_nodes in E. rewrite mbind_on_fh in E.
    unfold modify at 1 in E.
    destruct river.
    + rewrite mbind_on_self in E. unfold modify at 1 in E.
      apply IH in E. destruct E as (ns & L & ->).
      exists ((snd pt + 1) :: ns). split; [simpl; lia|].
      unfold set_nodes; simpl. rewrite <- app_assoc. reflexivity.
    + rewrite mbind_ret in E.
      apply IH in E. destruct E as (ns & L & ->).
      exists ((snd pt + 1) :: ns). split; [simpl; lia|].
      unfold set_nodes; simpl. rewrite <- app_assoc. reflexivity.
Qed.

(** The loop of [_read_levee_outflow] gives one row for each line. *)
Lemma read_levee_outflow_rows_length (u : Z) (n : nat) :
  forall rows locs s rows' locs' s',
    read_levee_outflow_rows fos u n rows locs s = (Ok (rows', locs'), s') ->
    List.length rows' = (List.length rows + n)%nat.
Proof.
  induction n as [|n IH]; intros rows locs s rows' locs' s' E; simpl in E.
  - injection E as <- _ _. lia.
  - unfold mbind at 1 in E.
    destruct (next_line s) as [[l|e] s1]; [|discriminate].
    unfold mbind at 1 in E.
    destruct (point_at (split l) 0 s1) as [[pt|e] s2]; [|discriminate].
    rewrite mbind_lift in E.
    destruct (InitialFort14Reader.float_at fos (split l) 1); [|discriminate].
    rewrite mbind_lift in E.
    destruct (InitialFort14Reader.float_at fos (split l) 2); [|discriminate].
    apply IH in E. rewrite E, length_app. simpl. lia.
Qed.

(** The loop of [_read_levee_and_pipe] gives one row for each line, and
    touches the display lists only. *)
Lemma read_levee_rows_cov (fr : Z) (n : nat) :
  forall rows l1 l2 s c rows' l1' l2' s' c',
    read_levee_rows fos fr n rows l1 l2 (s, c)
    = (Ok (rows', l1', l2'), (s', c')) ->
    List.length rows' = (List.length rows + n)%nat
    /\ exists snap, c' = set_snap_locations snap c.
Proof.
  induction n as [|n IH]; intros rows l1 l2 s c rows' l1' l2' s' c' E;
    simpl in E.
  - injection E as <- _ _ _ <-. split; [lia|].
    exists (snap_locations c). destruct c; reflexivity.
  - rewrite mbind_on_self in E.
    destruct (next_line s) as [[l|e] s1]; [|discriminate].
    rewrite mbind_lift in E.
    destruct (InitialFort14Reader.int_at (split (partition_head "!" l)) 0)
      as [pt1_id|]; [|discriminate].
    rewrite mbind_lift in E.
    destruct (InitialFort14Reader.int_at (split (partition_head "!" l)) 1)
      as [pt2_id|]; [|discriminate].
    rewrite mbind_on_self in E. unfold get at 1 in E.
    rewrite mbind_lift in E.
    destruct (dict_item Z.eqb pt1_id (pt_map s1)) as [pt1|]; [|discriminate].
    rewrite mbind_lift in E.
    destruct (dict_item Z.eqb pt2_id (pt_map s1)) as [pt2|]; [|discriminate].
    rewrite mbind_lift in E.
    destruct (InitialFort14Reader.float_at fos _ 2); [|discriminate].
    rewrite mbind_lift in E.
    destruct (InitialFort14Reader.float_at fos _ 3); [|discriminate].
    rewrite mbind_lift in E.
    destruct (InitialFort14Reader.float_at fos _ 4); [|discriminate].
    unfold mbind at 1 in E.
    match type of E with
    | match ?pipe (?s0, ?c0) with _ => _ end = _ =>
        assert (Hp : exists snap,
                   snd (snd (pipe (s0, c0))) = set_snap_locations snap c);
        [| destruct (pipe (s0, c0)) as [[[[[on pz] pd] pc]|e] [s2 c2]];
           [|discriminate] ]
    end.
    + destruct (7 <? _).
      * rewrite mbind_lift.
        destruct (InitialFort14Reader.float_at fos _ 5) as [ph|];
          [| exists (snap_locations c); destruct c; reflexivity].
        unfold mbind at 1.
        destruct (SFltb ph f100).
        -- unfold on_cov. rewrite mbind_on_fh.
           destruct (snap_append _ _ c) as [[[]|e] c1] eqn:Es;
             apply snap_append_cov in Es; destruct Es as (snap & ->).
           ++ unfold ret at 1; cbv beta iota. rewrite mbind_lift.
              destruct (InitialFort14Reader.float_at fos _ 6);
                [| simpl; eauto].
              rewrite mbind_lift.
              destruct (InitialFort14Reader.float_at fos _ 7); simpl; eauto.
           ++ simpl; eauto.
        -- unfold ret at 1; cbv beta iota. rewrite mbind_lift.
           destruct (InitialFort14Reader.float_at fos _ 6);
             [| exists (snap_locations c); destruct c; reflexivity].
           rewrite mbind_lift.
           destruct (InitialFort14Reader.float_at fos _ 7);
             exists (snap_locations c); destruct c; reflexivity.
      * exists (snap_locations c); destruct c; reflexivity.
    + simpl in Hp. destruct Hp as (snap & ->).
      apply IH in E. destruct E as (L & snap' & ->).
      split; [rewrite L, length_app; simpl; lia|].
      exists snap'. reflexivity.
Qed.

End CoverageFrames.

Section CoverageInvariant.

Import InitialFort14Reader Notions.

Variable fos : string -> option float.
Variables OCEAN_INDEX MAINLAND_INDEX ISLAND_INDEX RIVER_INDEX : Z.
Variables LEVEE_OUTFLOW_INDEX LEVEE_INDEX RADIATION_INDEX : Z.
Variables ZERO_NORMAL_INDEX FLOW_AND_RADIATION_INDEX UNASSIGNED_INDEX : Z.
Variables NATURAL_INDEX ESSENTIAL_INDEX : Z.
Variable UNINITIALIZED_COMP_ID : Z.
Variable default_atts : bc_atts.

Local Abbreviation populate :=
  (_populate_bc_atts MAINLAND_INDEX ISLAND_INDEX RIVER_INDEX
     LEVEE_OUTFLOW_INDEX LEVEE_INDEX RADIATION_INDEX ZERO_NORMAL_INDEX
     FLOW_AND_RADIATION_INDEX NATURAL_INDEX ESSENTIAL_INDEX).
Local Abbreviation ocean_arc :=
  (read_ocean_arc OCEAN_INDEX UNINITIALIZED_COMP_ID default_atts).
Local Abbreviation ocean_section :=
  (read_ocean_section OCEAN_INDEX UNINITIALIZED_COMP_ID default_atts).
Local Abbreviation levee_outflow :=
  (_read_levee_outflow fos LEVEE_OUTFLOW_INDEX UNINITIALIZED_COMP_ID).
Local Abbreviation levee_and_pipe :=
  (_read_levee_and_pipe fos LEVEE_INDEX FLOW_AND_RADIATION_INDEX).
Local Abbreviation land_arc :=
  (read_land_arc fos MAINLAND_INDEX ISLAND_INDEX RIVER_INDEX
     LEVEE_OUTFLOW_INDEX LEVEE_INDEX RADIATION_INDEX ZERO_NORMAL_INDEX
     FLOW_AND_RADIATION_INDEX NATURAL_INDEX ESSENTIAL_INDEX
     UNINITIALIZED_COMP_ID default_atts).
Local Abbreviation land_arcs :=
  (read_land_arcs fos MAINLAND_INDEX ISLAND_INDEX RIVER_INDEX
     LEVEE_OUTFLOW_INDEX LEVEE_INDEX RADIATION_INDEX ZERO_NORMAL_INDEX
     FLOW_AND_RADIATION_INDEX NATURAL_INDEX ESSENTIAL_INDEX
     UNINITIALIZED_COMP_ID default_atts).
Local Abbreviation generic_arcs :=
  (read_generic_arcs UNASSIGNED_INDEX UNINITIALIZED_COMP_ID default_atts).
Local Abbreviation sections :=
  (read_sections fos OCEAN_INDEX MAINLAND_INDEX ISLAND_INDEX RIVER_INDEX
     LEVEE_OUTFLOW_INDEX LEVEE_INDEX RADIATION_INDEX ZERO_NORMAL_INDEX
     FLOW_AND_RADIATION_INDEX UNASSIGNED_INDEX NATURAL_INDEX ESSENTIAL_INDEX
     UNINITIALIZED_COMP_ID default_atts).

(** The lists are in step and the partner links are those of levee pairs. *)
Local Abbreviation inv c := (aligned c /\ linked UNINITIALIZED_COMP_ID c).

Lemma mbind_on_cov_modify {B : Type} (g : coverage -> coverage)
      (f : unit -> M (t * coverage) B) (s : t) (c : coverage) :
  mbind (on_cov (modify g)) f (s, c) = f tt (s, g c).
Proof. reflexivity. Qed.

Lemma mbind_on_cov_len_nodes {B : Type} (f : Z -> M (t * coverage) B)
      (s : t) (c : coverage) :
  mbind (on_cov len_nodes) f (s, c)
  = f (Z.of_nat (List.length (nodes c))) (s, c).
Proof. reflexivity. Qed.

Lemma mbind_on_cov_get {B : Type} (f : coverage -> M (t * coverage) B)
      (s : t) (c : coverage) :
  mbind (on_cov get) f (s, c) = f c (s, c).
Proof. reflexivity. Qed.

Lemma mbind_on_self_get {B : Type} (f : t -> M (t * coverage) B)
      (s : t) (c : coverage) :
  mbind (on_self get) f (s, c) = f s (s, c).
Proof. reflexivity. Qed.

Lemma mbind_on_self_modify {B : Type} (g : t -> t)
      (f : unit -> M (t * coverage) B) (s : t) (c : coverage) :
  mbind (on_self (modify g)) f (s, c) = f tt (g s, c).
Proof. reflexivity. Qed.

Lemma add_bc_atts_id (s : t) :
  fst (add_bc_atts default_atts s) = Ok (next_comp_id s).
Proof. reflexivity. Qed.

Lemma on_cov_snap_append (idx : Z) (locs : list float) (s s' : t)
      (c c' : coverage) (r : result unit) :
  on_cov (snap_append idx locs) (s, c) = (r, (s', c')) ->
  exists snap, c' = set_snap_locations snap c.
Proof.
  unfold on_cov, on_fh. destruct (snap_append idx locs c) as [r1 c1] eqn:E.
  intros H. injection H as _ _ <-. eapply snap_append_cov; eauto.
Qed.

Ltac cov_steps E :=
  unfold push_comp_id, push_partner_id, push_nodes_start_idx,
    push_node_count, extend_nodes, extend_levee_coords, extend_levee_data
    in E;
  repeat first [ rewrite mbind_on_cov_modify in E
               | rewrite mbind_on_cov_len_nodes in E
               | rewrite mbind_on_cov_get in E ].

(** An ocean arc is one nodestring without a partner. *)
Lemma read_ocean_arc_inv (s s' : t) (c c' : coverage) :
  ocean_arc (s, c) = (Ok tt, (s', c')) -> inv c -> inv c'.
Proof.
  intros E [A L]. unfold read_ocean_arc in E.
  rewrite mbind_on_self in E.
  destruct (next_line s) as [[l|e] s1]; [|discriminate].
  rewrite mbind_lift in E.
  destruct (InitialFort14Reader.int_at (split l) 0) as [n|]; [|discriminate].
  rewrite mbind_on_self in E.
  destruct (add_bc_atts default_atts s1) as [[id|e] s2]; [|discriminate].
  rewrite mbind_on_self in E.
  destruct (set_type id OCEAN_INDEX s2) as [[[]|e] s3]; [|discriminate].
  cov_steps E.
  unfold mbind at 1 in E.
  match type of E with
  | match ?m ?x with _ => _ end = _ =>
      destruct (m x) as [[out|e] [s4 c4]] eqn:En; [|discriminate]
  end.
  apply read_arc_nodes_cov in En. destruct En as (ns & Ln & ->).
  apply on_cov_snap_append in E. destruct E as (snap & ->).
  eapply linked_single with (ns := ns); eauto; reflexivity.
Qed.

(** A levee-outflow arc adds its nodes and its rows, no nodestring. *)
Lemma _read_levee_outflow_cov (n : Z) (s s' : t) (c c' : coverage) :
  levee_outflow n (s, c) = (Ok tt, (s', c')) ->
  exists ns, arc_lists c' = arc_lists c /\ nodes c' = (nodes c ++ ns)%list.
Proof.
  intros E. unfold _read_levee_outflow in E.
  rewrite mbind_on_self in E.
  destruct (read_levee_outflow_rows fos UNINITIALIZED_COMP_ID _ [] [] s)
    as [[[rows locs]|e] s1]; [|discriminate].
  cov_steps E. unfold on_cov in E. rewrite mbind_on_fh in E.
  destruct (snap_append _ _ _) as [[[]|e] c1] eqn:Es; [|discriminate].
  apply snap_append_cov in Es. destruct Es as (snap & ->).
  unfold on_fh, modify in E. injection E as _ <-.
  exists (map node1 rows). split; reflexivity.
Qed.

(** The rows of a levee pair give the nodes of its two sides, one node
    of each side for every line. *)
Lemma _read_levee_and_pipe_cov (n : Z) (s s' : t) (c c' : coverage) :
  levee_and_pipe n (s, c) = (Ok tt, (s', c')) ->
  exists side1 side2,
    arc_lists c' = arc_lists c
    /\ nodes c' = (nodes c ++ side1 ++ side2)%list
    /\ List.length side1 = Z.to_nat n
    /\ List.length side2 = Z.to_nat n.
Proof.
  intros E. unfold _read_levee_and_pipe in E.
  unfold mbind at 1 in E.
  destruct (read_levee_rows fos FLOW_AND_RADIATION_INDEX _ [] [] [] (s, c))
    as [[[[rows l1] l2]|e] [s1 c1]] eqn:Er; [|discriminate].
  apply read_levee_rows_cov in Er. destruct Er as (Lr & snap & ->).
  cov_steps E. unfold on_cov in E. rewrite mbind_on_fh in E.
  destruct (snap_append _ _ _) as [[[]|e] c1] eqn:Es; [|discriminate].
  apply snap_append_cov in Es. destruct Es as (snap1 & ->).
  rewrite mbind_on_fh in E.
  destruct (snap_append _ _ _) as [[[]|e] c1] eqn:Es; [|discriminate].
  apply snap_append_cov in Es. destruct Es as (snap2 & ->).
  unfold on_fh, modify in E. injection E as _ <-.
  exists (map node1 rows), (map node2 rows).
  unfold arc_lists, range_len in *; simpl in *.
  rewrite !length_map, <- app_assoc. repeat split; lia.
Qed.

(** A land arc of a levee type (IBTYPE ending in 4 or 5) is recorded as
    two nodestrings of the new component: each has the node count of the
    header, the partner of the first is the index of the second and the
    partner of the second the index of the first; the nodes of the two
    sides follow each other in [nodes]. *)
Lemma read_land_arc_levee_pair (n ib : Z) (s s' : t) (c c' : coverage) :
  (ib mod 10 =? 4) || (ib mod 10 =? 5) = true ->
  land_arc n ib (s, c) = (Ok tt, (s', c')) ->
  exists side1 side2,
    arc_lists c'
    = ((comp_id_data c ++ [next_comp_id s; next_comp_id s])%list,
       (partner_id_data c
          ++ [Z.of_nat (List.length (partner_id_data c)) + 1;
              Z.of_nat (List.length (partner_id_data c))])%list,
       (nodes_start_idx_data c
          ++ [Z.of_nat (List.length (nodes c));
              Z.of_nat (List.length (nodes c)) + n])%list,
       (node_count_data c ++ [n; n])%list)
    /\ nodes c' = (nodes c ++ side1 ++ side2)%list
    /\ List.length side1 = Z.to_nat n
    /\ List.length side2 = Z.to_nat n.
Proof.
  intros Hib E. unfold read_land_arc in E.
  rewrite mbind_on_self in E.
  pose proof (add_bc_atts_id s) as Hid.
  destruct (add_bc_atts default_atts s) as [[id|e] s1]; [|discriminate].
  simpl in Hid. injection Hid as ->.
  rewrite mbind_on_self in E.
  destruct (populate ib (next_comp_id s) s1) as [[[]|e] s2]; [|discriminate].
  cov_steps E.
  assert (H3 : (ib mod 10 =? 3) = false).
  { apply Z.eqb_neq. intros H3. rewrite H3 in Hib. discriminate. }
  rewrite H3, Hib in E.
  cov_steps E.
  apply _read_levee_and_pipe_cov in E.
  destruct E as (side1 & side2 & El & En & L1 & L2).
  exists side1, side2. rewrite El, En. unfold arc_lists; simpl.
  rewrite <- !app_assoc. simpl. repeat split; assumption.
Qed.

Lemma read_land_arc_inv (n ib : Z) (s s' : t) (c c' : coverage) :
  land_arc n ib (s, c) = (Ok tt, (s', c')) -> inv c -> inv c'.
Proof.
  intros E [A L].
  destruct ((ib mod 10 =? 4) || (ib mod 10 =? 5)) eqn:Hib.
  - destruct (read_land_arc_levee_pair _ _ _ _ _ _ Hib E)
      as (side1 & side2 & El & En & L1 & L2).
    eapply linked_pair with (ns := (side1 ++ side2)%list); eauto.
    rewrite length_app. lia.
  - unfold read_land_arc in E.
    rewrite mbind_on_self in E.
    destruct (add_bc_atts default_atts s) as [[id|e] s1]; [|discriminate].
    rewrite mbind_on_self in E.
    destruct (populate ib id s1) as [[[]|e] s2]; [|discriminate].
    cov_steps E. rewrite Hib in E.
    destruct (ib mod 10 =? 3).
    + cov_steps E. apply _read_levee_outflow_cov in E.
      destruct E as (ns & El & En).
      apply (linked_single _ c c' id (Z.of_nat (List.length (nodes c))) n ns
               A L); [rewrite El | rewrite En]; reflexivity.
    + cov_steps E. rewrite mbind_on_self_get, mbind_lift in E.
      destruct (dict_item Z.eqb id (arcs s2)) as [atts|]; [|discriminate].
      unfold mbind at 1 in E.
      match type of E with
      | match ?m ?x with _ => _ end = _ =>
          destruct (m x) as [[out|e] [s4 c4]] eqn:En; [|discriminate]
      end.
      apply read_arc_nodes_cov in En. destruct En as (ns & Ln & ->).
      apply on_cov_snap_append in E. destruct E as (snap & ->).
      eapply linked_single with (ns := ns); eauto; reflexivity.
Qed.

Lemma empty_coverage_inv : inv empty_coverage.
Proof.
  split.
  - repeat split.
  - intros i p Hi. destruct i; discriminate.
Qed.

Lemma for_range_ocean_inv (n : nat) :
  forall s c s' c',
    for_range n ocean_arc (s, c) = (Ok tt, (s', c')) -> inv c -> inv c'.
Proof.
  induction n as [|n IH]; intros s c s' c' E I; simpl in E.
  - injection E as _ <-. exact I.
  - unfold mbind at 1 in E.
    destruct (ocean_arc (s, c)) as [[[]|e] [s1 c1]] eqn:Ea; [|discriminate].
    eapply IH; eauto using read_ocean_arc_inv.
Qed.

Lemma read_ocean_section_inv (s s' : t) (c c' : coverage) :
  ocean_section (s, c) = (Ok tt, (s', c')) -> inv c -> inv c'.
Proof.
  intros E I. unfold read_ocean_section in E.
  rewrite mbind_on_self_get in E.
  destruct (current_line s <? _).
  - rewrite mbind_lift in E.
    destruct (getitem (lines s) (current_line s)) as [l|]; [|discriminate].
    rewrite mbind_on_self_modify, mbind_lift in E.
    destruct (if is_nil (split l) then Ok 0
              else InitialFort14Reader.int_at (split l) 0) as [n|];
      [|discriminate].
    unfold mbind at 1 in E.
    destruct (for_range (range_len n) ocean_arc _)
      as [[[]|e] [s1 c1]] eqn:Ef; [|discriminate].
    rewrite mbind_on_cov_get in E.
    unfold on_self, modify in E. injection E as _ <-.
    eapply for_range_ocean_inv; eauto.
  - injection E as _ <-. exact I.
Qed.

Lemma read_land_arcs_inv (n : nat) :
  forall num_lines line s c r s' c',
    land_arcs n num_lines line (s, c) = (Ok r, (s', c')) -> inv c -> inv c'.
Proof.
  induction n as [|n IH]; intros num_lines line s c r s' c' E I; simpl in E.
  - injection E as _ _ <-. exact I.
  - rewrite mbind_on_self_get in E.
    destruct (num_lines <=? current_line s).
    + injection E as _ _ <-. exact I.
    + rewrite mbind_on_self in E.
      destruct (next_line s) as [[l|e] s1]; [|discriminate].
      destruct (is_empty l).
      * injection E as _ _ <-. exact I.
      * rewrite mbind_lift in E.
        destruct (land_header l) as [[[num_arc_nodes ib_type]|]|];
          [| injection E as _ _ <-; exact I | discriminate].
        unfold mbind at 1 in E.
        destruct (land_arc num_arc_nodes ib_type (s1, c))
          as [[[]|e] [s2 c2]] eqn:Ea; [|discriminate].
        eapply IH; eauto using read_land_arc_inv.
Qed.

Lemma read_generic_arcs_inv (n : nat) :
  forall num_lines s c s' c',
    generic_arcs n num_lines (s, c) = (Ok tt, (s', c')) -> inv c -> inv c'.
Proof.
  induction n as [|n IH]; intros num_lines s c s' c' E [A L]; simpl in E.
  - injection E as _ <-. split; assumption.
  - rewrite mbind_on_self_get in E.
    destruct (num_lines <=? current_line s).
    + injection E as _ <-. split; assumption.
    + rewrite mbind_on_self in E.
      destruct (next_line s) as [[l|e] s1]; [|discriminate].
      destruct (is_empty l).
      * injection E as _ <-. split; assumption.
      * rewrite mbind_lift in E.
        destruct (InitialFort14Reader.int_at (split l) 0) as [m|];
          [|discriminate].
        rewrite mbind_on_self in E.
        destruct (add_bc_atts default_atts s1) as [[id|e] s2];
          [|discriminate].
        cov_steps E.
        unfold mbind at 1 in E.
        match type of E with
        | match ?m ?x with _ => _ end = _ =>
            destruct (m x) as [[out|e] [s4 c4]] eqn:En; [|discriminate]
        end.
        apply read_arc_nodes_cov in En. destruct En as (ns & Ln & ->).
        unfold on_cov in E. rewrite mbind_on_fh in E.
        destruct (snap_append _ _ _) as [[[]|e] c1] eqn:Es; [|discriminate].
        apply snap_append_cov in Es. destruct Es as (snap & ->).
        eapply IH; [exact E|].
        eapply linked_single with (ns := ns); eauto; reflexivity.
Qed.

Lemma read_sections_inv (s s' : t) (c c' : coverage) :
  sections (s, c) = (Ok tt, (s', c')) -> inv c -> inv c'.
Proof.
  intros E I. unfold read_sections in E.
  unfold mbind at 1 in E.
  destruct (ocean_section (s, c)) as [[[]|e] [s1 c1]] eqn:Eo; [|discriminate].
  apply read_ocean_section_inv in Eo; [|exact I].
  rewrite mbind_on_self_get in E.
  unfold mbind at 1 in E.
  match type of E with
  | match ?m ?x with _ => _ end = _ =>
      assert (Hl : snd (snd (m x)) = c1);
      [| destruct (m x) as [[line|e] [s2 c2]]; [|discriminate] ]
  end.
  { destruct (current_line s1 <? _); [|reflexivity].
    rewrite mbind_lift.
    destruct (getitem (lines s1) (current_line s1)); reflexivity. }
  simpl in Hl. subst c2.
  rewrite mbind_lift in E.
  destruct (if is_empty line then Ok 0
            else InitialFort14Reader.int_at (split line) 0) as [n|];
    [|discriminate].
  unfold mbind at 1 in E.
  destruct (land_arcs (range_len n) _ _ (s2, c1))
    as [[[read_next_line line']|e] [s3 c3]] eqn:El; [|discriminate].
  apply read_land_arcs_inv in El; [|exact Eo].
  rewrite mbind_on_self_get in E.
  unfold mbind at 1 in E.
  match type of E with
  | match ?m ?x with _ => _ end = _ =>
      assert (Hl : snd (snd (m x)) = c3);
      [| destruct (m x) as [[line2|e] [s4 c4]]; [|discriminate] ]
  end.
  { destruct (read_next_line && _); [|reflexivity].
    unfold on_self. destruct (next_line s3); reflexivity. }
  simpl in Hl. subst c4.
  rewrite mbind_lift in E.
  destruct (if is_nil (split line2) then Ok 0
            else InitialFort14Reader.int_at (split line2) 0) as [g|];
    [|discriminate].
  rewrite mbind_on_self_modify in E.
  eapply read_generic_arcs_inv; eauto.
Qed.

(** C9: a land arc of a levee type (IBTYPE ending in 4 or 5) is recorded
    as two nodestrings with the node count of its header, each the
    partner of the other, with one node of each side for every line read;
    and in the datasets of a coverage read to its end, every partner link
    leads to a nodestring that links back, with the same node count, the
    same component and as many nodes. *)
Theorem levee_pairs_symmetric :
  (forall n ib s c s' c',
      (ib mod 10 =? 4) || (ib mod 10 =? 5) = true ->
      land_arc n ib (s, c) = (Ok tt, (s', c')) ->
      let a := List.length (partner_id_data c) in
      let b := S (List.length (partner_id_data c)) in
      (aligned c ->
       nth_error (partner_id_data c') a = Some (Z.of_nat b)
       /\ nth_error (partner_id_data c') b = Some (Z.of_nat a)
       /\ nth_error (node_count_data c') a = Some n
       /\ nth_error (node_count_data c') b = Some n
       /\ List.length (arc_nodes c' a) = List.length (arc_nodes c' b))
      /\ List.length (partner_id_data c') = S b)
  /\ (forall s s',
        _read_coverages fos OCEAN_INDEX MAINLAND_INDEX ISLAND_INDEX
          RIVER_INDEX LEVEE_OUTFLOW_INDEX LEVEE_INDEX RADIATION_INDEX
          ZERO_NORMAL_INDEX FLOW_AND_RADIATION_INDEX UNASSIGNED_INDEX
          NATURAL_INDEX ESSENTIAL_INDEX UNINITIALIZED_COMP_ID default_atts s
        = (Ok tt, s') ->
        exists c,
          mapped_data s' = Some c
          /\ aligned c
          /\ linked UNINITIALIZED_COMP_ID c).
Proof.
  split.
  - intros n ib s c s' c' Hib E a b.
    destruct (read_land_arc_levee_pair _ _ _ _ _ _ Hib E)
      as (side1 & side2 & El & En & L1 & L2).
    unfold arc_lists in El. injection El as Ec Ep Es Ek.
    split.
    + intros (A1 & A2 & A3). subst a b. rewrite Ep, Ek.
      split; [rewrite nth_error_app_at0 by reflexivity; f_equal; lia|].
      split; [apply nth_error_app_at1; reflexivity|].
      split; [apply nth_error_app_at0; lia|].
      split; [apply nth_error_app_at1; lia|].
      unfold arc_nodes. rewrite Es, Ek, En.
      rewrite (nth_app_at0 (node_count_data c)) by lia.
      rewrite (nth_app_at1 (node_count_data c)) by lia.
      rewrite (nth_app_at0 (nodes_start_idx_data c)) by lia.
      rewrite (nth_app_at1 (nodes_start_idx_data c)) by lia.
      rewrite !length_slice, !length_app. lia.
    + subst b. rewrite Ep, length_app. simpl. lia.
  - intros s s' E. unfold _read_coverages in E.
    destruct (sections (s, empty_coverage)) as [[[]|e] [s1 c1]] eqn:Es;
      [|discriminate].
    injection E as <-. exists c1.
    split; [reflexivity|].
    eapply read_sections_inv; eauto using empty_coverage_inv.
Qed.

End CoverageInvariant.

(** A coverage with an ocean arc, a levee pair with a pipe, and a
    mainland arc. *)
Lemma levee_pairs_symmetric_witness :
  let pt (i : Z) := (i + 1, ((of_Z i, of_Z i, zero), i)) in
  let s := InitialFort14Reader.mk
             (text_lines ["1 = ocean arcs"; "2 = ocean nodes"; "2"; "1"; "2";
                          "2 = land arcs"; "5 total"; "2 24 = levee pair";
                          "3 4 1.5 1.0 1.0 ! c";
                          "5 6 1.5 1.0 1.0 50.0 0.5 0.3"; "1 0"; "2"])
             0 (map pt [0; 1; 2; 3; 4; 5]) [] [] [] 0 None in
  let out := InitialFort14Reader._read_coverages decimal_float
               0 1 2 3 4 5 6 7 8 9 0 1 (-1)
               (InitialFort14Reader.mk_atts 9 0 0 0) s in
  fst out = Ok tt
  /\ exists c,
       InitialFort14Reader.mapped_data (snd out) = Some c
       /\ InitialFort14Reader.partner_id_data c = [-1; 2; 1; -1]
       /\ InitialFort14Reader.node_count_data c = [2; 2; 2; 1]
       /\ InitialFort14Reader.nodes c = [1; 2; 3; 5; 4; 6; 2]
       /\ Notions.arc_nodes c 1 = [3; 5]
       /\ Notions.arc_nodes c 2 = [4; 6]
       /\ Notions.aligned c
       /\ Notions.linked (-1) c.
Proof.
  intros pt s out.
  destruct out as [res s'] eqn:E.
  assert (Hres : res = Ok tt
                 /\ option_map InitialFort14Reader.partner_id_data
                      (InitialFort14Reader.mapped_data s')
                    = Some [-1; 2; 1; -1]
                 /\ option_map InitialFort14Reader.node_count_data
                      (InitialFort14Reader.mapped_data s')
                    = Some [2; 2; 2; 1]
                 /\ option_map InitialFort14Reader.nodes
                      (InitialFort14Reader.mapped_data s')
                    = Some [1; 2; 3; 5; 4; 6; 2]
                 /\ option_map (fun c => Notions.arc_nodes c 1)
                      (InitialFort14Reader.mapped_data s') = Some [3; 5]
                 /\ option_map (fun c => Notions.arc_nodes c 2)
                      (InitialFort14Reader.mapped_data s') = Some [4; 6]).
  { unfold out in E. vm_compute in E. inversion E; subst.
    repeat split; reflexivity. }
  destruct Hres as (-> & Hp & Hn & Hno & H1 & H2).
  destruct (proj2 (levee_pairs_symmetric decimal_float 0 1 2 3 4 5 6 7 8 9
                     0 1 (-1) (InitialFort14Reader.mk_atts 9 0 0 0))
              s s' E) as (c & Hc & A & L).
  split; [reflexivity|].
  exists c. rewrite Hc in Hp, Hn, Hno, H1, H2. simpl in Hp, Hn, Hno, H1, H2.
  injection Hp as Hp. injection Hn as Hn. injection Hno as Hno.
  injection H1 as H1. injection H2 as H2.
  repeat (split; [assumption|]). exact L.
Defined.

(** * Further properties of the readers *)

(** ** The fort.63.nc reader *)

Section NullHandling.

(** The two assignments of the scalar and vector reads amount to one:
    every NaN becomes the null value, and nothing else changes. *)
Lemma null_through_nan (x : float) :
  (let y := if feqb x ADCIRC_NULL_VALUE then nan else x in
   if isnan y then ADCIRC_NULL_VALUE else y)
  = if isnan x then ADCIRC_NULL_VALUE else x.
Proof.
  cbv zeta. destruct (feqb x ADCIRC_NULL_VALUE) eqn:E.
  - apply feqb_null_eq in E. subst x. reflexivity.
  - reflexivity.
Qed.

Lemma null_handling_elems (a : ndarray) :
  arr_elems (assign_where_nan ADCIRC_NULL_VALUE
               (assign_where_eq ADCIRC_NULL_VALUE nan a))
  = map (fun x => if isnan x then ADCIRC_NULL_VALUE else x) (arr_elems a).
Proof.
  rewrite scalar_null_handling_elems. apply map_ext.
  intros x. apply null_through_nan.
Qed.

Lemma null_handling_no_nan (a : ndarray) :
  Forall (fun x => isnan x = false)
    (arr_elems (assign_where_nan ADCIRC_NULL_VALUE
                  (assign_where_eq ADCIRC_NULL_VALUE nan a))).
Proof.
  rewrite null_handling_elems. apply Forall_map, Forall_forall.
  intros x _. destruct x; reflexivity.
Qed.


End NullHandling.




Section Fort63Outcome.

Import Fort63Reader.


End Fort63Outcome.

(** ** NetCDF solutions of the solution reader *)

Section NetCDFOutcome.

Import ADCIRCSolutionReader.

Lemma stack_axis2_elems (x y c : ndarray) :
  stack_axis2 x y = Ok c ->
  exists cube, c = Arr3 cube
               /\ Forall (Forall (fun cell => List.length cell = 2%nat)) cube.
Proof.
  destruct x as [|xs|], y as [|ys|]; simpl; try discriminate.
  destruct (stack_rows xs ys) as [cube|] eqn:E; [|discriminate].
  intros H; injection H as <-. exists cube. split; [reflexivity|].
  revert ys cube E. induction xs as [|xr xs IH]; intros [|yr ys] cube E;
    simpl in E; try discriminate.
  - injection E as <-. constructor.
  - destruct (stack_row xr yr) as [r|] eqn:Er; [|discriminate].
    destruct (stack_rows xs ys) as [rs|] eqn:Ers; [|discriminate].
    injection E as <-. constructor; [| eapply IH; eauto].
    clear -Er. revert yr r Er.
    induction xr as [|a xr IH]; intros [|b yr] r Er; simpl in Er;
      try discriminate.
    + injection Er as <-. constructor.
    + destruct (stack_row xr yr) as [r'|] eqn:E'; [|discriminate].
      injection Er as <-. constructor; [reflexivity | eapply IH; eauto].
Qed.

Lemma stack_row_length (xs ys : list float) (r : list (list float)) :
  stack_row xs ys = Some r ->
  List.length (List.concat r) = (List.length xs + List.length ys)%nat.
Proof.
  revert ys r. induction xs as [|a xs IH]; intros [|b ys] r E; simpl in E;
    try discriminate.
  - injection E as <-. reflexivity.
  - destruct (stack_row xs ys) as [r'|] eqn:E'; [|discriminate].
    injection E as <-. simpl. rewrite (IH _ _ E'). lia.
Qed.

Lemma stack_axis2_size (x y c : ndarray) :
  stack_axis2 x y = Ok c -> arr_size c = arr_size x + arr_size y.
Proof.
  destruct x as [|xs|], y as [|ys|]; simpl; try discriminate.
  destruct (stack_rows xs ys) as [cube|] eqn:E; [|discriminate].
  intros H; injection H as <-. unfold arr_size. simpl.
  rewrite <- Nat2Z.inj_add. f_equal.
  revert ys cube E. induction xs as [|xr xs IH]; intros [|yr ys] cube E;
    simpl in E; try discriminate.
  - injection E as <-. reflexivity.
  - destruct (stack_row xr yr) as [r|] eqn:Er; [|discriminate].
    destruct (stack_rows xs ys) as [rs|] eqn:Ers; [|discriminate].
    injection E as <-. simpl. rewrite !length_app.
    rewrite (stack_row_length _ _ _ Er), (IH _ _ Ers). lia.
Qed.

(** X2.  A NetCDF scalar or vector read of the solution reader either
    changes the reader in one way or raises and leaves it as it was.  An
    empty variable is no error: it is logged as a warning and no dataset is
    added.  Otherwise one dataset is added under the given name, over the
    time offsets of [time], with no NaN among its values: the scalar read
    emits the values of the variable with every NaN replaced by -99999.0,
    the vector read a cube of [x, y] cells.  The number of values is not
    compared with any node count. *)
Theorem netcdf_read_outcome
  (f : option file) (filename path y_path name : string) (r : t) :
  (let out := read_netcdf_scalars f filename path name r in
   (forall e, fst out = Raise e -> snd out = r)
   /\ (fst out = Ok tt ->
       exists nc data,
         open_dataset f = Ok nc
         /\ read_var nc path = Ok data
         /\ ((arr_size data = 0
              /\ snd out = push_log (WarnEmptyDataset filename) r)
             \/ (arr_size data <> 0
                 /\ exists times d,
                     read_var nc "/time" = Ok times
                     /\ snd out = push_dataset d r
                     /\ dset_name d = name
                     /\ dset_num_components d = 1
                     /\ dset_times d = arr_elems times
                     /\ arr_elems (dset_values d)
                        = map (fun x => if isnan x then ADCIRC_NULL_VALUE
                                        else x) (arr_elems data)))))
  /\ (let out := read_netcdf_vectors f filename path y_path name r in
      (forall e, fst out = Raise e -> snd out = r)
      /\ (fst out = Ok tt ->
          exists nc x_data y_data,
            open_dataset f = Ok nc
            /\ read_var nc path = Ok x_data
            /\ read_var nc y_path = Ok y_data
            /\ ((arr_size x_data = 0
                 /\ snd out = push_log (WarnEmptyDataset filename) r)
                \/ (arr_size x_data <> 0
                    /\ exists times d cube,
                        read_var nc "/time" = Ok times
                        /\ snd out = push_dataset d r
                        /\ dset_name d = name
                        /\ dset_num_components d = 2
                        /\ dset_times d = arr_elems times
                        /\ dset_values d = Arr3 cube
                        /\ Forall (Forall (fun cell =>
                                             List.length cell = 2%nat)) cube
                        /\ arr_size (dset_values d)
                           = arr_size x_data + arr_size y_data
                        /\ Forall (fun v => isnan v = false)
                             (arr_elems (dset_values d)))))).
Proof.
  split; cbv zeta.
  - unfold read_netcdf_scalars, _write_xmdf_dataset, add_xmdf_dataset, xmlog.
    rewrite mbind_lift.
    destruct (open_dataset f) as [nc|e0] eqn:E1; [| split; [reflexivity|discriminate]].
    rewrite mbind_lift.
    destruct (read_var nc path) as [data|e0] eqn:E2;
      [| split; [reflexivity|discriminate]].
    destruct (Z.eqb_spec (arr_size data) 0) as [Hs|Hs].
    + split; [discriminate|]. intros _. exists nc, data.
      do 2 (split; [first [reflexivity | eassumption]|]). left. split; [exact Hs | reflexivity].
    + rewrite mbind_lift.
      destruct (read_var nc "/time") as [times|e0] eqn:E3;
        [| split; [reflexivity|discriminate]].
      split; [discriminate|]. intros _. exists nc, data.
      do 2 (split; [first [reflexivity | eassumption]|]). right. split; [exact Hs|].
      exists times. eexists. repeat (split; [first [reflexivity | eassumption]|]).
      apply null_handling_elems.
  - unfold read_netcdf_vectors, _write_xmdf_dataset, add_xmdf_dataset, xmlog.
    rewrite mbind_lift.
    destruct (open_dataset f) as [nc|e0] eqn:E4; [| split; [reflexivity|discriminate]].
    rewrite mbind_lift.
    destruct (read_var nc path) as [x_data|e0] eqn:E5;
      [| split; [reflexivity|discriminate]].
    rewrite mbind_lift.
    destruct (read_var nc y_path) as [y_data|e0] eqn:E6;
      [| split; [reflexivity|discriminate]].
    destruct (Z.eqb_spec (arr_size x_data) 0) as [Hs|Hs].
    + split; [discriminate|]. intros _. exists nc, x_data, y_data.
      do 3 (split; [first [reflexivity | eassumption]|]). left. split; [exact Hs | reflexivity].
    + rewrite mbind_lift.
      destruct (stack_axis2 _ _) as [c|e0] eqn:Ec;
        [| split; [reflexivity|discriminate]].
      rewrite mbind_lift.
      destruct (read_var nc "/time") as [times|e0] eqn:E7;
        [| split; [reflexivity|discriminate]].
      split; [discriminate|]. intros _. exists nc, x_data, y_data.
      do 3 (split; [first [reflexivity | eassumption]|]). right. split; [exact Hs|].
      pose proof (stack_axis2_elems _ _ _ Ec) as (cube & -> & Hc).
      exists times. eexists. eexists.
      repeat (split; [first [reflexivity | eassumption]|]).
      split; [| split].
      * apply Forall_map.
        eapply Forall_impl; [| exact Hc]. intros row Hrow.
        apply Forall_map. eapply Forall_impl; [| exact Hrow].
        intros cell Hcell. now rewrite length_map.
      * cbn [dset_values]. unfold assign_where_nan.
        unfold arr_size. rewrite arr_elems_map, length_map.
        apply stack_axis2_size in Ec. unfold arr_size in Ec.
        unfold assign_where_eq in Ec. rewrite !arr_elems_map, !length_map in Ec.
        exact Ec.
      * cbn [dset_values]. unfold assign_where_nan.
        rewrite arr_elems_map. apply Forall_map, Forall_forall.
        intros v _. destruct v; reflexivity.
Qed.

End NetCDFOutcome.

(** ** ASCII solutions: what the readers never let out *)

Section Halting.

(** A call that returns: normally or with an exception a handler can
    catch. *)
Local Abbreviation returns r := (r <> Raise Diverge).
Local Abbreviation halts m := (forall s, returns (fst (m s))).

Context {S H A B : Type}.

Lemma halts_ret (a : A) : halts (@ret S A a).
Proof. intros s. discriminate. Qed.

Lemma halts_lift (r : result A) : returns r -> halts (@lift S A r).
Proof. intros Hr s. exact Hr. Qed.

Lemma halts_get : halts (@get S).
Proof. intros s. discriminate. Qed.

Lemma halts_modify (g : S -> S) : halts (modify g).
Proof. intros s. discriminate. Qed.

Lemma halts_bind (m : M S A) (f : A -> M S B) :
  halts m -> (forall a, halts (f a)) -> halts (mbind m f).
Proof.
  intros Hm Hf s. unfold mbind. specialize (Hm s).
  destruct (m s) as [[a|e] s1]; simpl in *; [apply Hf |].
  intros E. apply Hm. injection E as ->. reflexivity.
Qed.

Lemma halts_on_fh (m : M H A) : halts m -> halts (@on_fh S H A m).
Proof.
  intros Hm [s h]. unfold on_fh. specialize (Hm h).
  destruct (m h) as [r h1]. exact Hm.
Qed.

Lemma halts_on_self (m : M S A) : halts m -> halts (@on_self S H A m).
Proof.
  intros Hm [s h]. unfold on_self. specialize (Hm s).
  destruct (m s) as [r s1]. exact Hm.
Qed.

Lemma halts_readline : halts readline.
Proof. intros [|l fh]; discriminate. Qed.

Lemma getitem_returns (l : list A) (i : Z) : returns (getitem l i).
Proof.
  unfold getitem. destruct (norm_index _ _) as [n|]; [|discriminate].
  destruct (nth_error l n); discriminate.
Qed.

Lemma setitem_returns (l : list A) (i : Z) (v : A) : returns (setitem l i v).
Proof. unfold setitem. destruct (norm_index _ _); discriminate. Qed.

Lemma int_returns (tok : string) : returns (int tok).
Proof. unfold int. destruct (match tok with EmptyString => _ | _ => _ end);
  discriminate. Qed.

Lemma to_float_returns (fos : string -> option float) (tok : string) :
  returns (to_float fos tok).
Proof. unfold to_float. destruct (fos tok); discriminate. Qed.

Lemma bind_returns (r : result A) (f : A -> result B) :
  returns r -> (forall a, returns (f a)) -> returns (bind r f).
Proof.
  intros Hr Hf. destruct r as [a|e]; simpl; auto.
  intros E. apply Hr. injection E as ->. reflexivity.
Qed.

End Halting.

Section AsciiOutcome.

Import ADCIRCSolutionReader.

Variable fos : string -> option float.

Local Abbreviation returns r := (r <> Raise Diverge).
Local Abbreviation halts m := (forall s, returns (fst (m s))).

Lemma int_at_returns (toks : list string) (i : Z) : returns (int_at toks i).
Proof.
  unfold int_at. apply bind_returns; [apply getitem_returns|].
  intros tok. apply int_returns.
Qed.

Lemma float_at_returns (toks : list string) (i : Z) :
  returns (float_at fos toks i).
Proof.
  unfold float_at. apply bind_returns; [apply getitem_returns|].
  intros tok. apply to_float_returns.
Qed.

Ltac halt_step :=
  first [ apply halts_ret | apply halts_get | apply halts_modify
        | apply halts_readline
        | apply halts_lift;
          first [ apply int_at_returns | apply float_at_returns
                | apply getitem_returns | apply setitem_returns ]
        | apply halts_on_fh | apply halts_on_self
        | apply halts_bind; [| intros ? ] ].

Lemma halts_read_header : halts read_header.
Proof. unfold read_header. repeat halt_step. Qed.

Lemma halts_read_scalar_values (sparse : bool) (n : nat) :
  forall j vals, halts (read_scalar_values fos sparse n j vals).
Proof.
  induction n as [|n IH]; intros j vals; simpl; [apply halts_ret|].
  apply halts_bind; [apply halts_readline|]. intros l.
  destruct (blank l); [apply halts_ret|].
  destruct sparse.
  - apply halts_bind.
    + apply halts_lift. unfold sparse_record.
      apply bind_returns; [apply int_at_returns|]. intros id.
      apply bind_returns; [apply float_at_returns|]. discriminate.
    + intros rec. apply halts_bind; [repeat halt_step | intros; apply IH].
  - apply halts_bind; [repeat halt_step|]. intros v.
    apply halts_bind; [repeat halt_step | intros; apply IH].
Qed.

Lemma halts_read_scalar_timestep (nodes : Z) :
  halts (read_scalar_timestep fos nodes).
Proof.
  unfold read_scalar_timestep.
  apply halts_bind; [apply halts_readline|]. intros l.
  destruct (blank l); [apply halts_ret|].
  apply halts_bind.
  - apply halts_lift. unfold scalar_step_header.
    apply bind_returns; [apply float_at_returns|]. intros t0.
    destruct (3 <? _); [|discriminate].
    apply bind_returns; [apply int_at_returns|]. intros nv.
    apply bind_returns; [apply float_at_returns|]. discriminate.
  - intros [[[t0 nv] dv] sp].
    apply halts_bind; [apply halts_read_scalar_values|].
    intros r. apply halts_ret.
Qed.

Lemma halts_read_vector_values (sparse : bool) (n : nat) :
  forall j vals, halts (read_vector_values fos sparse n j vals).
Proof.
  induction n as [|n IH]; intros j vals; simpl; [apply halts_ret|].
  apply halts_bind; [apply halts_readline|]. intros l.
  destruct (blank l); [apply halts_ret|].
  destruct sparse.
  - apply halts_bind; [repeat halt_step|]. intros id.
    apply halts_bind; [repeat halt_step|]. intros v1.
    apply halts_bind; [repeat halt_step|]. intros v2.
    apply halts_bind; [repeat halt_step | intros; apply IH].
  - apply halts_bind; [repeat halt_step|]. intros v1.
    apply halts_bind; [repeat halt_step|]. intros v2.
    apply halts_bind; [repeat halt_step | intros; apply IH].
Qed.

Lemma halts_read_vector_timestep (nodes : Z) :
  halts (read_vector_timestep fos nodes).
Proof.
  unfold read_vector_timestep.
  apply halts_bind; [apply halts_readline|]. intros l.
  destruct (blank l); [apply halts_ret|].
  apply halts_bind.
  - apply halts_lift. unfold vector_step_header.
    apply bind_returns; [apply float_at_returns|]. intros t0.
    destruct (2 <? _); [|discriminate].
    apply bind_returns; [apply int_at_returns|]. intros nv.
    apply bind_returns; [apply float_at_returns|]. intros d1.
    apply bind_returns; [apply float_at_returns|]. discriminate.
  - intros [[[[t0 nv] d1] d2] sp].
    apply halts_bind; [apply halts_read_vector_values|].
    intros r. apply halts_ret.
Qed.

Lemma halts_timestep_loop {A : Type} (rt : M handle (step A)) (n : nat) :
  halts rt -> forall acc, halts (timestep_loop rt n acc).
Proof.
  intros Hrt. induction n as [|n IH]; intros acc; simpl; [apply halts_ret|].
  apply halts_bind; [exact Hrt|]. intros [| |t v]; auto using halts_ret.
Qed.

(** The values of a step keep the length they start with. *)
Lemma read_scalar_values_length (sparse : bool) (n : nat) :
  forall j vals fh out fh',
    read_scalar_values fos sparse n j vals fh = (Ok (Some out), fh') ->
    List.length out = List.length vals.
Proof.
  induction n as [|n IH]; intros j vals fh out fh' E; simpl in E.
  - injection E as <- _. reflexivity.
  - unfold mbind at 1 in E.
    destruct (readline fh) as [[l|e] fh1]; [|discriminate].
    destruct (blank l); [discriminate|].
    destruct sparse.
    + rewrite mbind_lift in E.
      destruct (sparse_record fos (split l)) as [rec|]; [|discriminate].
      rewrite mbind_lift in E.
      destruct (setitem vals _ _) as [vals1|] eqn:Es; [|discriminate].
      apply IH in E. rewrite E. eapply length_setitem; eauto.
    + rewrite mbind_lift in E.
      destruct (float_at fos (split l) 1) as [v|]; [|discriminate].
      rewrite mbind_lift in E.
      destruct (setitem vals _ _) as [vals1|] eqn:Es; [|discriminate].
      apply IH in E. rewrite E. eapply length_setitem; eauto.
Qed.

Lemma read_scalar_timestep_length (nodes : Z) (fh fh' : handle)
      (time : float) (vals : list float) :
  read_scalar_timestep fos nodes fh = (Ok (Step time vals), fh') ->
  List.length vals = Z.to_nat nodes.
Proof.
  unfold read_scalar_timestep. intros E. unfold mbind at 1 in E.
  destruct (readline fh) as [[l|e] fh1]; [|discriminate].
  destruct (blank l); [discriminate|].
  rewrite mbind_lift in E.
  destruct (scalar_step_header fos nodes (split l))
    as [[[[t0 nv] dv] sp]|]; [|discriminate].
  unfold mbind at 1 in E.
  destruct (read_scalar_values fos sp _ 0 _ fh1) as [[[out|]|e] fh2] eqn:Ev;
    try discriminate.
  injection E as _ <- _.
  apply read_scalar_values_length in Ev. rewrite Ev.
  apply repeat_length.
Qed.

Lemma read_vector_values_length (sparse : bool) (n : nat) :
  forall j vals fh out fh',
    read_vector_values fos sparse n j vals fh = (Ok (Some out), fh') ->
    Forall (fun cell => List.length cell = 2%nat) vals ->
    List.length out = List.length vals
    /\ Forall (fun cell => List.length cell = 2%nat) out.
Proof.
  induction n as [|n IH]; intros j vals fh out fh' E F; simpl in E.
  - injection E as <- _. auto.
  - unfold mbind at 1 in E.
    destruct (readline fh) as [[l|e] fh1]; [|discriminate].
    destruct (blank l); [discriminate|].
    destruct sparse.
    + rewrite mbind_lift in E.
      destruct (int_at (split l) 0) as [id|]; [|discriminate].
      rewrite mbind_lift in E.
      destruct (float_at fos (split l) 1) as [v1|]; [|discriminate].
      rewrite mbind_lift in E.
      destruct (float_at fos (split l) 2) as [v2|]; [|discriminate].
      rewrite mbind_lift in E.
      destruct (setitem vals _ _) as [vals1|] eqn:Es; [|discriminate].
      apply IH in E.
      * rewrite (length_setitem _ _ _ _ Es) in E. exact E.
      * eapply setitem_Forall; eauto.
    + rewrite mbind_lift in E.
      destruct (float_at fos (split l) 1) as [v1|]; [|discriminate].
      rewrite mbind_lift in E.
      destruct (float_at fos (split l) 2) as [v2|]; [|discriminate].
      rewrite mbind_lift in E.
      destruct (setitem vals _ _) as [vals1|] eqn:Es; [|discriminate].
      apply IH in E.
      * rewrite (length_setitem _ _ _ _ Es) in E. exact E.
      * eapply setitem_Forall; eauto.
Qed.

Lemma read_vector_timestep_length (nodes : Z) (fh fh' : handle)
      (time : float) (vals : list (list float)) :
  read_vector_timestep fos nodes fh = (Ok (Step time vals), fh') ->
  List.length vals = Z.to_nat nodes
  /\ Forall (fun cell => List.length cell = 2%nat) vals.
Proof.
  unfold read_vector_timestep. intros E. unfold mbind at 1 in E.
  destruct (readline fh) as [[l|e] fh1]; [|discriminate].
  destruct (blank l); [discriminate|].
  rewrite mbind_lift in E.
  destruct (vector_step_header fos nodes (split l))
    as [[[[[t0 nv] d1] d2] sp]|]; [|discriminate].
  unfold mbind at 1 in E.
  destruct (read_vector_values fos sp _ 0 _ fh1) as [[[out|]|e] fh2] eqn:Ev;
    try discriminate.
  injection E as _ <- _.
  apply read_vector_values_length in Ev.
  - destruct Ev as [L F]. split; [| exact F].
    rewrite L. apply repeat_length.
  - unfold replicate. apply Forall_forall. intros c Hc.
    apply repeat_spec in Hc. now subst c.
Qed.

Lemma timestep_loop_Forall {A : Type} (rt : M handle (step A))
      (P : float * A -> Prop) (n : nat) :
  (forall fh t v fh', rt fh = (Ok (Step t v), fh') -> P (t, v)) ->
  forall acc fh out fh',
    timestep_loop rt n acc fh = (Ok out, fh') ->
    Forall P acc -> Forall P out.
Proof.
  intros Hrt. induction n as [|n IH]; intros acc fh out fh' E F; simpl in E.
  - injection E as <- _. exact F.
  - unfold mbind at 1 in E.
    destruct (rt fh) as [[[| |t v]|e] fh1] eqn:Er; try discriminate.
    + injection E as <- _. exact F.
    + eapply IH; eauto.
    + eapply IH; eauto. apply Forall_app. split; [exact F|].
      constructor; [eapply Hrt; eauto | constructor].
Qed.

Lemma read_header_state (r r' : t) (fh fh' : handle) (res : result unit) :
  read_header (r, fh) = (res, (r', fh')) ->
  filenames r' = filenames r /\ read_file r' = read_file r
  /\ read_data r' = read_data r /\ added r' = added r /\ log r' = log r.
Proof.
  unfold read_header. intros E.
  rewrite mbind_on_fh in E.
  destruct (readline fh) as [[l0|e] fh0]; [| injection E as _ <- _; auto].
  rewrite mbind_on_fh in E.
  destruct (readline fh0) as [[l1|e] fh1]; [| injection E as _ <- _; auto].
  rewrite mbind_lift in E.
  destruct (int_at (split l1) 0) as [nts|]; [| injection E as _ <- _; auto].
  rewrite mbind_on_self in E. unfold modify at 1 in E.
  rewrite mbind_lift in E.
  destruct (int_at (split l1) 1) as [nn|]; injection E as _ <- _; auto.
Qed.

(** The steps a reader appends, and the dataset it adds for them. *)
Lemma ascii_body_outcome {A : Type} (rt : Z -> M handle (step A))
      (mkd : list (float * A) -> xmdf_dataset) (P : nat -> A -> Prop) :
  (forall nodes, halts (rt nodes)) ->
  (forall nodes fh t v fh',
      rt nodes fh = (Ok (Step t v), fh') -> P (Z.to_nat nodes) v) ->
  forall r lines res r1 fh1,
    (read_header ;;;
     self <~ on_self get ;;
     steps <~ on_fh (timestep_loop (rt (num_nodes self))
                       (range_len (num_ts self)) []) ;;
     if is_nil steps then ret tt
     else on_self (add_xmdf_dataset (mkd steps))) (r, lines)
    = (res, (r1, fh1)) ->
    returns res
    /\ filenames r1 = filenames r /\ read_file r1 = read_file r
    /\ read_data r1 = read_data r /\ log r1 = log r
    /\ (added r1 = added r
        \/ (res = Ok tt
            /\ exists steps,
                steps <> []
                /\ added r1 = (added r ++ [mkd steps])%list
                /\ Forall (fun st => P (Z.to_nat (num_nodes r1)) (snd st))
                     steps)).
Proof.
  intros Hrt HP r lines res r1 fh1 E.
  rewrite (mbind_unfold read_header) in E.
  pose proof (halts_read_header (r, lines)) as Hh.
  destruct (read_header (r, lines)) as [[[]|e] [r0 fh0]] eqn:Eh.
  2:{ injection E as <- <- _. apply read_header_state in Eh.
      destruct Eh as (F1 & F2 & F3 & F4 & F5). simpl in Hh. auto 10. }
  apply read_header_state in Eh. destruct Eh as (F1 & F2 & F3 & F4 & F5).
  clear Hh. rewrite mbind_on_self in E. unfold get at 1 in E.
  rewrite mbind_on_fh in E.
  pose proof (halts_timestep_loop (rt (num_nodes r0)) (range_len (num_ts r0))
                (Hrt _) [] fh0) as Hl.
  destruct (timestep_loop _ _ [] fh0) as [[steps|e] fh2] eqn:El.
  2:{ injection E as <- <- _. simpl in Hl.
      split; [intros X; apply Hl; injection X as ->; reflexivity|].
      auto 10. }
  destruct steps as [|st steps]; cbn [is_nil] in E.
  - injection E as <- <- _. split; [discriminate|]. auto 10.
  - unfold on_self, add_xmdf_dataset, modify in E. injection E as <- <- _.
    split; [discriminate|]. cbn [filenames read_file read_data log added
                                   push_dataset num_nodes].
    do 4 (split; [assumption|]). right. split; [reflexivity|].
    exists (st :: steps). split; [discriminate|].
    split; [now rewrite F4|].
    eapply (timestep_loop_Forall (rt (num_nodes r0))
              (fun st => P (Z.to_nat (num_nodes r0)) (snd st)));
      [| exact El | constructor].
    intros fh t v fh' Hs. simpl. eapply HP; eauto.
Qed.

(** X3.  The ASCII scalar and vector readers never raise: whatever the
    file holds, the call returns.  The dataset is all or nothing: either
    nothing is added, or exactly one dataset is added under the given name
    that holds at least one time step, every step with one value (one
    [x, y] cell for a vector) per node of the header.  When reading fails
    part way (a line that does not parse, a node id out of range), the
    time steps read before are lost; the scalar reader then logs one
    exception for the file, the vector reader logs nothing.  Nothing else
    of the reader changes but the two counts of the header. *)
Theorem ascii_readers_never_raise (name : string) (r : t) (lines : handle) :
  (let out := read_ascii_scalars fos name (r, lines) in
   let r' := fst (snd out) in
   fst out = Ok tt
   /\ filenames r' = filenames r /\ read_file r' = read_file r
   /\ read_data r' = read_data r
   /\ ((added r' = added r /\ log r' = log r)
       \/ (log r' = log r
           /\ exists steps,
               steps <> []
               /\ added r'
                  = (added r ++ [mk_dataset name 1 (map fst steps)
                                   (Arr2 (map snd steps))])%list
               /\ Forall (fun st => List.length (snd st)
                                    = Z.to_nat (num_nodes r')) steps)
       \/ (added r' = added r
           /\ log r' = (log r ++ [ExceptionReading (read_file r)])%list)))
  /\ (let out := read_ascii_vectors fos name (r, lines) in
      let r' := fst (snd out) in
      fst out = Ok tt
      /\ filenames r' = filenames r /\ read_file r' = read_file r
      /\ read_data r' = read_data r /\ log r' = log r
      /\ (added r' = added r
          \/ exists steps,
              steps <> []
              /\ added r'
                 = (added r ++ [mk_dataset name 2 (map fst steps)
                                  (Arr3 (map snd steps))])%list
              /\ Forall (fun st =>
                           List.length (snd st) = Z.to_nat (num_nodes r')
                           /\ Forall (fun cell => List.length cell = 2%nat)
                                (snd st)) steps)).
Proof.
  split; cbv zeta.
  - unfold read_ascii_scalars, try_except.
    match goal with
    | |- context [match ?b (r, lines) with _ => _ end] =>
        destruct (b (r, lines)) as [res [r1 fh1]] eqn:Eb
    end.
    apply (ascii_body_outcome (read_scalar_timestep fos)
             (fun steps => mk_dataset name 1 (map fst steps)
                             (Arr2 (map snd steps)))
             (fun n v => List.length v = n)) in Eb;
      [| apply halts_read_scalar_timestep
       | intros; eapply read_scalar_timestep_length; eauto ].
    destruct Eb as (Hr & F1 & F2 & F3 & F5 & Ha).
    destruct res as [[]|e].
    + cbn [fst snd]. do 4 (split; [reflexivity || assumption|]).
      destruct Ha as [Ha|(_ & steps & Hs)]; [left; auto | right; left; eauto].
    + destruct Ha as [Ha|(Hok & _)]; [|discriminate].
      destruct e; try contradiction;
        rewrite mbind_on_self; unfold get, on_self, xmlog, modify;
        cbn [fst snd filenames read_file read_data added log push_log];
        (do 4 (split; [reflexivity || assumption|]));
        right; right; (split; [assumption|]); now rewrite F5, F2.
  - unfold read_ascii_vectors, try_except.
    match goal with
    | |- context [match ?b (r, lines) with _ => _ end] =>
        destruct (b (r, lines)) as [res [r1 fh1]] eqn:Eb
    end.
    apply (ascii_body_outcome (read_vector_timestep fos)
             (fun steps => mk_dataset name 2 (map fst steps)
                             (Arr3 (map snd steps)))
             (fun n v => List.length v = n
                         /\ Forall (fun cell => List.length cell = 2%nat) v))
      in Eb;
      [| apply halts_read_vector_timestep
       | intros; eapply read_vector_timestep_length; eauto ].
    destruct Eb as (Hr & F1 & F2 & F3 & F5 & Ha).
    destruct res as [[]|e].
    + cbn [fst snd]. do 5 (split; [reflexivity || assumption|]).
      destruct Ha as [Ha|(_ & steps & Hs)]; [left; auto | right; eauto].
    + destruct Ha as [Ha|(Hok & _)]; [|discriminate].
      destruct e; try contradiction; cbn [fst snd ret]; auto 10.
Qed.

Lemma halts_read_max_timestep (nodes : Z) :
  halts (read_max_timestep fos nodes).
Proof.
  unfold read_max_timestep.
  apply halts_bind; [apply halts_readline|]. intros l.
  destruct (blank l); [apply halts_ret|].
  apply halts_bind; [repeat halt_step|]. intros t0.
  apply halts_bind; [apply halts_read_scalar_values|].
  intros r. apply halts_ret.
Qed.

Lemma read_max_timestep_length (nodes : Z) (fh fh' : handle)
      (time : float) (vals : list float) :
  read_max_timestep fos nodes fh = (Ok (Step time vals), fh') ->
  List.length vals = Z.to_nat nodes.
Proof.
  unfold read_max_timestep. intros E. unfold mbind at 1 in E.
  destruct (readline fh) as [[l|e] fh1]; [|discriminate].
  destruct (blank l); [discriminate|].
  rewrite mbind_lift in E.
  destruct (float_at fos (split l) 0) as [t0|]; [|discriminate].
  unfold mbind at 1 in E.
  destruct (read_scalar_values fos false _ 0 _ fh1) as [[[out|]|e] fh2] eqn:Ev;
    try discriminate.
  injection E as _ <- _.
  apply read_scalar_values_length in Ev. rewrite Ev.
  apply repeat_length.
Qed.

(** One pass of the loop over the two "time steps" of a max file. *)
Lemma read_max_steps_step (n : nat) (i : Z) (name : string) (r : t)
      (fh : handle) :
  read_max_steps fos (S n) i name (r, fh)
  = match read_max_timestep fos (num_nodes r) fh with
    | (Ok Eof, fh1) => (Ok tt, (r, fh1))
    | (Ok Dropped, fh1) => read_max_steps fos n (i + 1) name (r, fh1)
    | (Ok (Step ts_time ts_vals), fh1) =>
        let name' := if 0 <? i then name ++ " Time" else name in
        read_max_steps fos n (i + 1) name'
          (push_dataset (mk_dataset name' 1 [ts_time] (Arr2 [ts_vals])) r,
           fh1)
    | (Raise e, fh1) => (Raise e, (r, fh1))
    end.
Proof.
  simpl. rewrite mbind_on_self. unfold get at 1. rewrite mbind_on_fh.
  destruct (read_max_timestep fos (num_nodes r) fh) as [[[| |t v]|e] fh1];
    reflexivity.
Qed.

(** X4.  The reader of a max*.63 file never raises and logs nothing.  It
    adds at most two datasets, each with the single time of its "time
    step" and one value per node of the header: the first step under the
    given name, the second under the name followed by " Time" (also when
    the first step was short and is left out).  A dataset is written as
    soon as its step is complete, so it stays when the rest of the file
    cannot be read. *)
Theorem max_reader_outcome (name : string) (r : t) (lines : handle) :
  let out := read_ascii_max_scalars fos name (r, lines) in
  let r' := fst (snd out) in
  fst out = Ok tt
  /\ filenames r' = filenames r /\ read_file r' = read_file r
  /\ read_data r' = read_data r /\ log r' = log r
  /\ exists ds,
      added r' = (added r ++ ds)%list
      /\ (map dset_name ds = []
          \/ map dset_name ds = [name]
          \/ map dset_name ds = [name ++ " Time"]
          \/ map dset_name ds = [name; name ++ " Time"])
      /\ Forall (fun d =>
                   dset_num_components d = 1
                   /\ exists time row,
                       dset_times d = [time]
                       /\ dset_values d = Arr2 [row]
                       /\ List.length row = Z.to_nat (num_nodes r')) ds.
Proof.
  cbv zeta. unfold read_ascii_max_scalars, try_except.
  rewrite (mbind_unfold read_header).
  pose proof (halts_read_header (r, lines)) as Hh.
  destruct (read_header (r, lines)) as [[[]|e] [r0 fh0]] eqn:Eh;
    apply read_header_state in Eh; destruct Eh as (F1 & F2 & F3 & F4 & F5).
  2:{ simpl in Hh. destruct e; try contradiction; cbn [fst snd ret];
        (do 5 (split; [reflexivity || assumption|]));
        exists []; rewrite app_nil_r; auto. }
  clear Hh. rewrite read_max_steps_step.
  pose proof (halts_read_max_timestep (num_nodes r0) fh0) as H1.
  destruct (read_max_timestep fos (num_nodes r0) fh0)
    as [[[| |t1 v1]|e1] fh1] eqn:E1.
  - cbn [fst snd]. do 5 (split; [reflexivity || assumption|]).
    exists []. rewrite app_nil_r. auto.
  - rewrite read_max_steps_step.
    pose proof (halts_read_max_timestep (num_nodes r0) fh1) as H2.
    destruct (read_max_timestep fos (num_nodes r0) fh1)
      as [[[| |t2 v2]|e2] fh2] eqn:E2.
    + cbn [fst snd]. do 5 (split; [reflexivity || assumption|]).
      exists []. rewrite app_nil_r. auto.
    + cbn [fst snd read_max_steps ret].
      do 5 (split; [reflexivity || assumption|]).
      exists []. rewrite app_nil_r. auto.
    + apply read_max_timestep_length in E2.
      cbv zeta. change (0 <? 0 + 1) with true. cbv iota.
      cbn [fst snd read_max_steps ret filenames read_file read_data log
             added push_dataset num_nodes].
      do 5 (split; [reflexivity || assumption|]).
      eexists. split; [rewrite F4; reflexivity|].
      split; [right; right; left; reflexivity|].
      constructor; [| constructor]. split; [reflexivity|]. do 2 eexists. repeat split; eassumption.
    + simpl in H2. destruct e2; try contradiction; cbn [fst snd ret];
        (do 5 (split; [reflexivity || assumption|]));
        exists []; rewrite app_nil_r; auto.
  - apply read_max_timestep_length in E1.
    cbv zeta. change (0 <? 0) with false. cbv iota.
    rewrite read_max_steps_step.
    cbn [num_nodes push_dataset].
    pose proof (halts_read_max_timestep (num_nodes r0) fh1) as H2.
    destruct (read_max_timestep fos (num_nodes r0) fh1)
      as [[[| |t2 v2]|e2] fh2] eqn:E2.
    + cbn [fst snd read_max_steps ret filenames read_file read_data log
             added push_dataset num_nodes].
      do 5 (split; [reflexivity || assumption|]).
      eexists. split; [rewrite F4; reflexivity|].
      split; [right; left; reflexivity|].
      constructor; [| constructor]. split; [reflexivity|]. do 2 eexists. repeat split; eassumption.
    + cbn [fst snd read_max_steps ret filenames read_file read_data log
             added push_dataset num_nodes].
      do 5 (split; [reflexivity || assumption|]).
      eexists. split; [rewrite F4; reflexivity|].
      split; [right; left; reflexivity|].
      constructor; [| constructor]. split; [reflexivity|]. do 2 eexists. repeat split; eassumption.
    + apply read_max_timestep_length in E2.
      cbv zeta. change (0 <? 0 + 1) with true. cbv iota.
      cbn [fst snd read_max_steps ret filenames read_file read_data log
             added push_dataset num_nodes].
      do 5 (split; [reflexivity || assumption|]).
      eexists. split; [rewrite F4, <- app_assoc; reflexivity|].
      split; [right; right; right; reflexivity|].
      constructor; [| constructor; [| constructor]];
        (split; [reflexivity|]); do 2 eexists; repeat split; eassumption.
    + simpl in H2. destruct e2; try contradiction;
        cbn [fst snd read_max_steps ret filenames read_file read_data log
             added push_dataset num_nodes];
        (do 5 (split; [reflexivity || assumption|]));
        (eexists; split; [rewrite F4; reflexivity|]);
        (split; [right; left; reflexivity|]);
        (constructor; [| constructor]); (split; [reflexivity|]); do 2 eexists; repeat split; eassumption.
  - simpl in H1. destruct e1; try contradiction; cbn [fst snd ret];
      (do 5 (split; [reflexivity || assumption|]));
      exists []; rewrite app_nil_r; auto.
Qed.

End AsciiOutcome.

(** ** Time steps of the ASCII solutions *)

Section TimeSteps.

Import ADCIRCSolutionReader Notions.

Variable fos : string -> option float.

Lemma set_nth_insert {A : Type} (l : list A) (j n : nat) (v : A)
      (vs : list A) :
  (j < List.length l)%nat ->
  (firstn (S j) (set_nth l j v) ++ vs ++ skipn (S j + n) (set_nth l j v))%list
  = (firstn j l ++ (v :: vs) ++ skipn (j + S n) l)%list.
Proof.
  revert j. induction l as [|a l IH]; intros [|j] Hj; simpl in *; try lia.
  - reflexivity.
  - f_equal. apply IH. lia.
Qed.

(** A step that is not sparse takes the values of its lines in the order
    of the lines. *)
Lemma read_scalar_values_dense (n : nat) :
  forall j vals fh out fh',
    read_scalar_values fos false n (Z.of_nat j) vals fh
    = (Ok (Some out), fh') ->
    (j <= List.length vals)%nat ->
    exists vs,
      Forall2 (fun l v => float_at fos (split l) 1 = Ok v) (firstn n fh) vs
      /\ Forall (fun l => blank l = false) (firstn n fh)
      /\ List.length vs = n
      /\ (j + n <= List.length vals)%nat
      /\ fh' = skipn n fh
      /\ out = (firstn j vals ++ vs ++ skipn (j + n) vals)%list.
Proof.
  induction n as [|n IH]; intros j vals fh out fh' E Hjl; simpl in E.
  - injection E as <- <-. exists []. simpl.
    rewrite Nat.add_0_r, firstn_skipn.
    repeat split; try constructor. exact Hjl.
  - unfold mbind at 1 in E.
    destruct fh as [|l fh1]; [simpl in E; discriminate|].
    cbn [readline] in E.
    destruct (blank l) eqn:Eb; [discriminate|].
    rewrite mbind_lift in E.
    destruct (float_at fos (split l) 1) as [v|] eqn:Ev; [|discriminate].
    rewrite mbind_lift in E.
    destruct (setitem vals (Z.of_nat j) v) as [vals1|] eqn:Es; [|discriminate].
    destruct (setitem_nat _ _ _ _ Es) as [Hj ->].
    replace (Z.of_nat j + 1) with (Z.of_nat (S j)) in E by lia.
    destruct (IH _ _ _ _ _ E) as (vs & F & B & L & Hn & -> & ->);
      [rewrite length_set_nth; lia|].
    rewrite length_set_nth in Hn.
    exists (v :: vs).
    split; [constructor; assumption|].
    split; [constructor; assumption|].
    split; [simpl; lia|]. split; [lia|]. split; [reflexivity|].
    apply set_nth_insert. exact Hj.
Qed.


(** X5.  A time step of an ASCII scalar file whose line has at most three
    tokens is not sparse.  When it is read completely, no line of it is
    blank and its values are the second tokens of the next [nodes] lines,
    in the order of the lines: the node id a line starts with is not
    looked at. *)
Theorem dense_scalar_timestep
  (nodes : Z) (ts_line : string) (rest fh' : handle) (time : float)
  (vals : list float) :
  (List.length (split ts_line) <= 3)%nat ->
  read_scalar_timestep fos nodes (ts_line :: rest)
  = (Ok (Step time vals), fh') ->
  float_at fos (split ts_line) 0 = Ok time
  /\ List.length vals = Z.to_nat nodes
  /\ Forall2 (fun l v => float_at fos (split l) 1 = Ok v)
       (firstn (Z.to_nat nodes) rest) vals
  /\ Forall (fun l => blank l = false) (firstn (Z.to_nat nodes) rest)
  /\ fh' = skipn (Z.to_nat nodes) rest.
Proof.
  intros Hs E. unfold read_scalar_timestep in E.
  unfold mbind at 1 in E. cbn [readline] in E.
  destruct (blank ts_line); [discriminate|].
  rewrite mbind_lift in E. unfold scalar_step_header in E.
  destruct (float_at fos (split ts_line) 0) as [t0|]; [|discriminate].
  cbn [bind] in E.
  assert (Hlt : (3 <? Z.of_nat (List.length (split ts_line))) = false)
    by (apply Z.ltb_ge; lia).
  rewrite Hlt in E.
  unfold mbind at 1 in E.
  destruct (read_scalar_values fos false _ 0 _ rest) as [[[out|]|e] fh1] eqn:Ev;
    try discriminate.
  injection E as <- <- <-.
  change 0 with (Z.of_nat 0) in Ev.
  destruct (read_scalar_values_dense _ _ _ _ _ _ Ev)
    as (vs & F & B & L & Hn & -> & ->); [simpl; lia|].
  unfold replicate, range_len in *. rewrite repeat_length in Hn.
  cbn [firstn Nat.add app].
  rewrite skipn_all2 by (rewrite repeat_length; lia).
  rewrite app_nil_r.
  repeat split; assumption.
Qed.


End TimeSteps.

Lemma dense_scalar_timestep_witness :
  let ts_line := "100.0 10" in
  let rest := ["7 1.5"; "7 2.5"; "200.0 20"] in
  let vals := [fdiv (of_Z 3) (of_Z 2); fdiv (of_Z 5) (of_Z 2)] in
  (List.length (split ts_line) <= 3)%nat
  /\ ADCIRCSolutionReader.read_scalar_timestep decimal_float 2
       (ts_line :: rest)
     = (Ok (ADCIRCSolutionReader.Step (of_Z 100) vals), ["200.0 20"])
  /\ Forall2 (fun l v =>
                ADCIRCSolutionReader.float_at decimal_float (split l) 1 = Ok v)
       (firstn 2 rest) vals.
Proof.
  intros ts_line rest vals.
  assert (Hs : (List.length (split ts_line) <= 3)%nat)
    by (vm_compute; lia).
  assert (E : ADCIRCSolutionReader.read_scalar_timestep decimal_float 2
                (ts_line :: rest)
              = (Ok (ADCIRCSolutionReader.Step (of_Z 100) vals),
                 ["200.0 20"])) by (vm_compute; reflexivity).
  split; [exact Hs|]. split; [exact E|].
  exact (proj1 (proj2 (proj2
    (dense_scalar_timestep decimal_float 2 ts_line rest _ _ _ Hs E)))).
Defined.


(** ** Nodal attributes: the value section *)

Section Fort13Edges.

Import Fort13Reader.

Variable fos : string -> option float.
Variable np_mean : list float -> float.

Lemma read_name_line_blanks (blanks fh : handle) :
  Forall (fun l => split l = []) blanks ->
  read_name_line (blanks ++ fh)%list = read_name_line fh.
Proof.
  induction 1 as [|l blanks Hl _ IH]; simpl; [reflexivity|].
  rewrite Hl. exact IH.
Qed.

Lemma read_name_line_eof (fh : handle) :
  Forall (fun l => split l = []) fh ->
  read_name_line fh = (Raise Diverge, []).
Proof.
  induction 1 as [|l fh Hl _ IH]; simpl; [reflexivity|].
  rewrite Hl. exact IH.
Qed.

Lemma read_att_block_name_line (s : t) (fh fh' : handle) :
  read_name_line fh = read_name_line fh' ->
  read_att_block fos np_mean (s, fh) = read_att_block fos np_mean (s, fh').
Proof.
  intros E. unfold read_att_block. rewrite !mbind_on_fh, E. reflexivity.
Qed.

(** X7.  Lines without a token in front of the name line of an attribute
    in the value section make no difference to what is read.  At the end of
    the file the search for the name line does not end: when only such
    lines are left and the header counts a further attribute, reading the
    values does not return. *)
Theorem fort13_blank_lines_and_eof (s : t) (blanks fh : handle) :
  Forall (fun l => split l = []) blanks ->
  read_att_block fos np_mean (s, (blanks ++ fh)%list)
  = read_att_block fos np_mean (s, fh)
  /\ (0 < _num_atts s ->
      _read_att_values fos np_mean (s, blanks) = (Raise Diverge, (s, []))).
Proof.
  intros Hb. split.
  - apply read_att_block_name_line, read_name_line_blanks, Hb.
  - intros Hn. unfold _read_att_values.
    rewrite mbind_on_self. unfold get at 1.
    destruct (range_len (_num_atts s)) as [|n] eqn:En;
      [unfold range_len in En; lia|].
    cbn [for_range]. unfold mbind at 1. unfold read_att_block.
    rewrite mbind_on_fh, (read_name_line_eof _ Hb). reflexivity.
Qed.

(** X8.  The node id of an exception record is used as a Python index,
    less one.  With [nodes] nodes, an id from 1 to [nodes] sets the value
    of that node; an id from [1 - nodes] to 0 raises nothing and sets the
    value of node [nodes + id], counted from the end of the array; any
    other id raises [IndexError]. *)
Theorem fort13_node_id_bounds
  (nodes id : Z) (d v : float) (count_line l : string) (rest : handle) :
  first_int count_line = Ok 1 ->
  first_int (replace_comma l) = Ok id ->
  float_at fos (split (replace_comma l)) 1 = Ok v ->
  let out := read_dset_vals fos nodes [d] (count_line :: l :: rest) in
  (1 <= id <= nodes ->
   out = (Ok [set_nth (replicate nodes d) (Z.to_nat (id - 1)) v], rest))
  /\ (1 - nodes <= id <= 0 ->
      out = (Ok [set_nth (replicate nodes d) (Z.to_nat (nodes + id - 1)) v],
             rest))
  /\ (nodes < id \/ id < 1 - nodes -> out = (Raise IndexError, rest)).
Proof.
  intros Ec Ei Ev out.
  assert (Eo : out = match setitem (replicate nodes d) (id - 1) v with
                     | Ok row => (Ok [row], rest)
                     | Raise e => (Raise e, rest)
                     end).
  { subst out. unfold read_dset_vals, read_int, mbind, readline, lift.
    rewrite Ec. change (range_len 1) with 1%nat.
    cbn [map List.length read_exceptions].
    unfold mbind, readline, lift. rewrite Ei.
    cbn [set_exception]. change (0 + 1) with 1. rewrite Ev. cbn [bind].
    unfold setitem2.
    change (getitem [replicate nodes d] 0)
      with (Ok (A := list float) (replicate nodes d)).
    cbv iota beta.
    destruct (setitem (replicate nodes d) (id - 1) v); reflexivity. }
  rewrite Eo. clear Eo out. unfold setitem, norm_index.
  assert (Hlen : List.length (replicate nodes d) = Z.to_nat nodes)
    by apply repeat_length.
  rewrite !Hlen.
  repeat split; intros H.
  - destruct (Z.leb_spec 0 (id - 1)); [|lia].
    destruct (Z.ltb_spec (id - 1) (Z.of_nat (Z.to_nat nodes))); [|lia].
    reflexivity.
  - destruct (Z.leb_spec 0 (id - 1)); [lia|]. cbn [andb].
    destruct (Z.ltb_spec (id - 1) 0); [|lia].
    destruct (Z.leb_spec (- Z.of_nat (Z.to_nat nodes)) (id - 1)); [|lia].
    cbn [andb]. do 3 f_equal. f_equal. lia.
  - destruct H as [H|H].
    + destruct (Z.leb_spec 0 (id - 1)); cbn [andb].
      * destruct (Z.ltb_spec (id - 1) (Z.of_nat (Z.to_nat nodes))); [lia|].
        destruct (Z.ltb_spec (id - 1) 0); [lia|]. reflexivity.
      * destruct (Z.ltb_spec (id - 1) 0); [|lia]. cbn [andb].
        destruct (Z.leb_spec (- Z.of_nat (Z.to_nat nodes)) (id - 1)); [lia|].
        reflexivity.
    + destruct (Z.leb_spec 0 (id - 1)); cbn [andb].
      * destruct (Z.ltb_spec (id - 1) (Z.of_nat (Z.to_nat nodes))); [lia|].
        destruct (Z.ltb_spec (id - 1) 0); [lia|]. reflexivity.
      * destruct (Z.ltb_spec (id - 1) 0); [|lia]. cbn [andb].
        destruct (Z.leb_spec (- Z.of_nat (Z.to_nat nodes)) (id - 1)); [lia|].
        reflexivity.
Qed.

End Fort13Edges.

Lemma fort13_blank_lines_and_eof_witness :
  let s := Fort13Reader.set_att_defaults
             [("bottom_roughness_length", [fdiv (of_Z 1) (of_Z 2)])]
             (Fort13Reader.set_num_atts 1
                (Fort13Reader.set_num_nodes 2
                   (Fort13Reader.init "fort.13" "uuid" 2))) in
  let blanks := text_lines [""; "  "] in
  let fh := text_lines ["bottom_roughness_length"; "1"; "2 1.5"] in
  Forall (fun l => split l = []) blanks
  /\ fst (Fort13Reader.read_att_block decimal_float (fun _ => zero)
            (s, (blanks ++ fh)%list)) = Ok tt
  /\ Fort13Reader.read_att_block decimal_float (fun _ => zero)
       (s, (blanks ++ fh)%list)
     = Fort13Reader.read_att_block decimal_float (fun _ => zero) (s, fh)
  /\ Fort13Reader._read_att_values decimal_float (fun _ => zero) (s, blanks)
     = (Raise Diverge, (s, [])).
Proof.
  intros s blanks fh.
  assert (Hb : Forall (fun l => split l = []) blanks)
    by (repeat constructor).
  destruct (fort13_blank_lines_and_eof decimal_float (fun _ => zero)
              s blanks fh Hb) as [H1 H2].
  split; [exact Hb|]. split; [vm_compute; reflexivity|].
  split; [exact H1|]. apply H2. vm_compute. reflexivity.
Defined.

Lemma fort13_node_id_bounds_witness :
  let d := fdiv (of_Z 1) (of_Z 2) in
  let v := fdiv (of_Z 3) (of_Z 2) in
  Fort13Reader.read_dset_vals decimal_float 3 [d] ["1"; "0 1.5"]
  = (Ok [[d; d; v]], [])
  /\ Fort13Reader.read_dset_vals decimal_float 3 [d] ["1"; "4 1.5"]
     = (Raise IndexError, []).
Proof.
  intros d v.
  destruct (fort13_node_id_bounds decimal_float 3 0 d v "1" "0 1.5" [])
    as (_ & H0 & _); try (vm_compute; reflexivity).
  destruct (fort13_node_id_bounds decimal_float 3 4 d v "1" "4 1.5" [])
    as (_ & _ & H4); try (vm_compute; reflexivity).
  split.
  - rewrite H0 by lia. reflexivity.
  - apply H4. lia.
Defined.

(** ** Nodal attributes: the datasets *)

Section StringDict.

Context {V : Type}.

Lemma sdict_get_set_same (k : string) (v : V) (d : list (string * V)) :
  dict_get String.eqb k (dict_set String.eqb k v d) = Some v.
Proof.
  induction d as [|[k' v'] d IH]; simpl.
  - now rewrite String.eqb_refl.
  - destruct (String.eqb k' k) eqn:E; simpl; rewrite E; auto.
Qed.

Lemma sdict_get_set_other (k k' : string) (v : V) (d : list (string * V)) :
  k <> k' ->
  dict_get String.eqb k' (dict_set String.eqb k v d)
  = dict_get String.eqb k' d.
Proof.
  intros Hne. induction d as [|[k0 v0] d IH]; simpl.
  - destruct (String.eqb_spec k k'); [contradiction | reflexivity].
  - destruct (String.eqb_spec k0 k); simpl.
    + subst k0. destruct (String.eqb_spec k k'); [contradiction | reflexivity].
    + destruct (String.eqb_spec k0 k'); auto.
Qed.

Lemma sdict_set_keys (k : string) (v : V) (d : list (string * V)) :
  forall k', In k' (map fst (dict_set String.eqb k v d))
             <-> k' = k \/ In k' (map fst d).
Proof.
  induction d as [|[k0 v0] d IH]; intros k'; simpl.
  - intuition.
  - destruct (String.eqb_spec k0 k); simpl.
    + subst k0. intuition.
    + rewrite IH. intuition.
Qed.

Lemma sdict_set_NoDup (k : string) (v : V) (d : list (string * V)) :
  NoDup (map fst d) -> NoDup (map fst (dict_set String.eqb k v d)).
Proof.
  induction d as [|[k0 v0] d IH]; simpl; intros H.
  - constructor; [intros [] | constructor].
  - inversion H as [|? ? Hn Hd]; subst.
    destruct (String.eqb_spec k0 k); simpl.
    + constructor; assumption.
    + constructor; [| auto].
      rewrite sdict_set_keys. intros [->|Hin]; [congruence | contradiction].
Qed.

Lemma sdict_set_In (k : string) (v : V) (d : list (string * V))
      (kv : string * V) :
  In kv (dict_set String.eqb k v d) -> kv = (k, v) \/ In kv d.
Proof.
  induction d as [|[k0 v0] d IH]; simpl.
  - intros [<-|[]]. now left.
  - destruct (String.eqb_spec k0 k); simpl.
    + subst k0. intros [<-|H]; auto.
    + intros [<-|H]; auto. destruct (IH H); auto.
Qed.

Lemma sdict_set_values (k : string) (w : V) (d : list (string * list V))
      (x : V) :
  In x (List.concat (dict_values
          (dict_set String.eqb k
             (match dict_get String.eqb k d with
              | Some l => l
              | None => []
              end ++ [w])%list d)))
  <-> In x (List.concat (dict_values d)) \/ x = w.
Proof.
  unfold dict_values.
  induction d as [|[k0 l0] d IH]; simpl.
  - intuition.
  - destruct (String.eqb_spec k0 k); simpl.
    + rewrite !in_app_iff. simpl. intuition.
    + rewrite !in_app_iff, IH. intuition.
Qed.

End StringDict.

Section Fort13Datasets.

Import Fort13Reader.

Variable fos : string -> option float.
Variable np_mean : list float -> float.

(** One pass of the loop that creates the datasets of an attribute. *)
Lemma make_datasets_step (n : nat) (j : Z) (att_name : string)
      (display_names : list string) (dset_vals : list (list float)) (s : t) :
  make_datasets (S n) j att_name display_names dset_vals s
  = match getitem display_names j with
    | Raise e => (Raise e, s)
    | Ok dataset_name =>
        match getitem dset_vals j with
        | Raise e => (Raise e, s)
        | Ok vals =>
            let w := mk_writer dataset_name (_geom_uuid s) "points" vals in
            let s1 := set_datasets
                        (dict_set String.eqb dataset_name w (datasets s)) s in
            make_datasets n (j + 1) att_name display_names dset_vals
              (set_att_dsets
                 (dict_set String.eqb att_name
                    (match dict_get String.eqb att_name (_att_dsets s1) with
                     | Some l => l
                     | None => []
                     end ++ [w])%list (_att_dsets s1)) s1)
        end
    end.
Proof.
  simpl. rewrite mbind_lift.
  destruct (getitem display_names j); [|reflexivity].
  rewrite mbind_lift.
  destruct (getitem dset_vals j); reflexivity.
Qed.






(** What the reader keeps while the value section is read: the datasets
    are stored under their names, for the geometry of the reader; each is
    also in the list of its attribute; the geoid offset has no such list
    and is the only attribute that sets nodal attribute values. *)
Local Abbreviation geoid := "sea_surface_height_above_geoid".
Local Abbreviation geoid_on := "sea_surface_height_above_geoid_on".
Local Abbreviation kept s :=
  (NoDup (map fst (datasets s))
   /\ Forall (fun kv : string * dataset_writer =>
                name (snd kv) = fst kv
                /\ geom_uuid (snd kv) = _geom_uuid s
                /\ location (snd kv) = "points") (datasets s)
   /\ dict_get String.eqb geoid (_att_dsets s) = None
   /\ (forall kv, In kv (datasets s) ->
                  In (snd kv) (List.concat (dict_values (_att_dsets s))))
   /\ (nodal_atts s = []
       \/ exists mean,
           nodal_atts s = [(geoid_on, IntAtt 1); (geoid, FloatAtt mean)])).

Lemma make_datasets_kept (att_name : string) (display_names : list string)
      (dset_vals : list (list float)) (n : nat) :
  att_name <> geoid ->
  forall j s r s',
    make_datasets n j att_name display_names dset_vals s = (r, s') ->
    kept s ->
    kept s' /\ _geom_uuid s' = _geom_uuid s /\ _num_nodes s' = _num_nodes s
    /\ built_data s' = built_data s.
Proof.
  intros Hatt. induction n as [|n IH]; intros j s r s' E K.
  - injection E as _ <-. auto.
  - rewrite make_datasets_step in E.
    destruct (getitem display_names j) as [nm|];
      [| injection E as _ <-; auto].
    destruct (getitem dset_vals j) as [vals|];
      [| injection E as _ <-; auto].
    cbv zeta in E. apply IH in E.
    + destruct E as (K' & U & N & B). split; [exact K'|].
      rewrite U, N, B. auto.
    + destruct K as (K1 & K2 & K3 & K4 & K5).
      cbn [datasets _att_dsets _geom_uuid nodal_atts set_datasets
             set_att_dsets].
      split; [now apply sdict_set_NoDup|].
      split.
      { apply Forall_forall. intros kv Hin.
        apply sdict_set_In in Hin. destruct Hin as [->|Hin]; [simpl; auto|].
        exact (proj1 (Forall_forall _ _) K2 kv Hin). }
      split; [rewrite sdict_get_set_other; auto|].
      split; [| exact K5].
      intros kv Hin. apply sdict_set_values.
      apply sdict_set_In in Hin. destruct Hin as [->|Hin]; [now right|].
      left. auto.
Qed.

Lemma read_att_info_loop_defaults (n : nat) :
  forall s fh r s' fh',
    read_att_info_loop fos n (s, fh) = (r, (s', fh')) ->
    exists d, s' = set_att_defaults d s.
Proof.
  assert (Hid : forall s, exists d, s = set_att_defaults d s)
    by (intros s; exists (_att_defaults s); destruct s; reflexivity).
  induction n as [|n IH]; intros s fh r s' fh' E; simpl in E.
  - injection E as _ <- _. apply Hid.
  - rewrite mbind_on_fh in E.
    destruct (readline fh) as [[l|e] fh1]; [| injection E as _ <- _; auto].
    rewrite mbind_lift in E.
    destruct (getitem (split l) 0) as [att_name|];
      [| injection E as _ <- _; auto].
    rewrite mbind_on_fh in E.
    destruct (readline fh1) as [[l1|e] fh2]; [| injection E as _ <- _; auto].
    rewrite mbind_on_fh in E.
    destruct (readline fh2) as [[l2|e] fh3]; [| injection E as _ <- _; auto].
    rewrite mbind_on_fh in E.
    destruct (readline fh3) as [[l3|e] fh4]; [| injection E as _ <- _; auto].
    rewrite mbind_lift in E.
    destruct (floats fos (split (replace_comma l3))) as [default_vals|];
      [| injection E as _ <- _; auto].
    rewrite mbind_on_self in E. unfold get at 1 in E.
    rewrite mbind_on_self in E. unfold modify at 1 in E.
    apply IH in E. destruct E as (d & ->). exists d. reflexivity.
Qed.

(** The block of the geoid offset: no dataset, two attribute values. *)
Lemma read_att_block_geoid (s : t) (fh fh1 fh2 : handle)
      (toks : list string) (defaults row : list float)
      (rows : list (list float)) :
  read_name_line fh = (Ok toks, fh1) ->
  getitem toks 0 = Ok geoid ->
  dict_get String.eqb geoid (_att_defaults s) = Some defaults ->
  read_dset_vals fos (_num_nodes s) defaults fh1 = (Ok (row :: rows), fh2) ->
  read_att_block fos np_mean (s, fh)
  = (Ok tt,
     (set_nodal_atts
        (dict_set String.eqb geoid (FloatAtt (np_mean row))
           (dict_set String.eqb geoid_on (IntAtt 1) (nodal_atts s))) s,
      fh2)).
Proof.
  intros En Eg Ed Ev. unfold read_att_block.
  rewrite mbind_on_fh, En, mbind_lift, Eg, mbind_on_self.
  unfold get at 1. rewrite mbind_lift. unfold dict_item. rewrite Ed.
  rewrite mbind_on_fh, Ev. reflexivity.
Qed.

Lemma read_att_block_kept (s s' : t) (fh fh' : handle) (r : result unit) :
  read_att_block fos np_mean (s, fh) = (r, (s', fh')) ->
  kept s ->
  kept s' /\ _geom_uuid s' = _geom_uuid s /\ _num_nodes s' = _num_nodes s
  /\ built_data s' = built_data s.
Proof.
  intros E K. unfold read_att_block in E.
  rewrite mbind_on_fh in E.
  destruct (read_name_line fh) as [[att_name_line|e] fh1];
    [| injection E as _ <- _; auto].
  rewrite mbind_lift in E.
  destruct (getitem att_name_line 0) as [att_name|];
    [| injection E as _ <- _; auto].
  rewrite mbind_on_self in E. unfold get at 1 in E.
  rewrite mbind_lift in E.
  destruct (dict_item String.eqb att_name (_att_defaults s)) as [defaults|];
    [| injection E as _ <- _; auto].
  rewrite mbind_on_fh in E.
  destruct (read_dset_vals fos (_num_nodes s) defaults fh1)
    as [[dset_vals|e] fh2]; [| injection E as _ <- _; auto].
  destruct (String.eqb_spec att_name geoid) as [Hg|Hg].
  - rewrite mbind_lift in E.
    destruct (getitem dset_vals 0); [| injection E as _ <- _; auto].
    unfold on_self, modify in E. injection E as _ <- _.
    destruct K as (K1 & K2 & K3 & K4 & K5).
    cbn [datasets _att_dsets _geom_uuid nodal_atts set_nodal_atts
           _num_nodes built_data].
    split; [| auto]. do 4 (split; [assumption|]).
    right. destruct K5 as [->|(m & ->)]; eexists; reflexivity.
  - unfold on_self in E.
    match type of E with
    | (let '(_, _) := make_datasets ?n ?j ?a ?d ?v ?s0 in _) = _ =>
        destruct (make_datasets n j a d v s0) as [r1 s1] eqn:Em
    end.
    injection E as _ <- _.
    eapply make_datasets_kept; eauto.
Qed.

Lemma for_range_att_block_kept (n : nat) :
  forall s fh r s' fh',
    for_range n (read_att_block fos np_mean) (s, fh) = (r, (s', fh')) ->
    kept s ->
    kept s' /\ _geom_uuid s' = _geom_uuid s /\ _num_nodes s' = _num_nodes s
    /\ built_data s' = built_data s.
Proof.
  induction n as [|n IH]; intros s fh r s' fh' E K; simpl in E.
  - injection E as _ <- _. auto.
  - unfold mbind at 1 in E.
    destruct (read_att_block fos np_mean (s, fh)) as [[[]|e] [s1 fh1]] eqn:Eb;
      apply read_att_block_kept in Eb; auto;
      destruct Eb as (K1 & U1 & N1 & B1).
    + apply IH in E; auto. destruct E as (K2 & U2 & N2 & B2).
      split; [exact K2|]. rewrite U2, N2, B2. auto.
    + injection E as _ <- _. auto.
Qed.

(** What a read that returns has done, step by step. *)
Lemma read_steps (in_file uuid : string) (geom : Z) (file : list string)
      (s' : t) :
  read fos np_mean (Some file) (init in_file uuid geom) = (Ok tt, s') ->
  exists n a d fh3 s2 fh4,
    for_range (range_len a) (read_att_block fos np_mean)
      (set_att_defaults d (set_num_atts a (set_num_nodes n
                                             (init in_file uuid geom))),
       fh3)
    = (Ok tt, (s2, fh4))
    /\ s' = set_built_data
              (built_data s2 ++ List.concat (dict_values (_att_dsets s2)))
              s2.
Proof.
  intros E. unfold read in E. rewrite mbind_get in E.
  destruct file as [|l0 rest]; [discriminate|].
  unfold with_open in E. rewrite mbind_on_fh_readline in E.
  rewrite mbind_on_fh in E.
  destruct (read_int rest) as [[num_nodes|e] fh1]; [|discriminate].
  rewrite mbind_on_self in E. unfold modify at 1 in E.
  rewrite mbind_on_fh in E.
  destruct (read_int fh1) as [[num_atts|e] fh2]; [|discriminate].
  rewrite mbind_on_self in E. unfold modify at 1 in E.
  destruct (num_nodes <=? 0); [discriminate|].
  destruct (negb _); [discriminate|].
  destruct (num_atts =? 0); [discriminate|].
  rewrite (mbind_unfold (_read_att_info fos)) in E.
  destruct (_read_att_info fos _) as [[[]|e] [s1 fh3]] eqn:Ei;
    [|discriminate].
  unfold _read_att_info in Ei. rewrite mbind_on_self in Ei.
  unfold get at 1 in Ei. apply read_att_info_loop_defaults in Ei.
  destruct Ei as (d & ->).
  rewrite (mbind_unfold (_read_att_values fos np_mean)) in E.
  destruct (_read_att_values fos np_mean _) as [[[]|e] [s2 fh4]] eqn:Ev;
    [|discriminate].
  unfold _read_att_values in Ev. rewrite mbind_on_self in Ev.
  unfold get at 1 in Ev.
  unfold on_self, _add_dsets_and_update_sim, modify in E.
  injection E as <-.
  exists num_nodes, num_atts, d, fh3, s2, fh4.
  split; [exact Ev | reflexivity].
Qed.

Lemma read_kept (in_file uuid : string) (geom : Z) (file : list string)
      (s' : t) :
  read fos np_mean (Some file) (init in_file uuid geom) = (Ok tt, s') ->
  kept s' /\ _geom_uuid s' = uuid
  /\ built_data s' = List.concat (dict_values (_att_dsets s')).
Proof.
  intros E. apply read_steps in E.
  destruct E as (n & a & d & fh3 & s2 & fh4 & Ev & ->).
  apply for_range_att_block_kept in Ev.
  - destruct Ev as (K & U & N & B). simpl in U, B.
    cbn [datasets _att_dsets _geom_uuid nodal_atts set_built_data built_data].
    rewrite B. split; [exact K|]. split; [exact U | reflexivity].
  - simpl. split; [constructor|]. split; [constructor|].
    split; [reflexivity|]. split; [intros kv []|]. now left.
Qed.

(** X10.  The attribute [sea_surface_height_above_geoid] never becomes a
    dataset.  Its block in the value section leaves the datasets alone and
    stores two nodal attribute values: the switch, 1, and the mean of its
    first value array.  After a read that returns, no list of datasets is
    kept under its name, and the nodal attribute values are either none or
    these two. *)
Theorem fort13_geoid_offset :
  (forall (s : t) (fh fh1 fh2 : handle) (toks : list string)
          (defaults row : list float) (rows : list (list float)),
      read_name_line fh = (Ok toks, fh1) ->
      getitem toks 0 = Ok geoid ->
      dict_get String.eqb geoid (_att_defaults s) = Some defaults ->
      read_dset_vals fos (_num_nodes s) defaults fh1
      = (Ok (row :: rows), fh2) ->
      read_att_block fos np_mean (s, fh)
      = (Ok tt,
         (set_nodal_atts
            (dict_set String.eqb geoid (FloatAtt (np_mean row))
               (dict_set String.eqb geoid_on (IntAtt 1) (nodal_atts s))) s,
          fh2)))
  /\ (forall (in_file uuid : string) (geom : Z) (file : list string)
             (s' : t),
         read fos np_mean (Some file) (init in_file uuid geom) = (Ok tt, s') ->
         dict_get String.eqb geoid (_att_dsets s') = None
         /\ (nodal_atts s' = []
             \/ exists mean,
                 nodal_atts s'
                 = [(geoid_on, IntAtt 1); (geoid, FloatAtt mean)])).
Proof.
  split.
  - intros. eapply read_att_block_geoid; eauto.
  - intros in_file uuid geom file s' E.
    destruct (read_kept _ _ _ _ _ E) as ((_ & _ & K3 & _ & K5) & _).
    auto.
Qed.

(** X11.  After a read that returns, the datasets kept by name have
    pairwise distinct names, each is stored under its own name, for the
    geometry given to the reader, and each is one of the datasets of
    [built_data]; so [built_data] holds at least as many datasets (more
    when two attributes give a dataset the same name). *)
Theorem fort13_datasets_by_name
  (in_file uuid : string) (geom : Z) (file : list string) (s' : t) :
  read fos np_mean (Some file) (init in_file uuid geom) = (Ok tt, s') ->
  NoDup (map fst (datasets s'))
  /\ (forall key w,
         In (key, w) (datasets s') ->
         name w = key /\ geom_uuid w = uuid /\ location w = "points"
         /\ In w (built_data s'))
  /\ (List.length (datasets s') <= List.length (built_data s'))%nat.
Proof.
  intros E.
  destruct (read_kept _ _ _ _ _ E) as ((K1 & K2 & _ & K4 & _) & U & B).
  assert (H : forall key w,
             In (key, w) (datasets s') ->
             name w = key /\ geom_uuid w = uuid /\ location w = "points"
             /\ In w (built_data s')).
  { intros key w Hin.
    destruct (proj1 (Forall_forall _ _) K2 _ Hin) as (N & G & L).
    simpl in N, G, L. rewrite B. rewrite <- U.
    repeat split; auto. exact (K4 _ Hin). }
  split; [exact K1|]. split; [exact H|].
  rewrite <- (length_map snd).
  apply NoDup_incl_length.
  - assert (Hk : map fst (datasets s') = map name (map snd (datasets s'))).
    { rewrite map_map. apply map_ext_in. intros [k w] Hin.
      simpl. symmetry. exact (proj1 (H _ _ Hin)). }
    rewrite Hk in K1. eapply NoDup_map_inv; eauto.
  - intros w Hin. apply in_map_iff in Hin.
    destruct Hin as ([k w'] & <- & Hin). exact (proj2 (proj2 (proj2 (H _ _ Hin)))).
Qed.

End Fort13Datasets.

(** The two facts about a read that its callers use. *)
Lemma fort13_read_sized (fos : string -> option float)
      (np_mean : list float -> float) (in_file uuid : string) (geom : Z)
      (file : list string) (s' : Fort13Reader.t) :
  Fort13Reader.read fos np_mean (Some file)
    (Fort13Reader.init in_file uuid geom) = (Ok tt, s') ->
  Fort13Reader.first_int (nth 1 file EmptyString)
  = Ok (Fort13Reader._num_nodes s')
  /\ 0 < Fort13Reader._num_nodes s'
  /\ Fort13Reader._num_nodes s' = geom
  /\ Forall (fun kv => Z.of_nat (List.length
                                   (Fort13Reader.values (snd kv)))
                       = Fort13Reader._num_nodes s')
       (Fort13Reader.datasets s')
  /\ Forall (fun w => Z.of_nat (List.length (Fort13Reader.values w))
                      = Fort13Reader._num_nodes s')
       (Fort13Reader.built_data s').
Proof. apply read_datasets_sized. Qed.

Lemma fort13_read_named (fos : string -> option float)
      (np_mean : list float -> float) (in_file uuid : string) (geom : Z)
      (file : list string) (s' : Fort13Reader.t) :
  Fort13Reader.read fos np_mean (Some file)
    (Fort13Reader.init in_file uuid geom) = (Ok tt, s') ->
  NoDup (map fst (Fort13Reader.datasets s'))
  /\ (forall key w,
         In (key, w) (Fort13Reader.datasets s') ->
         Fort13Reader.name w = key
         /\ Fort13Reader.geom_uuid w = uuid
         /\ Fort13Reader.location w = "points").
Proof.
  intros E.
  destruct (read_kept _ _ _ _ _ _ _ E) as ((K1 & K2 & _) & U & _).
  split; [exact K1|]. intros key w Hin.
  destruct (proj1 (Forall_forall _ _) K2 _ Hin) as (N & G & L).
  simpl in N, G, L. rewrite <- U. auto.
Qed.


Lemma fort13_datasets_by_name_witness :
  let file := text_lines
                ["grid"; "2"; "2";
                 "mannings_n_at_sea_floor"; "m"; "1"; "0.5";
                 "other"; "m"; "1"; "0.5";
                 "mannings_n_at_sea_floor"; "0";
                 "mannings_n_at_sea_floor"; "1"; "2 1.5"] in
  let out := Fort13Reader.read decimal_float (fun _ => zero) (Some file)
               (Fort13Reader.init "fort.13" "uuid" 2) in
  fst out = Ok tt
  /\ map fst (Fort13Reader.datasets (snd out)) = ["ManningsN"]
  /\ map Fort13Reader.name (Fort13Reader.built_data (snd out))
     = ["ManningsN"; "ManningsN"]
  /\ (List.length (Fort13Reader.datasets (snd out))
      <= List.length (Fort13Reader.built_data (snd out)))%nat.
Proof.
  intros file out.
  destruct out as [res s'] eqn:E.
  assert (Hres : res = Ok tt
                 /\ map fst (Fort13Reader.datasets s') = ["ManningsN"]
                 /\ map Fort13Reader.name (Fort13Reader.built_data s')
                    = ["ManningsN"; "ManningsN"]).
  { unfold out in E. vm_compute in E. inversion E; subst.
    repeat split; reflexivity. }
  destruct Hres as (-> & Hd & Hb).
  cbn [fst snd]. split; [reflexivity|]. split; [exact Hd|].
  split; [exact Hb|].
  exact (proj2 (proj2 (fort13_datasets_by_name decimal_float (fun _ => zero)
                         "fort.13" "uuid" 2 file s' E))).
Defined.

(** ** The tool "Datasets from fort.13 File" *)

Section Fort13Tool.

Import Fort13Reader DatasetsFromFort13Tool.

Variable fos : string -> option float.
Variable np_mean : list float -> float.

(** X12.  When the tool "Datasets from fort.13 File" runs to its end, the
    datasets it hands out have pairwise distinct names, belong to the
    input grid, are located at points and hold one value for each point of
    the grid.  It fails with the error of the reader when the path is no
    file or the file is empty. *)
Theorem fort13_tool_outputs
  (input_grid : grid) (fort_13_file : string) (file : option (list string)) :
  (forall outs,
      run fos np_mean input_grid fort_13_file file = Ok outs ->
      NoDup (map name outs)
      /\ Forall (fun w =>
                   geom_uuid w = uuid input_grid
                   /\ location w = "points"
                   /\ Z.of_nat (List.length (values w))
                      = point_count input_grid) outs)
  /\ (file = None \/ file = Some [] ->
      run fos np_mean input_grid fort_13_file file
      = Raise (FileNotFound fort_13_file)).
Proof.
  split.
  - intros outs E. unfold run, get_grid_info in E.
    destruct (read fos np_mean file _) as [[[]|e] s'] eqn:Er;
      [| discriminate].
    cbn [bind] in E. injection E as <-.
    destruct file as [file|].
    2:{ unfold read in Er. rewrite mbind_get in Er. discriminate. }
    destruct (fort13_read_sized _ _ _ _ _ _ _ Er) as (_ & _ & Hg & Hs & _).
    destruct (fort13_read_named _ _ _ _ _ _ _ Er) as (K1 & K2).
    unfold dict_values. split.
    + assert (Hk : map fst (datasets s') = map name (map snd (datasets s'))).
      { rewrite map_map. apply map_ext_in. intros [k w] Hin.
        simpl. symmetry. exact (proj1 (K2 _ _ Hin)). }
      now rewrite <- Hk.
    + apply Forall_map, Forall_forall. intros [k w] Hin.
      destruct (K2 _ _ Hin) as (_ & G & L).
      pose proof (proj1 (Forall_forall _ _) Hs _ Hin) as Hv.
      simpl in *. rewrite <- Hg. auto.
  - intros [->| ->]; reflexivity.
Qed.

End Fort13Tool.

Lemma fort13_tool_outputs_witness :
  let g := DatasetsFromFort13Tool.mk_grid "uuid" 2 in
  let file := text_lines
                ["grid"; "2"; "1";
                 "surface_directional_effective_roughness_length"; "m"; "2";
                 "0.5 0.5";
                 "surface_directional_effective_roughness_length"; "1";
                 "2 1.5 2.5"] in
  exists outs,
    DatasetsFromFort13Tool.run decimal_float (fun _ => zero) g "fort.13"
      (Some file) = Ok outs
    /\ map Fort13Reader.name outs = ["Z0Land000"; "Z0Land030"]
    /\ NoDup (map Fort13Reader.name outs)
    /\ Forall (fun w => List.length (Fort13Reader.values w) = 2%nat) outs.
Proof.
  intros g file.
  destruct (DatasetsFromFort13Tool.run decimal_float (fun _ => zero) g
              "fort.13" (Some file)) as [outs|e] eqn:E;
    [| vm_compute in E; discriminate].
  exists outs.
  destruct (proj1 (fort13_tool_outputs decimal_float (fun _ => zero) g
                     "fort.13" (Some file)) outs E) as (N & F).
  split; [reflexivity|].
  split; [vm_compute in E; injection E as <-; reflexivity|].
  split; [exact N|].
  eapply Forall_impl; [| exact F]. simpl. intros w (_ & _ & H). lia.
Defined.

(** ** The mesh reader reads only the head of the file *)

Section Fort14Head.

Import Fort14Reader.

Variable fos : string -> option float.
Variable TRIANGLE : Z.
Variable extents : list point -> point * point.
Variable extra : list string.

Lemma getitem_app_head {A : Type} (l more : list A) (i : Z) (x : A) :
  getitem l i = Ok x -> 0 <= i ->
  getitem (l ++ more) i = Ok x /\ i < Z.of_nat (List.length l).
Proof.
  intros H Hi. rewrite <- (Z2Nat.id i Hi) in H |- *.
  apply getitem_nat in H. split.
  - apply getitem_nat. rewrite nth_error_app1; [exact H |].
    apply nth_error_Some. congruence.
  - assert (Z.to_nat i < List.length l)%nat
      by (apply nth_error_Some; congruence).
    lia.
Qed.

Local Abbreviation longer s := (set_lines (app (lines s) extra) s).

Lemma next_line_data_head (s s' : t) (toks : list string) :
  next_line_data s = (Ok toks, s') ->
  0 <= current_line s ->
  next_line_data (longer s) = (Ok toks, longer s')
  /\ current_line s' = current_line s + 1
  /\ lines s' = lines s
  /\ current_line s' <= Z.of_nat (List.length (lines s)).
Proof.
  unfold next_line_data, mbind, get, lift, modify, ret. intros H Hc.
  destruct (getitem (lines s) (current_line s)) as [l|] eqn:E;
    [| discriminate].
  destruct (getitem_app_head _ extra _ _ E Hc) as (E' & B).
  cbn [lines current_line set_lines]. rewrite E'.
  injection H as <- <-. cbn [lines current_line set_current_line].
  repeat split; lia.
Qed.

Lemma read_nodes_head (n : nat) :
  forall s s',
    read_nodes fos n s = (Ok tt, s') ->
    0 <= current_line s <= Z.of_nat (List.length (lines s)) ->
    read_nodes fos n (longer s) = (Ok tt, longer s')
    /\ current_line s' = current_line s + Z.of_nat n
    /\ lines s' = lines s
    /\ num_nodes s' = num_nodes s /\ num_cells s' = num_cells s
    /\ mesh_name s' = mesh_name s
    /\ current_line s' <= Z.of_nat (List.length (lines s)).
Proof.
  induction n as [|n IH]; intros s s' H Hc; simpl in H |- *.
  - injection H as <-. repeat split; lia.
  - unfold mbind at 1 in H.
    destruct (next_line_data s) as [[toks|e] s1] eqn:En; [| discriminate].
    destruct (next_line_data_head _ _ _ En ltac:(lia)) as (En' & C1 & L1 & B1).
    assert (F1 : num_nodes s1 = num_nodes s /\ num_cells s1 = num_cells s
                 /\ mesh_name s1 = mesh_name s).
    { destruct (next_line_data_ok _ _ _ En ltac:(lia)) as (l & _ & _ & ->).
      repeat split. }
    unfold mbind at 1. rewrite En'.
    unfold mbind at 1, get in H. unfold mbind at 1, lift in H.
    unfold mbind at 1, get. unfold mbind at 1, lift.
    cbn [pt_map set_lines].
    destruct (node_record fos toks) as [rec|] eqn:Er; [| discriminate].
    unfold mbind at 1, modify in H. unfold mbind at 1, modify.
    apply IH in H; [| cbn [current_line lines set_pt_map]; rewrite L1; lia].
    cbn [current_line lines set_pt_map num_nodes num_cells mesh_name] in H.
    destruct H as (H & C & L & N & K & Mn & B).
    destruct F1 as (N1 & K1 & Mn1). rewrite L1 in B.
    split; [exact H |]. repeat split; try congruence; lia.
Qed.

Lemma read_cells_head (n : nat) :
  forall s s' cells,
    read_cells TRIANGLE n s = (Ok cells, s') ->
    0 <= current_line s <= Z.of_nat (List.length (lines s)) ->
    read_cells TRIANGLE n (longer s) = (Ok cells, longer s')
    /\ current_line s' = current_line s + Z.of_nat n
    /\ lines s' = lines s
    /\ current_line s' <= Z.of_nat (List.length (lines s)).
Proof.
  induction n as [|n IH]; intros s s' cells H Hc; simpl in H |- *.
  - injection H as <- <-. repeat split; lia.
  - unfold mbind at 1, _get_cell_stream_vals in H.
    unfold mbind at 1 in H.
    destruct (next_line_data s) as [[toks|e] s1] eqn:En; [| discriminate].
    destruct (next_line_data_head _ _ _ En ltac:(lia)) as (En' & C1 & L1 & B1).
    unfold mbind at 1, _get_cell_stream_vals. unfold mbind at 1.
    rewrite En'.
    unfold mbind at 1, get, lift in H. unfold mbind at 1, get, lift.
    cbn [pt_map set_lines].
    destruct (cell_record TRIANGLE (pt_map s1) toks) as [c|] eqn:Er;
      [| discriminate].
    unfold mbind at 1 in H. unfold mbind at 1.
    destruct (read_cells TRIANGLE n s1) as [[cs|e] s2] eqn:Ec;
      [| discriminate].
    apply IH in Ec; [| rewrite L1; lia].
    destruct Ec as (Ec & C & L & B). rewrite Ec.
    unfold ret in H |- *. injection H as <- <-. rewrite L1 in B.
    split; [reflexivity |]. repeat split; try congruence; lia.
Qed.

(** X13.  A mesh read that succeeds has read the title line, the count
    line, one line for each node and one for each element, and nothing
    else: the file has at least that many lines, the grid name is the
    stripped first line, and the same file followed by any further lines
    (the boundary sections of a fort.14) gives the same grid and the same
    projection. *)
Theorem fort14_reads_only_the_mesh
  (file_lines : list string) (g : option ugrid) (w : wkt_string) (s : t) :
  read fos TRIANGLE extents (Some file_lines) init = (Ok (g, w), s) ->
  read fos TRIANGLE extents (Some (file_lines ++ extra)%list) init
  = (Ok (g, w), set_lines (file_lines ++ extra)%list s)
  /\ current_line s
     = 2 + Z.max 0 (num_nodes s) + Z.max 0 (num_cells s)
  /\ current_line s <= Z.of_nat (List.length file_lines)
  /\ mesh_name s = strip (nth 0 file_lines EmptyString).
Proof.
  destruct file_lines as [|l0 rest]; [intros H; inversion H |].
  change ((l0 :: rest) ++ extra)%list with (l0 :: (rest ++ extra))%list.
  intros H.
  unfold read in H |- *. set (fl := l0 :: rest) in *.
  unfold mbind at 1 in H. unfold mbind at 1.
  unfold _parse_lines in H |- *.
  unfold mbind at 1, modify at 1 in H. unfold mbind at 1, modify at 1.
  unfold mbind at 1, get at 1 in H. unfold mbind at 1, get at 1.
  unfold mbind at 1, lift at 1 in H. unfold mbind at 1, lift at 1.
  cbn [lines set_lines init current_line getitem] in H |- *.
  change (getitem fl 0) with (Ok l0) in H.
  change (getitem (l0 :: rest ++ extra)%list 0) with (Ok l0).
  cbv iota beta in H |- *.
  unfold mbind at 1, modify at 1 in H. unfold mbind at 1, modify at 1.
  unfold mbind at 1, modify at 1 in H. unfold mbind at 1, modify at 1.
  cbn [set_current_line set_mesh_name set_lines lines mesh_name pt_map
       assume_geo_coords num_nodes num_cells current_line wkt co_grid init]
    in H |- *.
  set (s1 := set_current_line (0 + 1)
                (set_mesh_name (strip l0) (set_lines fl init))) in H.
  change (set_current_line (0 + 1)
            (set_mesh_name (strip l0)
               (set_lines (l0 :: rest ++ extra)%list init)))
    with (longer s1).
  unfold _read_mesh in H |- *.
  unfold mbind at 1 in H.
  destruct (next_line_data s1) as [[toks|e] s2] eqn:En; [| discriminate].
  destruct (next_line_data_head _ _ _ En ltac:(simpl; lia))
    as (En' & C2 & L2 & B2).
  destruct (next_line_data_ok _ _ _ En ltac:(simpl; lia)) as (l1 & _ & _ & Es2).
  assert (M2 : mesh_name s2 = strip l0) by (rewrite Es2; reflexivity).
  clear Es2.
  unfold mbind at 1. rewrite En'.
  unfold mbind at 1, lift at 1 in H. unfold mbind at 1, lift at 1.
  destruct (int_at toks 0) as [nc|] eqn:Enc; [| discriminate].
  unfold mbind at 1, modify at 1 in H. unfold mbind at 1, modify at 1.
  unfold mbind at 1, lift at 1 in H. unfold mbind at 1, lift at 1.
  destruct (int_at toks 1) as [nn|] eqn:Enn; [| discriminate].
  unfold mbind at 1, modify at 1 in H. unfold mbind at 1, modify at 1.
  set (s3 := set_num_nodes nn (set_num_cells nc s2)) in H.
  change (set_num_nodes nn (set_num_cells nc (longer s2))) with (longer s3).
  assert (H3 : current_line s3 = 2 /\ lines s3 = fl /\ num_nodes s3 = nn
               /\ num_cells s3 = nc /\ mesh_name s3 = strip l0).
  { subst s3. cbn [current_line lines num_nodes num_cells mesh_name
                   set_num_nodes set_num_cells].
    rewrite C2, L2, M2. repeat split. }
  destruct H3 as (C3 & L3 & N3 & K3 & M3).
  assert (B3 : current_line s3 <= Z.of_nat (List.length (lines s3))).
  { rewrite C3, L3. rewrite C2 in B2. exact B2. }
  clearbody s3.
  unfold mbind at 1 in H.
  destruct (read_nodes fos (range_len nn) s3) as [[[]|e] s4] eqn:Ern;
    [| discriminate].
  destruct (read_nodes_head _ _ _ Ern ltac:(lia))
    as (Ern' & C4 & L4 & N4 & K4 & M4 & B4).
  unfold mbind at 1. rewrite Ern'.
  unfold mbind at 1 in H.
  destruct (read_cells TRIANGLE (range_len nc) s4) as [[cells|e] s5] eqn:Erc;
    [| discriminate].
  destruct (read_cells_head _ _ _ _ Erc ltac:(rewrite L4; lia))
    as (Erc' & C5 & L5 & B5).
  destruct (read_cells_inv _ _ _ _ _ Erc ltac:(lia)) as (_ & _ & Es5).
  unfold mbind at 1. rewrite Erc'.
  unfold mbind at 1, get at 1 in H. unfold mbind at 1, get at 1.
  unfold mbind at 1, modify at 1 in H. unfold mbind at 1, modify at 1.
  cbn [pt_map set_lines] in H |- *.
  remember (map fst (dict_values (pt_map s5))) as pts eqn:Epts.
  destruct (extents pts) as [ex_min ex_max] eqn:Eex.
  assert (Hs5 : current_line s5 = 2 + Z.max 0 nn + Z.max 0 nc
                /\ current_line s5 <= Z.of_nat (List.length fl)
                /\ mesh_name s5 = strip l0 /\ num_nodes s5 = nn
                /\ num_cells s5 = nc /\ lines s5 = fl).
  { split; [unfold range_len in *; lia |].
    split; [rewrite L4, L3 in B5; exact B5 |].
    rewrite Es5. cbn [mesh_name num_nodes num_cells lines set_current_line].
    repeat split; congruence. }
  destruct Hs5 as (C & B & Mn & N & K & L).
  clear Es5.
  destruct (within_geographic ex_min ex_max) eqn:Ew;
    unfold _assign_wkt, modify, mbind, get, ret in H |- *;
    cbn [fst snd assume_geo_coords set_assume_geo_coords set_co_grid
         set_lines set_wkt co_grid wkt lines] in H |- *;
    try destruct (assume_geo_coords s5);
    cbn [fst snd assume_geo_coords set_assume_geo_coords set_co_grid
         set_lines set_wkt co_grid wkt lines] in H |- *;
    injection H as <- <- <-;
    cbn [current_line num_nodes num_cells mesh_name set_wkt set_lines
         set_assume_geo_coords set_co_grid lines pt_map assume_geo_coords
         wkt co_grid];
    rewrite ?N, ?K, ?L; (split; [reflexivity |]); auto.
Qed.

End Fort14Head.

Lemma fort14_reads_only_the_mesh_witness :
  let lines := text_lines ["grid"; "1 3";
                           "1 0.0 0.0 5.0"; "2 10.0 0.0 5.0";
                           "3 10.0 10.0 1.5";
                           "1 3 1 2 3"] in
  let extra := text_lines ["0 = Number of open boundaries";
                           "0 = Total number of open boundary nodes"] in
  let out := Fort14Reader.read decimal_float 5 Fort14Reader.minmax_extents
               (Some lines) Fort14Reader.init in
  let out' := Fort14Reader.read decimal_float 5 Fort14Reader.minmax_extents
                (Some (lines ++ extra)%list) Fort14Reader.init in
  is_ok (fst out) = true
  /\ fst out' = fst out
  /\ Fort14Reader.current_line (snd out) = 6
  /\ Fort14Reader.mesh_name (snd out) = "grid".
Proof.
  intros lines extra out out'.
  destruct out as [res s] eqn:E.
  assert (Hres : exists g w, res = Ok (g, w)
                             /\ Fort14Reader.num_nodes s = 3
                             /\ Fort14Reader.num_cells s = 1).
  { unfold out in E. vm_compute in E. inversion E; subst.
    do 2 eexists. repeat split; reflexivity. }
  destruct Hres as (g & w & -> & Hn & Hc).
  destruct (fort14_reads_only_the_mesh decimal_float 5
              Fort14Reader.minmax_extents extra lines g w s E)
    as (H' & C & _ & Mn).
  split; [reflexivity |]. split; [unfold out'; rewrite H'; reflexivity |].
  split; [simpl snd; rewrite C, Hn, Hc; reflexivity |].
  simpl snd. rewrite Mn. reflexivity.
Defined.

(** ** The lists of a boundary coverage *)

Section BoundaryLists.

Import InitialFort14Reader Notions Boundaries.

Variable uninitialized : Z.

Lemma slice_old {A : Type} (l more : list A) (start n : nat) :
  (start + n <= List.length l)%nat ->
  firstn n (skipn start (l ++ more)) = firstn n (skipn start l).
Proof.
  intros H. rewrite skipn_app, firstn_app, length_skipn.
  replace (n - (List.length l - start))%nat with 0%nat by lia.
  rewrite firstn_O, app_nil_r. reflexivity.
Qed.

Lemma slice_new {A : Type} (l ns more : list A) (start n : nat) :
  start = List.length l -> n = List.length ns ->
  firstn n (skipn start (l ++ ns ++ more)) = ns.
Proof.
  intros -> ->. rewrite skipn_app, skipn_all, Nat.sub_diag. simpl.
  rewrite firstn_app, firstn_all, Nat.sub_diag, firstn_O, app_nil_r.
  reflexivity.
Qed.

(** A nodestring that lies within [nodes] keeps its nodes when the lists
    grow at the end. *)
Lemma arc_nodes_old (c c' : coverage) (i : nat) (starts counts ns : list Z) :
  (i < List.length (nodes_start_idx_data c))%nat ->
  (i < List.length (node_count_data c))%nat ->
  nodes_start_idx_data c' = (nodes_start_idx_data c ++ starts)%list ->
  node_count_data c' = (node_count_data c ++ counts)%list ->
  nodes c' = (nodes c ++ ns)%list ->
  whole c i ->
  arc_nodes c' i = arc_nodes c i /\ whole c' i.
Proof.
  intros Hs Hc Es Ec En W. unfold arc_nodes, whole in *.
  rewrite Es, Ec, En, !app_nth1 by assumption. split.
  - apply slice_old. exact W.
  - rewrite length_app. lia.
Qed.

Local Abbreviation tiled c :=
  (List.length (nodes_start_idx_data c) = List.length (comp_id_data c)
   /\ List.length (node_count_data c) = List.length (comp_id_data c)
   /\ tiles c
   /\ forall i, lt i (List.length (comp_id_data c)) -> whole c i).

Lemma tiles_old (c c' : coverage) (starts counts ns : list Z) :
  tiled c ->
  nodes_start_idx_data c' = (nodes_start_idx_data c ++ starts)%list ->
  node_count_data c' = (node_count_data c ++ counts)%list ->
  nodes c' = (nodes c ++ ns)%list ->
  List.concat (map (arc_nodes c') (seq 0 (List.length (comp_id_data c))))
  = nodes c
  /\ forall i, (i < List.length (comp_id_data c))%nat -> whole c' i.
Proof.
  intros (A1 & A2 & T & W) Es Ec En. split.
  - rewrite <- T. f_equal. apply map_ext_in. intros i Hi.
    apply in_seq in Hi.
    apply (arc_nodes_old c c' i starts counts ns); auto; try lia.
    apply W. lia.
  - intros i Hi.
    apply (arc_nodes_old c c' i starts counts ns); auto; lia.
Qed.

(** One more nodestring, with as many nodes as its count. *)
Lemma tiled_one (c c' : coverage) (id n : Z) (ns : list Z) :
  tiled c ->
  comp_id_data c' = (comp_id_data c ++ [id])%list ->
  nodes_start_idx_data c'
  = (nodes_start_idx_data c ++ [Z.of_nat (List.length (nodes c))])%list ->
  node_count_data c' = (node_count_data c ++ [n])%list ->
  nodes c' = (nodes c ++ ns)%list ->
  List.length ns = Z.to_nat n ->
  tiled c'.
Proof.
  intros J Ei Es Ec En L.
  destruct (tiles_old c c' _ _ _ J Es Ec En) as (T' & W').
  destruct J as (A1 & A2 & T & W).
  assert (S0 : nth (List.length (comp_id_data c)) (nodes_start_idx_data c') 0
               = Z.of_nat (List.length (nodes c)))
    by (rewrite Es; apply nth_app_at0; lia).
  assert (C0 : nth (List.length (comp_id_data c)) (node_count_data c') 0 = n)
    by (rewrite Ec; apply nth_app_at0; lia).
  split; [rewrite Es, Ei, !length_app; simpl; lia |].
  split; [rewrite Ec, Ei, !length_app; simpl; lia |].
  split.
  - unfold tiles. rewrite Ei, length_app. simpl List.length.
    rewrite seq_app, map_app, concat_app, T'. simpl.
    rewrite app_nil_r, En. f_equal.
    unfold arc_nodes. rewrite S0, C0, En, Nat2Z.id.
    rewrite <- (app_nil_r ns) at 1. apply slice_new; auto.
  - intros i Hi. rewrite Ei, length_app in Hi. simpl in Hi.
    destruct (Nat.eq_dec i (List.length (comp_id_data c))) as [-> | Hne].
    + unfold whole. rewrite S0, C0, En, length_app, Nat2Z.id. lia.
    + apply W'. lia.
Qed.

(** The two nodestrings of a levee pair: the nodes of the first side,
    then the nodes of the second. *)
Lemma tiled_two (c c' : coverage) (id n : Z) (side1 side2 : list Z) :
  tiled c ->
  comp_id_data c' = (comp_id_data c ++ [id; id])%list ->
  nodes_start_idx_data c'
  = (nodes_start_idx_data c
       ++ [Z.of_nat (List.length (nodes c));
           Z.of_nat (List.length (nodes c)) + n])%list ->
  node_count_data c' = (node_count_data c ++ [n; n])%list ->
  nodes c' = (nodes c ++ side1 ++ side2)%list ->
  List.length side1 = Z.to_nat n ->
  List.length side2 = Z.to_nat n ->
  tiled c'.
Proof.
  intros J Ei Es Ec En L1 L2.
  destruct (tiles_old c c' _ _ _ J Es Ec En) as (T' & W').
  destruct J as (A1 & A2 & T & W).
  set (N := List.length (comp_id_data c)) in *.
  assert (S0 : nth N (nodes_start_idx_data c') 0
               = Z.of_nat (List.length (nodes c)))
    by (rewrite Es; apply nth_app_at0; lia).
  assert (S1 : nth (S N) (nodes_start_idx_data c') 0
               = Z.of_nat (List.length (nodes c)) + n)
    by (rewrite Es; apply nth_app_at1; lia).
  assert (C0 : nth N (node_count_data c') 0 = n)
    by (rewrite Ec; apply nth_app_at0; lia).
  assert (C1 : nth (S N) (node_count_data c') 0 = n)
    by (rewrite Ec; apply nth_app_at1; lia).
  assert (H1 : arc_nodes c' N = side1).
  { unfold arc_nodes. rewrite S0, C0, En, Nat2Z.id.
    apply slice_new; auto. }
  assert (H2 : arc_nodes c' (S N) = side2).
  { unfold arc_nodes. rewrite S1, C1, En.
    destruct (Z.le_gt_cases 0 n) as [Hn | Hn].
    - rewrite app_assoc. rewrite <- (app_nil_r side2) at 1.
      apply slice_new; [rewrite length_app; lia | lia].
    - replace (Z.to_nat n) with 0%nat by lia.
      destruct side2; [reflexivity | simpl in L2; lia]. }
  split; [rewrite Es, Ei, !length_app; simpl; lia |].
  split; [rewrite Ec, Ei, !length_app; simpl; lia |].
  split.
  - unfold tiles. rewrite Ei, length_app. simpl List.length. fold N.
    rewrite seq_app, map_app, concat_app, T'. simpl.
    rewrite H1, H2, app_nil_r, En. reflexivity.
  - intros i Hi. rewrite Ei, length_app in Hi. simpl in Hi. fold N in Hi.
    destruct (Nat.eq_dec i N) as [-> | Hne];
      [| destruct (Nat.eq_dec i (S N)) as [-> | Hne']].
    + unfold whole. rewrite S0, C0, En, !length_app, Nat2Z.id. lia.
    + unfold whole. rewrite S1, C1, En, !length_app. lia.
    + apply W'. lia.
Qed.

Lemma tiled_arc (s s' : t) (c c' : coverage) :
  arc_added uninitialized s c s' c' -> tiled c -> tiled c'.
Proof.
  intros [id n ns rivers rows Ei Es Ec En L _ _ _ _ _ _
         | id n rows Ei Es Ec En L _ _ _ _] J.
  - eapply tiled_one; eauto.
  - eapply tiled_two; eauto; rewrite length_map; exact L.
Qed.

Lemma Forall_repeat {A : Type} (P : A -> Prop) (x : A) (n : nat) :
  P x -> Forall P (List.repeat x n).
Proof. intros H. induction n; simpl; auto. Qed.

Lemma levee_table_grow (c c' : coverage) (ids ns : list Z) (id : Z)
      (rows : list levee_row) :
  levee_table uninitialized c ->
  comp_id_data c' = (comp_id_data c ++ ids)%list -> In id ids ->
  nodes c' = (nodes c ++ ns)%list ->
  levee_data c' = (levee_data c ++ rows)%list ->
  levee_coords c'
  = (levee_coords c ++ List.repeat id (List.length rows))%list ->
  Forall (fun r => In (node1 r) ns
                   /\ (node2 r = uninitialized \/ In (node2 r) ns)) rows ->
  levee_table uninitialized c'.
Proof.
  intros (L & Fi & Fr) Ei Hid En Ed Ec Hr.
  unfold levee_table. rewrite Ei, En, Ed, Ec. split; [| split].
  - rewrite !length_app, repeat_length. lia.
  - apply Forall_app. split.
    + eapply Forall_impl; [| exact Fi]. intros a Ha.
      apply in_or_app. now left.
    + apply Forall_repeat. apply in_or_app. now right.
  - apply Forall_app. split.
    + eapply Forall_impl; [| exact Fr]. intros r (H1 & H2). split.
      * apply in_or_app. now left.
      * destruct H2; [now left | right; apply in_or_app; now left].
    + eapply Forall_impl; [| exact Hr]. intros r (H1 & H2). split.
      * apply in_or_app. now right.
      * destruct H2; [now left | right; apply in_or_app; now right].
Qed.

Lemma levee_table_arc (s s' : t) (c c' : coverage) :
  arc_added uninitialized s c s' c' ->
  levee_table uninitialized c -> levee_table uninitialized c'.
Proof.
  intros [id n ns rivers rows Ei _ _ En _ Ed Ec Hr _ _ _
         | id n rows Ei _ _ En _ Ed Ec _ _] K.
  - eapply levee_table_grow; eauto; [now left |].
    destruct Hr as [-> | (-> & Hu)]; [constructor |].
    apply Forall_forall. intros r Hr. split.
    + now apply in_map.
    + left. rewrite Forall_forall in Hu. auto.
  - eapply levee_table_grow; eauto; [now left |].
    apply Forall_forall. intros r Hr. split.
    + apply in_or_app. left. now apply in_map.
    + right. apply in_or_app. right. now apply in_map.
Qed.

End BoundaryLists.

Section BoundaryGrowth.

Import InitialFort14Reader Notions Boundaries.

Variable fos : string -> option float.
Variables OCEAN_INDEX MAINLAND_INDEX ISLAND_INDEX RIVER_INDEX : Z.
Variables LEVEE_OUTFLOW_INDEX LEVEE_INDEX RADIATION_INDEX : Z.
Variables ZERO_NORMAL_INDEX FLOW_AND_RADIATION_INDEX UNASSIGNED_INDEX : Z.
Variables NATURAL_INDEX ESSENTIAL_INDEX : Z.
Variable UNINITIALIZED_COMP_ID : Z.
Variable default_atts : bc_atts.

Local Abbreviation populate :=
  (_populate_bc_atts MAINLAND_INDEX ISLAND_INDEX RIVER_INDEX
     LEVEE_OUTFLOW_INDEX LEVEE_INDEX RADIATION_INDEX ZERO_NORMAL_INDEX
     FLOW_AND_RADIATION_INDEX NATURAL_INDEX ESSENTIAL_INDEX).
Local Abbreviation ocean_arc :=
  (read_ocean_arc OCEAN_INDEX UNINITIALIZED_COMP_ID default_atts).
Local Abbreviation ocean_section :=
  (read_ocean_section OCEAN_INDEX UNINITIALIZED_COMP_ID default_atts).
Local Abbreviation levee_outflow :=
  (_read_levee_outflow fos LEVEE_OUTFLOW_INDEX UNINITIALIZED_COMP_ID).
Local Abbreviation levee_and_pipe :=
  (_read_levee_and_pipe fos LEVEE_INDEX FLOW_AND_RADIATION_INDEX).
Local Abbreviation land_arc :=
  (read_land_arc fos MAINLAND_INDEX ISLAND_INDEX RIVER_INDEX
     LEVEE_OUTFLOW_INDEX LEVEE_INDEX RADIATION_INDEX ZERO_NORMAL_INDEX
     FLOW_AND_RADIATION_INDEX NATURAL_INDEX ESSENTIAL_INDEX
     UNINITIALIZED_COMP_ID default_atts).
Local Abbreviation land_arcs :=
  (read_land_arcs fos MAINLAND_INDEX ISLAND_INDEX RIVER_INDEX
     LEVEE_OUTFLOW_INDEX LEVEE_INDEX RADIATION_INDEX ZERO_NORMAL_INDEX
     FLOW_AND_RADIATION_INDEX NATURAL_INDEX ESSENTIAL_INDEX
     UNINITIALIZED_COMP_ID default_atts).
Local Abbreviation generic_arcs :=
  (read_generic_arcs UNASSIGNED_INDEX UNINITIALIZED_COMP_ID default_atts).
Local Abbreviation sections :=
  (read_sections fos OCEAN_INDEX MAINLAND_INDEX ISLAND_INDEX RIVER_INDEX
     LEVEE_OUTFLOW_INDEX LEVEE_INDEX RADIATION_INDEX ZERO_NORMAL_INDEX
     FLOW_AND_RADIATION_INDEX UNASSIGNED_INDEX NATURAL_INDEX ESSENTIAL_INDEX
     UNINITIALIZED_COMP_ID default_atts).
Local Abbreviation coverages :=
  (_read_coverages fos OCEAN_INDEX MAINLAND_INDEX ISLAND_INDEX RIVER_INDEX
     LEVEE_OUTFLOW_INDEX LEVEE_INDEX RADIATION_INDEX ZERO_NORMAL_INDEX
     FLOW_AND_RADIATION_INDEX UNASSIGNED_INDEX NATURAL_INDEX ESSENTIAL_INDEX
     UNINITIALIZED_COMP_ID default_atts).

(** The lists of ocean and river nodes of the reader are as they were. *)
Local Abbreviation same_bounds s s' :=
  (ocean_boundaries s' = ocean_boundaries s
   /\ river_boundaries s' = river_boundaries s).
Local Abbreviation keeps m :=
  (forall s r s', m s = (r, s') -> same_bounds s s').

Lemma keeps_bind {A B : Type} (m : M t A) (f : A -> M t B) :
  keeps m -> (forall a, keeps (f a)) -> keeps (mbind m f).
Proof.
  intros Hm Hf s r s'. unfold mbind.
  destruct (m s) as [[a|e] s1] eqn:E; apply Hm in E; destruct E as (E1 & E2).
  - intros H. apply Hf in H. destruct H. split; congruence.
  - intros H. injection H as _ <-. split; assumption.
Qed.

Lemma keeps_ret {A : Type} (a : A) : keeps (@ret t A a).
Proof. intros s r s' H. injection H as _ <-. split; reflexivity. Qed.

Lemma keeps_lift {A : Type} (a : result A) : keeps (@lift t A a).
Proof. intros s r s' H. injection H as _ <-. split; reflexivity. Qed.

Lemma keeps_next_line : keeps next_line.
Proof.
  unfold next_line. intros s r s'. unfold mbind, get, lift, modify, ret.
  destruct (getitem (lines s) (current_line s));
    intros H; injection H as _ <-; split; reflexivity.
Qed.

Lemma keeps_point_at (toks : list string) (i : Z) : keeps (point_at toks i).
Proof.
  unfold point_at. intros s r s'. unfold mbind, get, lift.
  destruct (InitialFort14Reader.int_at toks i);
    intros H; injection H as _ <-; split; reflexivity.
Qed.

Lemma keeps_add_bc_atts : keeps (add_bc_atts default_atts).
Proof. intros s r s' H. injection H as _ <-. split; reflexivity. Qed.

Lemma keeps_update_atts (id : Z) (f : bc_atts -> bc_atts) :
  keeps (update_atts id f).
Proof.
  unfold update_atts. intros s r s'. unfold mbind, get, lift, modify.
  destruct (dict_item Z.eqb id (arcs s));
    intros H; injection H as _ <-; split; reflexivity.
Qed.

Lemma keeps_populate_option (ib id natural slip : Z) :
  keeps (populate_option NATURAL_INDEX ESSENTIAL_INDEX ib id natural slip).
Proof.
  unfold populate_option, set_bc_option, set_tang_slip.
  destruct (ib =? natural); [apply keeps_update_atts |].
  apply keeps_bind; [apply keeps_update_atts |]. intros _.
  destruct (ib =? slip); [apply keeps_update_atts | apply keeps_ret].
Qed.

Lemma keeps_populate (ib id : Z) : keeps (populate ib id).
Proof.
  unfold _populate_bc_atts, set_type, set_galerkin.
  repeat match goal with
         | |- context [if ?b then _ else _] => destruct b
         | |- forall s r s', mbind _ _ s = _ -> _ =>
             apply keeps_bind; [| intros _]
         end;
    first [ apply keeps_update_atts | apply keeps_populate_option
          | apply keeps_ret ].
Qed.

Lemma snap_append_both (idx : Z) (locs : list float) (s s' : t)
      (c c' : coverage) (r : result unit) :
  on_cov (snap_append idx locs) (s, c) = (r, (s', c')) ->
  s' = s /\ exists snap, c' = set_snap_locations snap c.
Proof.
  unfold on_cov, on_fh. destruct (snap_append idx locs c) as [r1 c1] eqn:E.
  intros H. injection H as _ <- <-. split; [reflexivity |].
  eapply snap_append_cov; eauto.
Qed.

(** The node lines of an arc add one node each to [nodes], and to the
    river nodes of the reader when the arc is a river. *)
Lemma read_arc_nodes_added (n : nat) :
  forall river locs s c out s' c',
    read_arc_nodes n river locs (s, c) = (Ok out, (s', c')) ->
    exists ns,
      List.length ns = n
      /\ c' = set_nodes (nodes c ++ ns) c
      /\ ocean_boundaries s' = ocean_boundaries s
      /\ river_boundaries s'
         = (river_boundaries s ++ if river then ns else [])%list.
Proof.
  induction n as [|n IH]; intros river locs s c out s' c' E; simpl in E.
  - injection E as _ <- <-. exists []. split; [reflexivity |].
    rewrite !app_nil_r. split; [destruct c; reflexivity |].
    split; [reflexivity |]. destruct river; rewrite app_nil_r; reflexivity.
  - rewrite mbind_on_self in E.
    destruct (next_line s) as [[l|e] s1] eqn:E1; [|discriminate].
    apply keeps_next_line in E1. destruct E1 as (O1 & R1).
    rewrite mbind_on_self in E.
    destruct (point_at (split l) 0 s1) as [[pt|e] s2] eqn:E2; [|discriminate].
    apply keeps_point_at in E2. destruct E2 as (O2 & R2).
    unfold on_cov, extend_nodes in E. rewrite mbind_on_fh in E.
    unfold modify at 1 in E.
    destruct river.
    + rewrite mbind_on_self in E. unfold modify at 1 in E.
      apply IH in E. destruct E as (ns & L & -> & O & R).
      exists ((snd pt + 1) :: ns). split; [simpl; lia |].
      split; [unfold set_nodes; simpl; rewrite <- app_assoc; reflexivity |].
      simpl in O, R. split; [congruence |].
      rewrite R, R2, R1, <- app_assoc. reflexivity.
    + rewrite mbind_ret in E.
      apply IH in E. destruct E as (ns & L & -> & O & R).
      exists ((snd pt + 1) :: ns). split; [simpl; lia |].
      split; [unfold set_nodes; simpl; rewrite <- app_assoc; reflexivity |].
      split; [congruence |].
      rewrite R, R2, R1. reflexivity.
Qed.

(** The loop of [_read_levee_outflow] gives one row for each line, with
    no second node. *)
Lemma read_levee_outflow_rows_added (n : nat) :
  forall rows locs s rows' locs' s',
    read_levee_outflow_rows fos UNINITIALIZED_COMP_ID n rows locs s
    = (Ok (rows', locs'), s') ->
    exists new,
      rows' = (rows ++ new)%list
      /\ List.length new = n
      /\ Forall (fun r => node2 r = UNINITIALIZED_COMP_ID) new
      /\ same_bounds s s'.
Proof.
  induction n as [|n IH]; intros rows locs s rows' locs' s' E; simpl in E.
  - injection E as <- _ <-. exists []. rewrite app_nil_r. repeat split.
    constructor.
  - unfold mbind at 1 in E.
    destruct (next_line s) as [[l|e] s1] eqn:E1; [|discriminate].
    apply keeps_next_line in E1. destruct E1 as (O1 & R1).
    unfold mbind at 1 in E.
    destruct (point_at (split l) 0 s1) as [[pt|e] s2] eqn:E2; [|discriminate].
    apply keeps_point_at in E2. destruct E2 as (O2 & R2).
    rewrite mbind_lift in E.
    destruct (InitialFort14Reader.float_at fos (split l) 1) as [h|];
      [|discriminate].
    rewrite mbind_lift in E.
    destruct (InitialFort14Reader.float_at fos (split l) 2) as [fc|];
      [|discriminate].
    apply IH in E. destruct E as (new & -> & L & F & O & R).
    eexists (_ :: new). rewrite <- app_assoc.
    split; [reflexivity |]. split; [simpl; lia |].
    split; [constructor; [reflexivity | exact F] |].
    split; congruence.
Qed.

(** The loop of [_read_levee_and_pipe] leaves the ocean and river nodes
    of the reader as they were. *)
Lemma read_levee_rows_bounds (n : nat) :
  forall rows l1 l2 s c r s' c',
    read_levee_rows fos FLOW_AND_RADIATION_INDEX n rows l1 l2 (s, c)
    = (r, (s', c')) ->
    same_bounds s s'.
Proof.
  induction n as [|n IH]; intros rows l1 l2 s c r s' c' E; simpl in E.
  - injection E as _ <- _. split; reflexivity.
  - rewrite mbind_on_self in E.
    destruct (next_line s) as [[l|e] s1] eqn:E1;
      apply keeps_next_line in E1; destruct E1 as (O1 & R1);
      [| injection E as _ <- _; split; assumption].
    assert (Hs1 : forall r0 s0 c0, (r0, (s1, c0)) = (r, (s0, c')) ->
                                   same_bounds s s0).
    { intros r0 s0 c0 H. injection H as _ <- _. split; assumption. }
    rewrite mbind_lift in E.
    destruct (InitialFort14Reader.int_at (split (partition_head "!" l)) 0)
      as [pt1_id|]; [| eapply Hs1; exact E].
    rewrite mbind_lift in E.
    destruct (InitialFort14Reader.int_at (split (partition_head "!" l)) 1)
      as [pt2_id|]; [| eapply Hs1; exact E].
    rewrite mbind_on_self in E. unfold get at 1 in E.
    rewrite mbind_lift in E.
    destruct (dict_item Z.eqb pt1_id (pt_map s1)) as [pt1|];
      [| eapply Hs1; exact E].
    rewrite mbind_lift in E.
    destruct (dict_item Z.eqb pt2_id (pt_map s1)) as [pt2|];
      [| eapply Hs1; exact E].
    rewrite mbind_lift in E.
    destruct (InitialFort14Reader.float_at fos _ 2); [| eapply Hs1; exact E].
    rewrite mbind_lift in E.
    destruct (InitialFort14Reader.float_at fos _ 3); [| eapply Hs1; exact E].
    rewrite mbind_lift in E.
    destruct (InitialFort14Reader.float_at fos _ 4); [| eapply Hs1; exact E].
    unfold mbind at 1 in E.
    match type of E with
    | match ?pipe (?s0, ?c0) with _ => _ end = _ =>
        assert (Hp : fst (snd (pipe (s0, c0))) = s1);
        [| destruct (pipe (s0, c0)) as [[[[[on pz] pd] pc]|e] [s2 c2]] ]
    end.
    + destruct (7 <? _); [| reflexivity].
      rewrite mbind_lift.
      destruct (InitialFort14Reader.float_at fos _ 5) as [ph|];
        [| reflexivity].
      unfold mbind at 1.
      destruct (SFltb ph f100).
      * unfold on_cov. rewrite mbind_on_fh.
        destruct (snap_append _ _ c) as [[[]|e] c1]; [| reflexivity].
        unfold ret at 1; cbv beta iota. rewrite mbind_lift.
        destruct (InitialFort14Reader.float_at fos _ 6); [| reflexivity].
        rewrite mbind_lift.
        destruct (InitialFort14Reader.float_at fos _ 7); reflexivity.
      * unfold ret at 1; cbv beta iota. rewrite mbind_lift.
        destruct (InitialFort14Reader.float_at fos _ 6); [| reflexivity].
        rewrite mbind_lift.
        destruct (InitialFort14Reader.float_at fos _ 7); reflexivity.
    + simpl in Hp. subst s2. apply IH in E. destruct E. split; congruence.
    + simpl in Hp. subst s2. eapply Hs1; exact E.
Qed.

Ltac cov_steps E :=
  unfold push_comp_id, push_partner_id, push_nodes_start_idx,
    push_node_count, extend_nodes, extend_levee_coords, extend_levee_data
    in E;
  repeat first [ rewrite mbind_on_cov_modify in E
               | rewrite mbind_on_cov_len_nodes in E
               | rewrite mbind_on_cov_get in E ].

Local Abbreviation added := (arc_added UNINITIALIZED_COMP_ID).

(** An ocean arc is one nodestring. *)
Lemma read_ocean_arc_added (s s' : t) (c c' : coverage) :
  ocean_arc (s, c) = (Ok tt, (s', c')) -> added s c s' c'.
Proof.
  intros E. unfold read_ocean_arc in E.
  rewrite mbind_on_self in E.
  destruct (next_line s) as [[l|e] s1] eqn:E1; [|discriminate].
  apply keeps_next_line in E1. destruct E1 as (O1 & R1).
  rewrite mbind_lift in E.
  destruct (InitialFort14Reader.int_at (split l) 0) as [n|]; [|discriminate].
  rewrite mbind_on_self in E.
  destruct (add_bc_atts default_atts s1) as [[id|e] s2] eqn:E2;
    [|discriminate].
  apply keeps_add_bc_atts in E2. destruct E2 as (O2 & R2).
  rewrite mbind_on_self in E.
  destruct (set_type id OCEAN_INDEX s2) as [[[]|e] s3] eqn:E3; [|discriminate].
  apply keeps_update_atts in E3. destruct E3 as (O3 & R3).
  cov_steps E.
  unfold mbind at 1 in E.
  match type of E with
  | match ?m ?x with _ => _ end = _ =>
      destruct (m x) as [[out|e] [s4 c4]] eqn:En; [|discriminate]
  end.
  apply read_arc_nodes_added in En. destruct En as (ns & Ln & -> & O4 & R4).
  apply snap_append_both in E. destruct E as (-> & snap & ->).
  apply (one_arc _ s c _ _ id n ns [] []); simpl;
    try reflexivity; try (rewrite ?app_nil_r in *; congruence); auto.
Qed.

(** A land arc is one nodestring, or the two of a levee pair. *)
Lemma read_land_arc_added (n ib : Z) (s s' : t) (c c' : coverage) :
  land_arc n ib (s, c) = (Ok tt, (s', c')) -> added s c s' c'.
Proof.
  intros E. unfold read_land_arc in E.
  rewrite mbind_on_self in E.
  destruct (add_bc_atts default_atts s) as [[id|e] s1] eqn:E1;
    [|discriminate].
  apply keeps_add_bc_atts in E1. destruct E1 as (O1 & R1).
  rewrite mbind_on_self in E.
  destruct (populate ib id s1) as [[[]|e] s2] eqn:E2; [|discriminate].
  apply keeps_populate in E2. destruct E2 as (O2 & R2).
  cov_steps E.
  destruct (ib mod 10 =? 3).
  - cov_steps E. unfold _read_levee_outflow in E.
    rewrite mbind_on_self in E.
    destruct (read_levee_outflow_rows fos UNINITIALIZED_COMP_ID _ [] [] s2)
      as [[[rows locs]|e] s3] eqn:E3; [|discriminate].
    apply read_levee_outflow_rows_added in E3.
    destruct E3 as (new & Hr & L & F & O3 & R3). simpl in Hr. subst rows.
    cov_steps E. unfold on_cov in E. rewrite mbind_on_fh in E.
    destruct (snap_append _ _ _) as [[[]|e] c1] eqn:Es; [|discriminate].
    apply snap_append_cov in Es. destruct Es as (snap & ->).
    unfold on_fh, modify in E. injection E as <- <-.
    apply (one_arc _ s c _ _ id n (map node1 new) [] new); simpl;
      try reflexivity; try (rewrite ?app_nil_r in *; congruence); auto.
    + rewrite length_map. exact L.
    + unfold replicate, range_len in *. rewrite L. reflexivity.
  - destruct ((ib mod 10 =? 4) || (ib mod 10 =? 5)).
    + cov_steps E. unfold _read_levee_and_pipe in E.
      unfold mbind at 1 in E.
      destruct (read_levee_rows fos FLOW_AND_RADIATION_INDEX _ [] [] [] _)
        as [[[[rows l1] l2]|e] [s3 c3]] eqn:Er; [|discriminate].
      pose proof (read_levee_rows_bounds _ _ _ _ _ _ _ _ _ Er) as (O3 & R3).
      apply read_levee_rows_cov in Er. destruct Er as (Lr & snap & ->).
      cov_steps E. unfold on_cov in E. rewrite mbind_on_fh in E.
      destruct (snap_append _ _ _) as [[[]|e] c1] eqn:Es; [|discriminate].
      apply snap_append_cov in Es. destruct Es as (snap1 & ->).
      rewrite mbind_on_fh in E.
      destruct (snap_append _ _ _) as [[[]|e] c1] eqn:Es; [|discriminate].
      apply snap_append_cov in Es. destruct Es as (snap2 & ->).
      unfold on_fh, modify in E. injection E as <- <-.
      apply (two_arcs _ s c _ _ id n rows); simpl;
        try reflexivity; try congruence.
      * rewrite <- !app_assoc. reflexivity.
      * rewrite <- !app_assoc. reflexivity.
      * rewrite <- !app_assoc. reflexivity.
      * rewrite <- !app_assoc. reflexivity.
      * unfold range_len in Lr. simpl in Lr. exact Lr.
      * unfold replicate, range_len in *. simpl in Lr. rewrite Lr.
        reflexivity.
    + cov_steps E. rewrite mbind_on_self_get, mbind_lift in E.
      destruct (dict_item Z.eqb id (arcs s2)) as [atts|]; [|discriminate].
      unfold mbind at 1 in E.
      match type of E with
      | match ?m ?x with _ => _ end = _ =>
          destruct (m x) as [[out|e] [s4 c4]] eqn:En; [|discriminate]
      end.
      apply read_arc_nodes_added in En.
      destruct En as (ns & Ln & -> & O4 & R4).
      apply snap_append_both in E. destruct E as (-> & snap & ->).
      apply (one_arc _ s c _ _ id n ns
               (if arc_type atts =? RIVER_INDEX then ns else []) []); simpl;
        try reflexivity; try (rewrite ?app_nil_r in *; congruence); auto.
      destruct (arc_type atts =? RIVER_INDEX); auto.
Qed.

Section Invariant.

(** A property of the ocean nodes, the river nodes and the lists: [Inv1]
    while the ocean arcs are read, [Inv2] from then on. *)
Variables Inv1 Inv2 : list Z -> list Z -> coverage -> Prop.

Local Abbreviation at1 s c :=
  (Inv1 (ocean_boundaries s) (river_boundaries s) c).
Local Abbreviation at2 s c :=
  (Inv2 (ocean_boundaries s) (river_boundaries s) c).

Hypothesis arc1 : forall s c s' c', added s c s' c' -> at1 s c -> at1 s' c'.
Hypothesis arc2 : forall s c s' c', added s c s' c' -> at2 s c -> at2 s' c'.
Hypothesis ocean_done :
  forall ob rb c, Inv1 ob rb c -> Inv2 (ob ++ nodes c)%list rb c.
Hypothesis no_ocean : forall ob rb c, Inv1 ob rb c -> Inv2 ob rb c.

Lemma for_range_ocean_keeps (n : nat) :
  forall s c s' c',
    for_range n ocean_arc (s, c) = (Ok tt, (s', c')) -> at1 s c -> at1 s' c'.
Proof.
  induction n as [|n IH]; intros s c s' c' E I; simpl in E.
  - injection E as <- <-. exact I.
  - unfold mbind at 1 in E.
    destruct (ocean_arc (s, c)) as [[[]|e] [s1 c1]] eqn:Ea; [|discriminate].
    eapply IH; eauto using read_ocean_arc_added.
Qed.

Lemma read_ocean_section_keeps (s s' : t) (c c' : coverage) :
  ocean_section (s, c) = (Ok tt, (s', c')) -> at1 s c -> at2 s' c'.
Proof.
  intros E I. unfold read_ocean_section in E.
  rewrite mbind_on_self_get in E.
  destruct (current_line s <? _).
  - rewrite mbind_lift in E.
    destruct (getitem (lines s) (current_line s)) as [l|]; [|discriminate].
    rewrite mbind_on_self_modify, mbind_lift in E.
    destruct (if is_nil (split l) then Ok 0
              else InitialFort14Reader.int_at (split l) 0) as [n|];
      [|discriminate].
    unfold mbind at 1 in E.
    destruct (for_range (range_len n) ocean_arc _)
      as [[[]|e] [s1 c1]] eqn:Ef; [|discriminate].
    rewrite mbind_on_cov_get in E.
    unfold on_self, modify in E. injection E as <- <-.
    apply for_range_ocean_keeps in Ef; [| exact I].
    apply ocean_done. exact Ef.
  - injection E as <- <-. apply no_ocean. exact I.
Qed.

Lemma read_land_arcs_keeps (n : nat) :
  forall num_lines line s c r s' c',
    land_arcs n num_lines line (s, c) = (Ok r, (s', c')) ->
    at2 s c -> at2 s' c'.
Proof.
  induction n as [|n IH]; intros num_lines line s c r s' c' E I; simpl in E.
  - injection E as _ <- <-. exact I.
  - rewrite mbind_on_self_get in E.
    destruct (num_lines <=? current_line s).
    + injection E as _ <- <-. exact I.
    + rewrite mbind_on_self in E.
      destruct (next_line s) as [[l|e] s1] eqn:E1; [|discriminate].
      apply keeps_next_line in E1. destruct E1 as (O1 & R1).
      rewrite <- O1, <- R1 in I.
      destruct (is_empty l).
      * injection E as _ <- <-. exact I.
      * rewrite mbind_lift in E.
        destruct (land_header l) as [[[num_arc_nodes ib_type]|]|];
          [| injection E as _ <- <-; exact I | discriminate].
        unfold mbind at 1 in E.
        destruct (land_arc num_arc_nodes ib_type (s1, c))
          as [[[]|e] [s2 c2]] eqn:Ea; [|discriminate].
        eapply IH; eauto using read_land_arc_added.
Qed.

Lemma read_generic_arcs_keeps (n : nat) :
  forall num_lines s c s' c',
    generic_arcs n num_lines (s, c) = (Ok tt, (s', c')) ->
    at2 s c -> at2 s' c'.
Proof.
  induction n as [|n IH]; intros num_lines s c s' c' E I; simpl in E.
  - injection E as <- <-. exact I.
  - rewrite mbind_on_self_get in E.
    destruct (num_lines <=? current_line s).
    + injection E as <- <-. exact I.
    + rewrite mbind_on_self in E.
      destruct (next_line s) as [[l|e] s1] eqn:E1; [|discriminate].
      apply keeps_next_line in E1. destruct E1 as (O1 & R1).
      destruct (is_empty l).
      * injection E as <- <-. rewrite O1, R1. exact I.
      * rewrite mbind_lift in E.
        destruct (InitialFort14Reader.int_at (split l) 0) as [m|];
          [|discriminate].
        rewrite mbind_on_self in E.
        destruct (add_bc_atts default_atts s1) as [[id|e] s2] eqn:E2;
          [|discriminate].
        apply keeps_add_bc_atts in E2. destruct E2 as (O2 & R2).
        cov_steps E.
        unfold mbind at 1 in E.
        match type of E with
        | match ?m ?x with _ => _ end = _ =>
            destruct (m x) as [[out|e] [s4 c4]] eqn:En; [|discriminate]
        end.
        apply read_arc_nodes_added in En.
        destruct En as (ns & Ln & -> & O4 & R4).
        unfold on_cov in E. rewrite mbind_on_fh in E.
        destruct (snap_append _ _ _) as [[[]|e] c1] eqn:Es; [|discriminate].
        apply snap_append_cov in Es. destruct Es as (snap & ->).
        eapply IH; [exact E |].
        eapply arc2; [| exact I].
        apply (one_arc _ s c _ _ id m ns [] []); simpl;
          try reflexivity; try (rewrite ?app_nil_r in *; congruence); auto.
Qed.

Lemma read_sections_keeps (s s' : t) (c c' : coverage) :
  sections (s, c) = (Ok tt, (s', c')) -> at1 s c -> at2 s' c'.
Proof.
  intros E I. unfold read_sections in E.
  unfold mbind at 1 in E.
  destruct (ocean_section (s, c)) as [[[]|e] [s1 c1]] eqn:Eo; [|discriminate].
  apply read_ocean_section_keeps in Eo; [|exact I].
  rewrite mbind_on_self_get in E.
  unfold mbind at 1 in E.
  match type of E with
  | match ?m ?x with _ => _ end = _ =>
      assert (Hl : snd (snd (m x)) = c1
                   /\ same_bounds s1 (fst (snd (m x))));
      [| destruct (m x) as [[line|e] [s2 c2]]; [|discriminate] ]
  end.
  { destruct (current_line s1 <? _); [| repeat split].
    rewrite mbind_lift.
    destruct (getitem (lines s1) (current_line s1)); repeat split. }
  simpl in Hl. destruct Hl as (-> & O2 & R2). rewrite <- O2, <- R2 in Eo.
  rewrite mbind_lift in E.
  destruct (if is_empty line then Ok 0
            else InitialFort14Reader.int_at (split line) 0) as [n|];
    [|discriminate].
  unfold mbind at 1 in E.
  destruct (land_arcs (range_len n) _ _ (s2, c1))
    as [[[read_next_line line']|e] [s3 c3]] eqn:El; [|discriminate].
  apply read_land_arcs_keeps in El; [|exact Eo].
  rewrite mbind_on_self_get in E.
  unfold mbind at 1 in E.
  match type of E with
  | match ?m ?x with _ => _ end = _ =>
      assert (Hl : snd (snd (m x)) = c3
                   /\ same_bounds s3 (fst (snd (m x))));
      [| destruct (m x) as [[line2|e] [s4 c4]]; [|discriminate] ]
  end.
  { destruct (read_next_line && _); [| repeat split].
    unfold on_self. destruct (next_line s3) as [r5 s5] eqn:E5.
    apply keeps_next_line in E5. simpl. tauto. }
  simpl in Hl. destruct Hl as (-> & O4 & R4). rewrite <- O4, <- R4 in El.
  rewrite mbind_lift in E.
  destruct (if is_nil (split line2) then Ok 0
            else InitialFort14Reader.int_at (split line2) 0) as [g|];
    [|discriminate].
  rewrite mbind_on_self_modify in E.
  eapply read_generic_arcs_keeps; [exact E |]. exact El.
Qed.

(** What holds of the empty lists and is kept by every arc holds of the
    datasets of a coverage that is read to its end. *)
Lemma _read_coverages_keeps (s s' : t) :
  coverages s = (Ok tt, s') ->
  at1 s empty_coverage ->
  exists c, mapped_data s' = Some c /\ at2 s' c.
Proof.
  intros E I. unfold _read_coverages in E.
  destruct (sections (s, empty_coverage)) as [[[]|e] [s1 c1]] eqn:Es;
    [|discriminate].
  injection E as <-. exists c1. split; [reflexivity |].
  apply read_sections_keeps in Es; [| exact I]. exact Es.
Qed.

End Invariant.

Local Abbreviation tiled c :=
  (List.length (nodes_start_idx_data c) = List.length (comp_id_data c)
   /\ List.length (node_count_data c) = List.length (comp_id_data c)
   /\ tiles c
   /\ forall i, lt i (List.length (comp_id_data c)) -> whole c i).

(** X14.  In the datasets of a coverage that is read to its end, the
    nodestrings make up the node list: nodestring [i] is the
    [node_count] entries of [nodes] from [nodes_start_idx] on, it has
    that many nodes (none for a count below zero), and the nodestrings
    one after the other, in the order of the lists, are all of [nodes]. *)
Theorem coverage_nodestrings_tile_nodes (s s' : t) :
  coverages s = (Ok tt, s') ->
  exists c,
    mapped_data s' = Some c
    /\ List.concat
         (map (arc_nodes c) (seq 0 (List.length (comp_id_data c))))
       = nodes c
    /\ forall i, (i < List.length (comp_id_data c))%nat ->
                 List.length (arc_nodes c i)
                 = Z.to_nat (nth i (node_count_data c) 0).
Proof.
  intros E.
  destruct (_read_coverages_keeps (fun _ _ c => tiled c)
              (fun _ _ c => tiled c)) with (s := s) (s' := s')
    as (c & Hc & A1 & A2 & T & W); auto.
  - intros s0 c0 s1 c1. apply tiled_arc.
  - intros s0 c0 s1 c1. apply tiled_arc.
  - repeat split. intros i Hi. simpl in Hi. lia.
  - exists c. split; [exact Hc |]. split; [exact T |].
    intros i Hi. specialize (W i Hi). unfold whole in W.
    unfold arc_nodes. rewrite length_slice. lia.
Qed.

(** X15.  In the datasets of a coverage that is read to its end, the
    levee table has one row for each entry of its coordinate; every
    entry of the coordinate is the component id of a nodestring; the
    first node of every row is a node of the coverage, and the second is
    one too unless it is the uninitialized id (the rows of a
    levee-outflow arc). *)
Theorem coverage_levee_table (s s' : t) :
  coverages s = (Ok tt, s') ->
  exists c,
    mapped_data s' = Some c
    /\ List.length (levee_data c) = List.length (levee_coords c)
    /\ Forall (fun id => In id (comp_id_data c)) (levee_coords c)
    /\ Forall (fun r => In (node1 r) (nodes c)
                        /\ (node2 r = UNINITIALIZED_COMP_ID
                            \/ In (node2 r) (nodes c)))
         (levee_data c).
Proof.
  intros E.
  destruct (_read_coverages_keeps
              (fun _ _ c => levee_table UNINITIALIZED_COMP_ID c)
              (fun _ _ c => levee_table UNINITIALIZED_COMP_ID c))
    with (s := s) (s' := s') as (c & Hc & K); auto.
  - intros s0 c0 s1 c1. apply levee_table_arc.
  - intros s0 c0 s1 c1. apply levee_table_arc.
  - repeat split; constructor.
  - exists c. split; [exact Hc | exact K].
Qed.


(** X17.  A file that ends with the ocean section (or before it) is read
    without an error: the coverage holds what the ocean section gave, no
    land or generic arc is read, and the line counter is one further; a
    file that has ended before the ocean section gives the empty
    coverage. *)
Theorem coverage_without_land_sections (s s1 : t) (c1 : coverage) :
  ocean_section (s, empty_coverage) = (Ok tt, (s1, c1)) ->
  Z.of_nat (List.length (lines s1)) <= current_line s1 ->
  coverages s
  = (Ok tt, set_mapped_data (Some c1)
              (set_current_line (current_line s1 + 1) s1))
  /\ (Z.of_nat (List.length (lines s)) <= current_line s ->
      s1 = s /\ c1 = empty_coverage).
Proof.
  intros Eo Hend. split.
  - unfold _read_coverages, read_sections.
    rewrite mbind_unfold, Eo. cbv iota beta.
    rewrite mbind_on_self_get.
    apply Z.ltb_ge in Hend. rewrite Hend.
    rewrite mbind_ret, mbind_lift. cbn [is_empty].
    rewrite mbind_unfold. cbn [range_len Z.to_nat read_land_arcs ret].
    rewrite mbind_on_self_get. rewrite Hend, andb_false_r.
    rewrite mbind_ret, mbind_lift. cbn [split is_nil].
    change (split EmptyString) with (@nil string). cbn [is_nil].
    rewrite mbind_on_self_modify. reflexivity.
  - intros Hs. unfold read_ocean_section in Eo.
    rewrite mbind_on_self_get in Eo.
    apply Z.ltb_ge in Hs. rewrite Hs in Eo.
    injection Eo as <- <-. split; reflexivity.
Qed.

End BoundaryGrowth.

(** A coverage with an ocean arc, a levee pair with a pipe, a
    levee-outflow arc and a river arc. *)
Lemma coverage_nodestrings_tile_nodes_witness :
  let pt (i : Z) := (i + 1, ((of_Z i, of_Z i, zero), i)) in
  let s := InitialFort14Reader.mk
             (text_lines ["1 = ocean arcs"; "2 = ocean nodes"; "2"; "1"; "2";
                          "3 = land arcs"; "7 total"; "2 24 = levee pair";
                          "3 4 1.5 1.0 1.0 ! c";
                          "5 6 1.5 1.0 1.0 50.0 0.5 0.3";
                          "1 23 = outflow"; "6 2.5 1.0";
                          "2 2 = river"; "2"; "3"])
             0 (map pt [0; 1; 2; 3; 4; 5]) [] [] [] 0 None in
  let out := InitialFort14Reader._read_coverages decimal_float
               0 1 2 3 4 5 6 7 8 9 0 1 (-1)
               (InitialFort14Reader.mk_atts 9 0 0 0) s in
  fst out = Ok tt
  /\ exists c,
       InitialFort14Reader.mapped_data (snd out) = Some c
       /\ InitialFort14Reader.nodes c = [1; 2; 3; 5; 4; 6; 6; 2; 3]
       /\ InitialFort14Reader.node_count_data c = [2; 2; 2; 1; 2]
       /\ List.concat
            (map (Notions.arc_nodes c)
               (seq 0 (List.length (InitialFort14Reader.comp_id_data c))))
          = InitialFort14Reader.nodes c.
Proof.
  intros pt s out.
  destruct out as [res s'] eqn:E.
  assert (Hres : res = Ok tt
                 /\ option_map InitialFort14Reader.nodes
                      (InitialFort14Reader.mapped_data s')
                    = Some [1; 2; 3; 5; 4; 6; 6; 2; 3]
                 /\ option_map InitialFort14Reader.node_count_data
                      (InitialFort14Reader.mapped_data s')
                    = Some [2; 2; 2; 1; 2]).
  { unfold out in E. vm_compute in E. inversion E; subst.
    repeat split; reflexivity. }
  destruct Hres as (-> & Hno & Hn).
  destruct (coverage_nodestrings_tile_nodes decimal_float 0 1 2 3 4 5 6 7 8 9
              0 1 (-1) (InitialFort14Reader.mk_atts 9 0 0 0) s s' E)
    as (c & Hc & T & _).
  split; [reflexivity |].
  exists c. rewrite Hc in Hno, Hn. simpl in Hno, Hn.
  injection Hno as Hno. injection Hn as Hn.
  repeat (split; [assumption |]). exact T.
Defined.

Lemma coverage_levee_table_witness :
  let pt (i : Z) := (i + 1, ((of_Z i, of_Z i, zero), i)) in
  let s := InitialFort14Reader.mk
             (text_lines ["0 = ocean arcs"; "0 = ocean nodes";
                          "2 = land arcs"; "5 total"; "2 24 = levee pair";
                          "3 4 1.5 1.0 1.0 ! c";
                          "5 6 1.5 1.0 1.0 50.0 0.5 0.3";
                          "1 23 = outflow"; "6 2.5 1.0"])
             0 (map pt [0; 1; 2; 3; 4; 5]) [] [] [] 0 None in
  let out := InitialFort14Reader._read_coverages decimal_float
               0 1 2 3 4 5 6 7 8 9 0 1 (-1)
               (InitialFort14Reader.mk_atts 9 0 0 0) s in
  fst out = Ok tt
  /\ exists c,
       InitialFort14Reader.mapped_data (snd out) = Some c
       /\ InitialFort14Reader.levee_coords c = [0; 0; 1]
       /\ map InitialFort14Reader.node1 (InitialFort14Reader.levee_data c)
          = [3; 5; 6]
       /\ map InitialFort14Reader.node2 (InitialFort14Reader.levee_data c)
          = [4; 6; -1]
       /\ List.length (InitialFort14Reader.levee_data c)
          = List.length (InitialFort14Reader.levee_coords c).
Proof.
  intros pt s out.
  destruct out as [res s'] eqn:E.
  assert (Hres : res = Ok tt
                 /\ option_map InitialFort14Reader.levee_coords
                      (InitialFort14Reader.mapped_data s')
                    = Some [0; 0; 1]
                 /\ option_map
                      (fun c => map InitialFort14Reader.node1
                                  (InitialFort14Reader.levee_data c))
                      (InitialFort14Reader.mapped_data s')
                    = Some [3; 5; 6]
                 /\ option_map
                      (fun c => map InitialFort14Reader.node2
                                  (InitialFort14Reader.levee_data c))
                      (InitialFort14Reader.mapped_data s')
                    = Some [4; 6; -1]).
  { unfold out in E. vm_compute in E. inversion E; subst.
    repeat split; reflexivity. }
  destruct Hres as (-> & Hl & H1 & H2).
  destruct (coverage_levee_table decimal_float 0 1 2 3 4 5 6 7 8 9
              0 1 (-1) (InitialFort14Reader.mk_atts 9 0 0 0) s s' E)
    as (c & Hc & L & _).
  split; [reflexivity |].
  exists c. rewrite Hc in Hl, H1, H2. simpl in Hl, H1, H2.
  injection Hl as Hl. injection H1 as H1. injection H2 as H2.
  repeat (split; [assumption |]). exact L.
Defined.


Lemma coverage_without_land_sections_witness :
  let pt (i : Z) := (i + 1, ((of_Z i, of_Z i, zero), i)) in
  let s := InitialFort14Reader.mk
             (text_lines ["1 = ocean arcs"; "2 = ocean nodes"; "2"; "1"; "2"])
             0 (map pt [0; 1; 2]) [] [] [] 0 None in
  let out := InitialFort14Reader._read_coverages decimal_float
               0 1 2 3 4 5 6 7 8 9 0 1 (-1)
               (InitialFort14Reader.mk_atts 9 0 0 0) s in
  fst out = Ok tt
  /\ InitialFort14Reader.current_line (snd out) = 6
  /\ option_map InitialFort14Reader.nodes
       (InitialFort14Reader.mapped_data (snd out)) = Some [1; 2].
Proof.
  intros pt s out.
  destruct (InitialFort14Reader.read_ocean_section 0 (-1)
              (InitialFort14Reader.mk_atts 9 0 0 0)
              (s, InitialFort14Reader.empty_coverage))
    as [r [s1 c1]] eqn:Eo.
  assert (Hres : r = Ok tt /\ InitialFort14Reader.current_line s1 = 5
                 /\ List.length (InitialFort14Reader.lines s1) = 5%nat
                 /\ InitialFort14Reader.nodes c1 = [1; 2]).
  { vm_compute in Eo. inversion Eo; subst. repeat split; reflexivity. }
  destruct Hres as (-> & Hl & Hn & Hno).
  destruct (coverage_without_land_sections decimal_float 0 1 2 3 4 5 6 7 8 9
              0 1 (-1) (InitialFort14Reader.mk_atts 9 0 0 0) s s1 c1 Eo)
    as (H & _); [rewrite Hl, Hn; simpl; lia |].
  unfold out. rewrite H. simpl. rewrite Hl, Hno. repeat split.
Defined.

(** ** The harmonic analysis files *)

Section HarmonicReader.

Import ADCIRCSolutionReader Harmonic.

Variable fos : string -> option float.

Lemma set_nth_middle {A : Type} (pre suf : list A) (x v : A) :
  set_nth (pre ++ x :: suf) (List.length pre) v = (pre ++ v :: suf)%list.
Proof. induction pre as [|h t IH]; simpl; [| rewrite IH]; reflexivity. Qed.

Lemma length_setitem2 {A : Type} (m m' : list (list A)) (j i : Z) (v : A) :
  setitem2 m j i v = Ok m' -> List.length m' = List.length m.
Proof.
  unfold setitem2. destruct (getitem m j) as [row|]; [| discriminate].
  destruct (setitem row i v) as [row'|]; [| discriminate].
  apply length_setitem.
Qed.

(** The constituent names are the fourth token of each line, in order. *)
Lemma read_con_names_spec (n : nat) :
  forall pre suf fh names fh',
    List.length suf = n ->
    read_con_names n (Z.of_nat (List.length pre)) (pre ++ suf)%list fh
    = (Ok names, fh') ->
    exists new,
      names = (pre ++ new)%list
      /\ List.length new = n
      /\ Forall2 (fun l name => getitem (split l) 3 = Ok name)
           (firstn n fh) new.
Proof.
  induction n as [|n IH]; intros pre suf fh names fh' L E; simpl in E.
  - injection E as <- _. destruct suf; [| discriminate].
    exists []. split; [reflexivity |]. split; [reflexivity | constructor].
  - destruct suf as [|x suf]; [discriminate |].
    unfold mbind at 1 in E.
    destruct fh as [|l fh1]; simpl readline in E; cbv iota beta in E.
    + rewrite mbind_lift in E. discriminate.
    + rewrite mbind_lift in E.
      destruct (getitem (split l) 3) as [name|] eqn:En; [| discriminate].
      rewrite mbind_lift in E.
      destruct (setitem (pre ++ x :: suf) (Z.of_nat (List.length pre)) name)
        as [names1|] eqn:Es; [| discriminate].
      apply setitem_nat in Es. destruct Es as (_ & ->).
      rewrite set_nth_middle in E.
      replace (Z.of_nat (List.length pre) + 1)
        with (Z.of_nat (List.length (pre ++ [name]))) in E
        by (rewrite length_app; simpl; lia).
      change (pre ++ name :: suf)%list with (pre ++ [name] ++ suf)%list in E.
      rewrite app_assoc in E.
      apply IH in E; [| simpl in L; lia].
      destruct E as (new & -> & Ln & F).
      exists (name :: new). rewrite <- app_assoc. split; [reflexivity |].
      split; [simpl; lia |].
      simpl. constructor; assumption.
Qed.

(** The tables keep their number of constituents. *)
Local Abbreviation same_size h h' :=
  (List.length (amp_values h') = List.length (amp_values h)
   /\ List.length (phase_values h') = List.length (phase_values h)
   /\ List.length (amp_mag h') = List.length (amp_mag h)
   /\ List.length (phase_mag h') = List.length (phase_mag h)).

Lemma read_harmonic_cons_size (scalar : bool) (n : nat) :
  forall i j h fh h' fh',
    read_harmonic_cons fos scalar n i j h fh = (Ok h', fh') ->
    same_size h h'.
Proof.
  induction n as [|n IH]; intros i j h fh h' fh' E; simpl in E.
  - injection E as <- _. repeat split.
  - unfold mbind at 1 in E.
    destruct (readline fh) as [[l|e] fh1]; [| discriminate].
    destruct scalar.
    + rewrite mbind_lift in E.
      destruct (float_at fos (split l) 0) as [a|]; [| discriminate].
      rewrite mbind_lift in E.
      destruct (setitem2 (amp_values h) j i [a]) as [amp|] eqn:Ea;
        [| discriminate].
      rewrite mbind_lift in E.
      destruct (float_at fos (split l) 1) as [p|]; [| discriminate].
      rewrite mbind_lift in E.
      destruct (setitem2 (phase_values h) j i [p]) as [ph|] eqn:Ep;
        [| discriminate].
      apply length_setitem2 in Ea, Ep.
      apply IH in E. simpl in E. destruct E as (E1 & E2 & E3 & E4).
      repeat split; congruence.
    + rewrite mbind_lift in E.
      destruct (float_at fos (split l) 0) as [a0|]; [| discriminate].
      rewrite mbind_lift in E.
      destruct (float_at fos (split l) 2) as [a1|]; [| discriminate].
      rewrite mbind_lift in E.
      destruct (setitem2 (amp_values h) j i [a0; a1]) as [amp|] eqn:Ea;
        [| discriminate].
      rewrite mbind_lift in E.
      destruct (float_at fos (split l) 1) as [p0|]; [| discriminate].
      rewrite mbind_lift in E.
      destruct (float_at fos (split l) 3) as [p1|]; [| discriminate].
      rewrite mbind_lift in E.
      destruct (setitem2 (phase_values h) j i [p0; p1]) as [ph|] eqn:Ep;
        [| discriminate].
      rewrite mbind_lift in E.
      destruct (magnitude a0 a1) as [am|]; [| discriminate].
      rewrite mbind_lift in E.
      destruct (setitem2 (amp_mag h) j i am) as [amag|] eqn:Eam;
        [| discriminate].
      rewrite mbind_lift in E.
      destruct (magnitude p0 p1) as [pm|]; [| discriminate].
      rewrite mbind_lift in E.
      destruct (setitem2 (phase_mag h) j i pm) as [pmag|] eqn:Epm;
        [| discriminate].
      apply length_setitem2 in Ea, Ep, Eam, Epm.
      apply IH in E. simpl in E. destruct E as (E1 & E2 & E3 & E4).
      repeat split; congruence.
Qed.

Lemma read_harmonic_pts_size (scalar : bool) (n : nat) :
  forall num_cons i h fh h' fh',
    read_harmonic_pts fos scalar n num_cons i h fh = (Ok h', fh') ->
    same_size h h'.
Proof.
  induction n as [|n IH]; intros num_cons i h fh h' fh' E; simpl in E.
  - injection E as <- _. repeat split.
  - unfold mbind at 1 in E.
    destruct (readline fh) as [[l|e] fh1]; [| discriminate].
    unfold mbind at 1 in E.
    destruct (read_harmonic_cons fos scalar _ i 0 h fh1) as [[h1|e] fh2] eqn:Ec;
      [| discriminate].
    apply read_harmonic_cons_size in Ec. apply IH in E.
    destruct Ec as (C1 & C2 & C3 & C4). destruct E as (E1 & E2 & E3 & E4).
    repeat split; congruence.
Qed.

Lemma getitem_within {A : Type} (l : list A) (k : nat) :
  (k < List.length l)%nat ->
  exists x, getitem l (Z.of_nat k) = Ok x /\ nth_error l k = Some x.
Proof.
  intros Hk. destruct (nth_error l k) as [x|] eqn:E.
  - exists x. split; [now apply getitem_nat | reflexivity].
  - apply nth_error_None in E. lia.
Qed.

(** With a name and a row of each table for every constituent, the
    datasets are written without an error, for each constituent in turn. *)
Lemma write_harmonic_spec (scalar : bool) (n : nat) :
  forall k con_names h r,
    (k + n <= List.length con_names)%nat ->
    (k + n <= List.length (amp_values h))%nat ->
    (k + n <= List.length (phase_values h))%nat ->
    (scalar = false -> (k + n <= List.length (amp_mag h))%nat
                       /\ (k + n <= List.length (phase_mag h))%nat) ->
    exists new,
      write_harmonic scalar n (Z.of_nat k) con_names h r
      = (Ok tt, mk (filenames r) (num_ts r) (num_nodes r) (read_file r)
                  (read_data r) (added r ++ new) (log r))
      /\ map dset_name new
         = flat_map (harmonic_names scalar) (firstn n (skipn k con_names))
      /\ Forall (fun d => dset_times d = [zero]) new.
Proof.
  induction n as [|n IH]; intros k con_names h r Hc Ha Hp Hm.
  - exists []. simpl. rewrite app_nil_r. destruct r. repeat split.
    constructor.
  - destruct (getitem_within con_names k ltac:(lia)) as (name & Gn & Nn).
    destruct (getitem_within (amp_values h) k ltac:(lia)) as (amp & Ga & _).
    destruct (getitem_within (phase_values h) k ltac:(lia)) as (ph & Gp & _).
    cbn [write_harmonic].
    rewrite mbind_lift, Gn, mbind_lift, Ga.
    unfold _write_xmdf_dataset, add_xmdf_dataset.
    rewrite mbind_modify, mbind_lift, Gp, mbind_modify.
    rewrite (skipn_nth_error _ _ _ Nn). cbn [firstn flat_map].
    replace (Z.of_nat k + 1) with (Z.of_nat (S k)) by lia.
    destruct scalar.
    + rewrite mbind_ret.
      match goal with
      | |- context [write_harmonic true n _ _ _ ?r1] =>
          destruct (IH (S k) con_names h r1) as (new & E & Hn & Ht);
          try lia; try discriminate
      end.
      rewrite E. cbn [filenames num_ts num_nodes read_file read_data added
                      log push_dataset].
      eexists (_ :: _ :: new). rewrite <- !app_assoc.
      split; [reflexivity |]. split.
      * cbn [map dset_name harmonic_names app]. rewrite Hn. reflexivity.
      * repeat constructor. exact Ht.
    + destruct (Hm eq_refl) as (Hm1 & Hm2).
      destruct (getitem_within (amp_mag h) k ltac:(lia)) as (am & Gam & _).
      destruct (getitem_within (phase_mag h) k ltac:(lia)) as (pm & Gpm & _).
      rewrite mbind_unfold. rewrite mbind_lift, Gam.
      rewrite mbind_modify, mbind_lift, Gpm. unfold modify at 1.
      cbv iota beta.
      match goal with
      | |- context [write_harmonic false n _ _ _ ?r1] =>
          destruct (IH (S k) con_names h r1) as (new & E & Hn & Ht);
          try lia; try (intros _; split; lia)
      end.
      rewrite E. cbn [filenames num_ts num_nodes read_file read_data added
                      log push_dataset].
      eexists (_ :: _ :: _ :: _ :: new). rewrite <- !app_assoc.
      split; [reflexivity |]. split.
      * cbn [map dset_name harmonic_names app]. rewrite Hn. reflexivity.
      * repeat constructor. exact Ht.
Qed.

(** X18.  The harmonic reader adds its datasets only after the whole file
    is read: when it raises, the reader is as it was.  When it returns,
    the first line gave the number of constituents, the fourth token of
    each of the following lines the name of one, and the reader has added,
    for each constituent in that order, the datasets named after it
    (amplitude and phase, and for a velocity file their magnitudes), each
    with the one time 0.0; the log is as it was. *)
Theorem harmonic_reader_outcome (scalar : bool) (r : t) (lines : handle) :
  let out := read_ascii_harmonic fos scalar (r, lines) in
  let r' := fst (snd out) in
  (forall e, fst out = Raise e -> r' = r)
  /\ (fst out = Ok tt ->
      exists num_cons con_names new,
        int_at (split (hd EmptyString lines)) 0 = Ok num_cons
        /\ List.length con_names = Z.to_nat num_cons
        /\ Forall2 (fun l name => getitem (split l) 3 = Ok name)
             (firstn (Z.to_nat num_cons) (tl lines)) con_names
        /\ added r' = (added r ++ new)%list
        /\ map dset_name new = flat_map (harmonic_names scalar) con_names
        /\ Forall (fun d => dset_times d = [zero]) new
        /\ log r' = log r).
Proof.
  intros out r'. subst r' out. unfold read_ascii_harmonic.
  rewrite mbind_on_fh.
  assert (Hrl : readline lines = (Ok (hd EmptyString lines), tl lines))
    by (destruct lines; reflexivity).
  rewrite Hrl. rewrite mbind_lift.
  destruct (int_at (split (hd EmptyString lines)) 0) as [num_cons|] eqn:Enc;
    [| split; [reflexivity | discriminate]].
  rewrite mbind_on_fh.
  destruct (read_con_names (range_len num_cons) 0
              (replicate num_cons EmptyString) (tl lines))
    as [[con_names|e] fh1] eqn:Ecn;
    [| split; [reflexivity | discriminate]].
  apply (read_con_names_spec _ [] (replicate num_cons EmptyString)) in Ecn;
    [| apply repeat_length].
  destruct Ecn as (new_names & Hcn & Lcn & F). simpl in Hcn.
  subst new_names. unfold range_len in Lcn.
  rewrite mbind_on_fh.
  assert (Hrl1 : readline fh1 = (Ok (hd EmptyString fh1), tl fh1))
    by (destruct fh1; reflexivity).
  rewrite Hrl1. rewrite mbind_lift.
  destruct (int_at (split (hd EmptyString fh1)) 0) as [num_pts|];
    [| split; [reflexivity | discriminate]].
  rewrite mbind_on_fh.
  match goal with
  | |- context [read_harmonic_pts fos scalar ?n ?nc 0 ?h0 ?fh] =>
      destruct (read_harmonic_pts fos scalar n nc 0 h0 fh)
        as [[h|e] fh2] eqn:Eh;
      [apply read_harmonic_pts_size in Eh; simpl in Eh;
       destruct Eh as (H1 & H2 & H3 & H4)
      | split; [reflexivity | discriminate]]
  end.
  unfold replicate in H1, H2. rewrite repeat_length in H1, H2.
  destruct (write_harmonic_spec scalar (range_len num_cons) 0 con_names h r)
    as (new & E & Hn & Ht); unfold range_len in *; try lia.
  { intros ->. unfold replicate in H3, H4. rewrite repeat_length in H3, H4.
    lia. }
  unfold on_self. change (Z.of_nat 0) with 0 in E. rewrite E.
  cbn [fst snd]. split; [discriminate |]. intros _.
  exists num_cons, con_names, new.
  rewrite skipn_O, firstn_all2 in Hn by lia.
  repeat split; auto.
Qed.

End HarmonicReader.

(** A fort.53 with two constituents at two nodes. *)
Lemma harmonic_reader_outcome_witness :
  let lines := text_lines ["2"; "0.1 1.0 0.0 M2"; "0.2 1.0 0.0 S2"; "2";
                           "1"; "0.5 10.0"; "0.6 20.0";
                           "2"; "0.7 30.0"; "0.8 40.0"] in
  let r := ADCIRCSolutionReader.init ["fort.53"] in
  let out := ADCIRCSolutionReader.read_ascii_harmonic decimal_float true
               (r, lines) in
  fst out = Ok tt
  /\ map dset_name (ADCIRCSolutionReader.added (fst (snd out)))
     = ["M2 Elevation Amplitude"; "M2 Elevation Phase";
        "S2 Elevation Amplitude"; "S2 Elevation Phase"]
  /\ Forall (fun d => dset_times d = [zero])
       (ADCIRCSolutionReader.added (fst (snd out))).
Proof.
  intros lines r out.
  assert (Hok : fst out = Ok tt) by (vm_compute; reflexivity).
  assert (Hnames : map dset_name (ADCIRCSolutionReader.added (fst (snd out)))
                   = ["M2 Elevation Amplitude"; "M2 Elevation Phase";
                      "S2 Elevation Amplitude"; "S2 Elevation Phase"])
    by (vm_compute; reflexivity).
  destruct (proj2 (harmonic_reader_outcome decimal_float true r lines) Hok)
    as (num_cons & con_names & new & _ & _ & _ & Ha & _ & Ht & _).
  split; [exact Hok |]. split; [exact Hnames |].
  refine (eq_ind_r (fun l => Forall (fun d => dset_times d = [zero]) l)
            _ Ha).
  simpl. exact Ht.
Defined.

(** ** The batch of solution files *)

Section BatchFiles.

Import ADCIRCSolutionReader.

Variable fos : string -> option float.
Variable fs : filesystem.

Lemma mbind_assoc {S A B C : Type} (m : M S A) (f : A -> M S B)
      (g : B -> M S C) (s : S) :
  mbind (mbind m f) g s = mbind m (fun a => mbind (f a) g) s.
Proof.
  unfold mbind. destruct (m s) as [[a|e] s1]; reflexivity.
Qed.

Lemma mbind_ext {S A B : Type} (m : M S A) (f g : A -> M S B) :
  (forall a s, f a s = g a s) -> forall s, mbind m f s = mbind m g s.
Proof.
  intros H s. unfold mbind. destruct (m s) as [[a|e] s1]; auto.
Qed.

(** X19.  The batch reads the files in the order of the list, and a path
    that is no file or names a recording station file counts for nothing:
    reading a list is reading its first part and then, unless a reader
    raised, the rest; and the outcome is that of the list without the
    paths that are no file and without the station files. *)
Theorem batch_in_order_without_stations (files more : list string) (r : t) :
  add_mesh_datasets_from fos fs (files ++ more)%list r
  = mbind (add_mesh_datasets_from fos fs files)
      (fun _ => add_mesh_datasets_from fos fs more) r
  /\ add_mesh_datasets_from fos fs files r
     = add_mesh_datasets_from fos fs
         (filter (fun f => match fs f with
                           | Some _ => negb (is_station f)
                           | None => false
                           end) files) r.
Proof.
  split.
  - revert r. induction files as [|f rest IH]; intros r; [reflexivity |].
    cbn [app add_mesh_datasets_from].
    destruct (fs f) as [x|]; [| apply IH].
    destruct (is_station f); [apply IH |].
    rewrite mbind_assoc. apply mbind_ext. intros _ r0.
    destruct (get_reader f x) as [rd|].
    + rewrite mbind_assoc. apply mbind_ext. intros _ r1.
      rewrite mbind_assoc. apply mbind_ext. intros _ r2. apply IH.
    + rewrite mbind_assoc. apply mbind_ext. intros _ r1. apply IH.
  - revert r. induction files as [|f rest IH]; intros r; [reflexivity |].
    cbn [filter add_mesh_datasets_from].
    destruct (fs f) as [x|] eqn:Ef; [| apply IH].
    destruct (is_station f) eqn:Es; cbn [negb]; [apply IH |].
    cbn [add_mesh_datasets_from]. rewrite Ef, Es.
    apply mbind_ext. intros _ r0.
    destruct (get_reader f x) as [rd|].
    + apply mbind_ext. intros _ r1. apply mbind_ext. intros _ r2. apply IH.
    + apply mbind_ext. intros _ r1. apply IH.
Qed.

End BatchFiles.
